(** * Media recording, playback, analysis and transcription

    A shallow embedding of the recorder components of the mock-interview
    application and of its client-side transcription module:

    - [MediaRecorder], the combined audio/video recorder (media-recorder),
    - [AudioRecorder], the audio-only recorder,
    - [WebcamRecorder], the video-only recorder,
    - [ClientTranscription], the module lib/client-transcription.

    Modelling conventions.

    - A JavaScript [number] is a rational ([Q]).  The handlers below only
      copy and compare numbers, and the analysis formulas add, scale and
      cap them; no rounding is modelled.
    - A component is its React state (the [useState] cells), its refs and
      the slice of the browser it talks to (interval timers, media streams,
      object URLs).  A handler is a closure of one render: it reads the
      [useState] cells as that render committed them, reads refs and the
      browser as they are now, and its updates go to the current state.  So
      a handler takes two states, the render it belongs to and the current
      one.  A user event runs the closure of the latest render; a timer
      callback or a promise continuation keeps the render of the handler
      that created it.  A handler that reads its cells before it sets any
      is written on the current state alone.
    - An [async] handler is split at its [await]s: the part run by the call
      returns the continuation it is suspended on, and a [resume] function
      runs the rest once the awaited promise has settled.
    - What the browser decides (permission prompts, [Math.random], promise
      outcomes, recogniser events) is an explicit argument.
    - [Blob]s carry their size and MIME type. *)

From Stdlib Require Import QArith Qminmax Qround Lqa Lia List String Bool.
From Stdlib Require Import DecimalString Sorted.
From Stdlib Require Strings.Byte.
From stdpp Require Import base gmap sets strings.
Import ListNotations.

Local Open Scope string_scope.

(** ** Values shared by all components *)

Inductive MediaType := audio | video.

Definition mediaType_str (m : MediaType) : string :=
  match m with audio => "audio" | video => "video" end.

Definition MediaType_eqb (a b : MediaType) : bool :=
  match a, b with
  | audio, audio | video, video => true
  | _, _ => false
  end.

Record Blob := mkBlob { blob_size : nat; blob_type : string }.

(** [new Blob(parts, { type })]: the concatenation of the parts. *)
Definition new_Blob (parts : list Blob) (type : string) : Blob :=
  mkBlob (list_sum (map blob_size parts)) type.

(** The outcome of an awaited promise or of a call that may throw.
    [Pending] is a promise that never settles. *)
Inductive Result (A : Type) :=
| Ok (a : A)
| Throw (message : string)
| Pending.
Arguments Ok {A} a.
Arguments Throw {A} message.
Arguments Pending {A}.

(** [a || b] on strings: the empty string is falsy. *)
Definition or_else (a b : string) : string :=
  if String.eqb a "" then b else a.

(** Seconds of the recording clock as a [number]. *)
Definition seconds (n : nat) : Q := inject_Z (Z.of_nat n).

(** [a > b] on numbers. *)
Definition Qgtb (a b : Q) : bool := negb (Qle_bool a b).

(** ** Analysis samples *)

Record AnalysisSample := mkSample {
  a_volume : Q;
  a_pace : Q;
  a_clarity : Q;
  a_confidence : Q;
  a_facialExpressions : Q;
  a_eyeContact : Q
}.

Definition zeroSample : AnalysisSample := mkSample 0 0 0 0 0 0.

Definition sample_fields (m : AnalysisSample) : list Q :=
  [a_volume m; a_pace m; a_clarity m; a_confidence m;
   a_facialExpressions m; a_eyeContact m].

(** ** The transcription module (lib/client-transcription) *)

Module ClientTranscription.

Definition failureText : string :=
  "Transcription failed. Please try again or type your response manually.".

Definition unsupportedText : string :=
  "Your browser does not support speech recognition. Please type your response manually.".

(** The values [window.Transformers] and [transformersLib] can hold. *)
Inductive JsVal := Undefined | Null | Obj (id : nat).

Definition truthy (v : JsVal) : bool :=
  match v with Obj _ => true | _ => false end.

Definition is_defined (v : JsVal) : bool :=
  match v with Undefined => false | _ => true end.

Inductive PromiseState :=
| Unsettled
| Resolved
| Rejected (message : string).

(** The module-level variables, the promises the module has created (by
    identity) and the [<script>] elements it has appended to the page.
    [pendingScript] is the promise whose [resolve]/[reject] the handlers
    of the appended script hold, until one of them has fired. *)
Record ModuleState := mkModule {
  isWhisperLoaded : bool;
  loadPromise : option nat;
  transformersLib : JsVal;
  promises : gmap nat PromiseState;
  nextPromise : nat;
  scriptsAppended : nat;
  pendingScript : option nat
}.

(** [let isWhisperLoaded = false], [let loadPromise = null],
    [let transformersLib = null]. *)
Definition initial : ModuleState :=
  mkModule false None Null ∅ 0 0 None.

(** What [typeof window] and [window.Transformers] are at a call. *)
Inductive Window :=
| NoWindow
| Page (Transformers : JsVal).

(** [new Promise(...)] / [Promise.resolve()]: a promise with a fresh
    identity. *)
Definition new_promise (st : PromiseState) (m : ModuleState) : nat * ModuleState :=
  let p := nextPromise m in
  (p, mkModule (isWhisperLoaded m) (loadPromise m) (transformersLib m)
        (<[p := st]> (promises m)) (S p) (scriptsAppended m) (pendingScript m)).

(** [resolve()] and [reject(e)] settle a promise once. *)
Definition settle (p : nat) (st : PromiseState) (m : ModuleState) : ModuleState :=
  match promises m !! p with
  | Some Unsettled =>
      mkModule (isWhisperLoaded m) (loadPromise m) (transformersLib m)
        (<[p := st]> (promises m)) (nextPromise m) (scriptsAppended m) (pendingScript m)
  | _ => m
  end.

Definition set_loaded (lib : JsVal) (m : ModuleState) : ModuleState :=
  mkModule true (loadPromise m) lib (promises m) (nextPromise m)
    (scriptsAppended m) (pendingScript m).

Definition set_loadPromise (p : nat) (m : ModuleState) : ModuleState :=
  mkModule (isWhisperLoaded m) (Some p) (transformersLib m) (promises m)
    (nextPromise m) (scriptsAppended m) (pendingScript m).

(** [document.head.appendChild(script)] with [onload]/[onerror] bound to
    promise [p]. *)
Definition appendScript (p : nat) (m : ModuleState) : ModuleState :=
  mkModule (isWhisperLoaded m) (loadPromise m) (transformersLib m) (promises m)
    (nextPromise m) (S (scriptsAppended m)) (Some p).

Definition script_done (m : ModuleState) : ModuleState :=
  mkModule (isWhisperLoaded m) (loadPromise m) (transformersLib m) (promises m)
    (nextPromise m) (scriptsAppended m) None.

(** [initWhisper()]: the promise returned and the module afterwards. *)
Definition initWhisper (w : Window) (m : ModuleState) : nat * ModuleState :=
  if isWhisperLoaded m && truthy (transformersLib m) then
    new_promise Resolved m
  else
    match loadPromise m with
    | Some p => (p, m)
    | None =>
        let '(p, m) := new_promise Unsettled m in
        let m :=
          match w with
          | NoWindow =>
              settle p (Rejected "Whisper Web can only be used in a browser environment") m
          | Page T =>
              if is_defined T then settle p Resolved (set_loaded T m)
              else appendScript p m
          end in
        (p, set_loadPromise p m)
    end.

(** The two events of the appended script. *)
Inductive ScriptEvent :=
| Loaded (Transformers : JsVal)
| Failed.

Definition script_event (e : ScriptEvent) (m : ModuleState) : ModuleState :=
  match pendingScript m with
  | None => m
  | Some p =>
      match e with
      | Loaded T => script_done (settle p Resolved (set_loaded T m))
      | Failed => script_done (settle p (Rejected "Failed to load Whisper Web library") m)
      end
  end.

(** [await p]. *)
Definition await (p : nat) (m : ModuleState) : Result unit :=
  match promises m !! p with
  | Some Resolved => Ok tt
  | Some (Rejected msg) => Throw msg
  | _ => Pending
  end.

Definition bind {A B} (r : Result A) (k : A -> Result B) : Result B :=
  match r with
  | Ok a => k a
  | Throw e => Throw e
  | Pending => Pending
  end.

(** [try { r } catch (e) { h e }]. *)
Definition try_catch {A} (r : Result A) (h : string -> Result A) : Result A :=
  match r with
  | Throw e => h e
  | _ => r
  end.

(** What the Whisper pipeline does once the library is there:
    [transformersLib.pipeline(...)], [audioBlob.arrayBuffer()], the run
    itself and the [text] of its result ([""] when absent). *)
Record PipelineRun := mkPipelineRun {
  createPipeline : Result unit;
  arrayBuffer : Result unit;
  runPipeline : Result string
}.

(** The inner [try] block of [transcribeAudioClient]: set up the pipeline,
    read the blob, run the transcription, return its text. *)
Definition pipelineSteps (run : PipelineRun) : Result string :=
  bind (createPipeline run) (fun _ =>
  bind (arrayBuffer run) (fun _ =>
  bind (runPipeline run) (fun text =>
  Ok (or_else text "No transcription available.")))).

(** [transcribeAudioClient(audioBlob, progressCallback)].  [ev] is the
    event of the appended script, if one fires while [initWhisper()] is
    awaited.  Progress reports are not modelled. *)
Definition transcribeAudioClient (w : Window) (ev : option ScriptEvent)
    (run : PipelineRun) (m : ModuleState) : Result string * ModuleState :=
  let '(p, m) := initWhisper w m in
  let m := match ev with Some e => script_event e m | None => m end in
  let body :=
    bind (await p m) (fun _ =>
    if negb (truthy (transformersLib m)) then Throw "Transformers library not loaded"
    else try_catch (pipelineSteps run) (fun pipelineError => Throw pipelineError)) in
  (try_catch body (fun _ => Ok failureText), m).

(** The Web Speech API as [transcribeAudioFallback] sees it. *)
Inductive SpeechEvent :=
| onresult (results : list (bool * string))
    (** [event.results] from [event.resultIndex] on: [isFinal], transcript *)
| onerror (err : string)
| onend
| audio_onended
| play_rejected (err : string).

Record SpeechApi := mkSpeechApi {
  hasSpeechRecognition : bool;
  setupThrows : bool;
  speechEvents : list SpeechEvent
}.

(** The promise of [transcribeAudioFallback]: the running transcript and
    the value the promise has been resolved with, if any. *)
Record Recognition := mkRecognition {
  transcript : string;
  resolved : option string
}.

Definition resolve (v : string) (r : Recognition) : Recognition :=
  match resolved r with
  | Some _ => r
  | None => mkRecognition (transcript r) (Some v)
  end.

Definition speech_step (r : Recognition) (e : SpeechEvent) : Recognition :=
  match e with
  | onresult results =>
      mkRecognition
        (fold_left (fun (t : string) (res : bool * string) =>
                      if fst res then t +:+ snd res +:+ " " else t)
           results (transcript r))
        (resolved r)
  | onerror _ => resolve failureText r
  | onend => resolve (or_else (transcript r) failureText) r
  | audio_onended => r
  | play_rejected _ => resolve failureText r
  end.

(** [transcribeAudioFallback(audioBlob)]. *)
Definition transcribeAudioFallback (api : SpeechApi) : Result string :=
  if negb (hasSpeechRecognition api) then Ok unsupportedText
  else if setupThrows api then Ok failureText
  else
    match resolved (fold_left speech_step (speechEvents api) (mkRecognition "" None)) with
    | Some v => Ok v
    | None => Pending
    end.

(** The adapter functions, as entries of a call log. *)
Inductive Method := Whisper | SpeechRecognition.

(** What [typeof] answers for the globals [isWhisperSupported] looks at.
    [WebAssembly.instantiate] and [URL.createObjectURL] are read only when
    the test on their object has passed. *)
Record Globals := mkGlobals {
  typeof_WebAssembly : string;
  typeof_WebAssembly_instantiate : string;
  typeof_ArrayBuffer : string;
  typeof_Uint8Array : string;
  typeof_Blob : string;
  typeof_URL : string;
  typeof_URL_createObjectURL : string
}.

(** [isWhisperSupported()]. *)
Definition isWhisperSupported (w : Window) (g : Globals) : bool :=
  match w with
  | NoWindow => false
  | Page _ =>
      let hasRequiredFeatures :=
        String.eqb (typeof_WebAssembly g) "object" &&
        String.eqb (typeof_WebAssembly_instantiate g) "function" &&
        String.eqb (typeof_ArrayBuffer g) "function" &&
        String.eqb (typeof_Uint8Array g) "function" &&
        String.eqb (typeof_Blob g) "function" &&
        String.eqb (typeof_URL g) "object" &&
        String.eqb (typeof_URL_createObjectURL g) "function" in
      hasRequiredFeatures
  end.

End ClientTranscription.

(** ** Component state *)

(** An [<audio>]/[<video>] element used for playback.  [playCalls] and
    [pauseCalls] count the [play()] and [pause()] requests the element has
    received; [el_currentTime] and [el_volume] hold the values last
    assigned by the component. *)
Record MediaElement := mkElement {
  paused : bool;
  el_currentTime : Q;
  el_volume : Q;
  el_src : option nat;
  playCalls : nat;
  pauseCalls : nat
}.

Definition el_play (e : MediaElement) : MediaElement :=
  mkElement false (el_currentTime e) (el_volume e) (el_src e) (S (playCalls e)) (pauseCalls e).

Definition el_pause (e : MediaElement) : MediaElement :=
  mkElement true (el_currentTime e) (el_volume e) (el_src e) (playCalls e) (S (pauseCalls e)).

Definition el_set_currentTime (t : Q) (e : MediaElement) : MediaElement :=
  mkElement (paused e) t (el_volume e) (el_src e) (playCalls e) (pauseCalls e).

(** [element.volume = v].  The platform stores a volume between 0 and 1 and
    throws [IndexSizeError] on any other value; the volume slider ranges
    over [0, 1], and what is proved about the volume is proved for levels
    in that range. *)
Definition el_set_volume (v : Q) (e : MediaElement) : MediaElement :=
  mkElement (paused e) (el_currentTime e) v (el_src e) (playCalls e) (pauseCalls e).

Definition el_set_src (u : nat) (e : MediaElement) : MediaElement :=
  mkElement (paused e) (el_currentTime e) (el_volume e) (Some u) (playCalls e) (pauseCalls e).

(** A freshly mounted element. *)
Definition new_element : MediaElement := mkElement true 0 1 None 0 0.

(** The platform recording primitive ([window.MediaRecorder]). *)
Inductive RecorderState := inactive | recording.

Record PlatformRecorder := mkRecorder {
  rec_state : RecorderState;
  rec_mimeType : string
}.

(** One call of the [onRecordingComplete] callback. *)
Record Completion := mkCompletion {
  c_blob : Blob;
  c_type : option MediaType;
  c_transcription : option string
}.

(** The state of a recorder component: playback state and refs, capture
    state and refs, derived state, and the browser resources it holds.
    [AudioRecorder] and [WebcamRecorder] use a subset of the cells of
    [MediaRecorder]. *)
Record Playback := mkPlayback {
  isPlaying : bool;
  currentTime : Q;
  duration : Q;
  volume : Q;
  isMuted : bool;
  previousVolume : Q;
  isMediaLoaded : bool;
  isPlaybackInProgress : bool;
  mediaRef : option MediaElement;
  playbackTimerRef : option nat
}.

Record Capture := mkCapture {
  mediaType : MediaType;
  isRecording : bool;
  recordedBlob : option Blob;
  recordingTime : nat;
  error : option string;
  mediaUrl : option nat;
  isLoading : bool;
  isMediaRecorderSupported : bool;
  mediaRecorderRef : option PlatformRecorder;
  streamRef : option nat;
  timerRef : option nat;
  chunksRef : list Blob
}.

Record Derived := mkDerived {
  transcribedText : option string;
  isTranscribing : bool;
  transcriptionProgress : Q;
  isWhisperSupportedState : bool;
  uploadProgress : Q;
  uploadError : option string;
  analysisMetrics : AnalysisSample
}.

Record Browser := mkBrowser {
  timers : gset nat;
  nextTimer : nat;
  liveStreams : gset nat;
  nextStream : nat;
  objectUrls : gset nat;
  nextUrl : nat;
  startTimeouts : nat;
  analysisTimeouts : nat;
  completed : list Completion;
  emitted : list AnalysisSample;
  whisper : ClientTranscription.ModuleState;
  adapterCalls : list ClientTranscription.Method
}.

Record State := mkState { pb : Playback; cap : Capture; drv : Derived; env : Browser }.

Definition on_pb (f : Playback -> Playback) (s : State) : State :=
  mkState (f (pb s)) (cap s) (drv s) (env s).

Definition on_cap (f : Capture -> Capture) (s : State) : State :=
  mkState (pb s) (f (cap s)) (drv s) (env s).

Definition on_drv (f : Derived -> Derived) (s : State) : State :=
  mkState (pb s) (cap s) (f (drv s)) (env s).

Definition on_env (f : Browser -> Browser) (s : State) : State :=
  mkState (pb s) (cap s) (drv s) (f (env s)).

Definition setIsPlaying (v : bool) : State -> State :=
  on_pb (fun x => mkPlayback v (currentTime x) (duration x) (volume x) (isMuted x)
    (previousVolume x) (isMediaLoaded x) (isPlaybackInProgress x) (mediaRef x)
    (playbackTimerRef x)).
Definition setCurrentTime (v : Q) : State -> State :=
  on_pb (fun x => mkPlayback (isPlaying x) v (duration x) (volume x) (isMuted x)
    (previousVolume x) (isMediaLoaded x) (isPlaybackInProgress x) (mediaRef x)
    (playbackTimerRef x)).
Definition setDuration (v : Q) : State -> State :=
  on_pb (fun x => mkPlayback (isPlaying x) (currentTime x) v (volume x) (isMuted x)
    (previousVolume x) (isMediaLoaded x) (isPlaybackInProgress x) (mediaRef x)
    (playbackTimerRef x)).
Definition setVolume (v : Q) : State -> State :=
  on_pb (fun x => mkPlayback (isPlaying x) (currentTime x) (duration x) v (isMuted x)
    (previousVolume x) (isMediaLoaded x) (isPlaybackInProgress x) (mediaRef x)
    (playbackTimerRef x)).
Definition setIsMuted (v : bool) : State -> State :=
  on_pb (fun x => mkPlayback (isPlaying x) (currentTime x) (duration x) (volume x) v
    (previousVolume x) (isMediaLoaded x) (isPlaybackInProgress x) (mediaRef x)
    (playbackTimerRef x)).
Definition setPreviousVolume (v : Q) : State -> State :=
  on_pb (fun x => mkPlayback (isPlaying x) (currentTime x) (duration x) (volume x) (isMuted
    x) v (isMediaLoaded x) (isPlaybackInProgress x) (mediaRef x) (playbackTimerRef x)).
Definition setIsMediaLoaded (v : bool) : State -> State :=
  on_pb (fun x => mkPlayback (isPlaying x) (currentTime x) (duration x) (volume x) (isMuted
    x) (previousVolume x) v (isPlaybackInProgress x) (mediaRef x) (playbackTimerRef x)).
Definition setIsPlaybackInProgress (v : bool) : State -> State :=
  on_pb (fun x => mkPlayback (isPlaying x) (currentTime x) (duration x) (volume x) (isMuted
    x) (previousVolume x) (isMediaLoaded x) v (mediaRef x) (playbackTimerRef x)).
Definition setMediaRef (v : option MediaElement) : State -> State :=
  on_pb (fun x => mkPlayback (isPlaying x) (currentTime x) (duration x) (volume x) (isMuted
    x) (previousVolume x) (isMediaLoaded x) (isPlaybackInProgress x) v (playbackTimerRef
    x)).
Definition setPlaybackTimerRef (v : option nat) : State -> State :=
  on_pb (fun x => mkPlayback (isPlaying x) (currentTime x) (duration x) (volume x) (isMuted
    x) (previousVolume x) (isMediaLoaded x) (isPlaybackInProgress x) (mediaRef x) v).

Definition setMediaType (v : MediaType) : State -> State :=
  on_cap (fun x => mkCapture v (isRecording x) (recordedBlob x) (recordingTime x) (error x)
    (mediaUrl x) (isLoading x) (isMediaRecorderSupported x) (mediaRecorderRef x) (streamRef
    x) (timerRef x) (chunksRef x)).
Definition setIsRecording (v : bool) : State -> State :=
  on_cap (fun x => mkCapture (mediaType x) v (recordedBlob x) (recordingTime x) (error x)
    (mediaUrl x) (isLoading x) (isMediaRecorderSupported x) (mediaRecorderRef x) (streamRef
    x) (timerRef x) (chunksRef x)).
Definition setRecordedBlob (v : option Blob) : State -> State :=
  on_cap (fun x => mkCapture (mediaType x) (isRecording x) v (recordingTime x) (error x)
    (mediaUrl x) (isLoading x) (isMediaRecorderSupported x) (mediaRecorderRef x) (streamRef
    x) (timerRef x) (chunksRef x)).
Definition setRecordingTime (v : nat) : State -> State :=
  on_cap (fun x => mkCapture (mediaType x) (isRecording x) (recordedBlob x) v (error x)
    (mediaUrl x) (isLoading x) (isMediaRecorderSupported x) (mediaRecorderRef x) (streamRef
    x) (timerRef x) (chunksRef x)).
Definition setError (v : option string) : State -> State :=
  on_cap (fun x => mkCapture (mediaType x) (isRecording x) (recordedBlob x) (recordingTime
    x) v (mediaUrl x) (isLoading x) (isMediaRecorderSupported x) (mediaRecorderRef x)
    (streamRef x) (timerRef x) (chunksRef x)).
Definition setMediaUrl (v : option nat) : State -> State :=
  on_cap (fun x => mkCapture (mediaType x) (isRecording x) (recordedBlob x) (recordingTime
    x) (error x) v (isLoading x) (isMediaRecorderSupported x) (mediaRecorderRef x)
    (streamRef x) (timerRef x) (chunksRef x)).
Definition setIsLoading (v : bool) : State -> State :=
  on_cap (fun x => mkCapture (mediaType x) (isRecording x) (recordedBlob x) (recordingTime
    x) (error x) (mediaUrl x) v (isMediaRecorderSupported x) (mediaRecorderRef x) (streamRef
    x) (timerRef x) (chunksRef x)).
Definition setIsMediaRecorderSupported (v : bool) : State -> State :=
  on_cap (fun x => mkCapture (mediaType x) (isRecording x) (recordedBlob x) (recordingTime
    x) (error x) (mediaUrl x) (isLoading x) v (mediaRecorderRef x) (streamRef x) (timerRef
    x) (chunksRef x)).
Definition setMediaRecorderRef (v : option PlatformRecorder) : State -> State :=
  on_cap (fun x => mkCapture (mediaType x) (isRecording x) (recordedBlob x) (recordingTime
    x) (error x) (mediaUrl x) (isLoading x) (isMediaRecorderSupported x) v (streamRef x)
    (timerRef x) (chunksRef x)).
Definition setStreamRef (v : option nat) : State -> State :=
  on_cap (fun x => mkCapture (mediaType x) (isRecording x) (recordedBlob x) (recordingTime
    x) (error x) (mediaUrl x) (isLoading x) (isMediaRecorderSupported x) (mediaRecorderRef
    x) v (timerRef x) (chunksRef x)).
Definition setTimerRef (v : option nat) : State -> State :=
  on_cap (fun x => mkCapture (mediaType x) (isRecording x) (recordedBlob x) (recordingTime
    x) (error x) (mediaUrl x) (isLoading x) (isMediaRecorderSupported x) (mediaRecorderRef
    x) (streamRef x) v (chunksRef x)).
Definition setChunksRef (v : list Blob) : State -> State :=
  on_cap (fun x => mkCapture (mediaType x) (isRecording x) (recordedBlob x) (recordingTime
    x) (error x) (mediaUrl x) (isLoading x) (isMediaRecorderSupported x) (mediaRecorderRef
    x) (streamRef x) (timerRef x) v).

Definition setTranscribedText (v : option string) : State -> State :=
  on_drv (fun x => mkDerived v (isTranscribing x) (transcriptionProgress x)
    (isWhisperSupportedState x) (uploadProgress x) (uploadError x) (analysisMetrics x)).
Definition setIsTranscribing (v : bool) : State -> State :=
  on_drv (fun x => mkDerived (transcribedText x) v (transcriptionProgress x)
    (isWhisperSupportedState x) (uploadProgress x) (uploadError x) (analysisMetrics x)).
Definition setTranscriptionProgress (v : Q) : State -> State :=
  on_drv (fun x => mkDerived (transcribedText x) (isTranscribing x) v
    (isWhisperSupportedState x) (uploadProgress x) (uploadError x) (analysisMetrics x)).
Definition setIsWhisperSupportedState (v : bool) : State -> State :=
  on_drv (fun x => mkDerived (transcribedText x) (isTranscribing x) (transcriptionProgress
    x) v (uploadProgress x) (uploadError x) (analysisMetrics x)).
Definition setUploadProgress (v : Q) : State -> State :=
  on_drv (fun x => mkDerived (transcribedText x) (isTranscribing x) (transcriptionProgress
    x) (isWhisperSupportedState x) v (uploadError x) (analysisMetrics x)).
Definition setUploadError (v : option string) : State -> State :=
  on_drv (fun x => mkDerived (transcribedText x) (isTranscribing x) (transcriptionProgress
    x) (isWhisperSupportedState x) (uploadProgress x) v (analysisMetrics x)).
Definition setAnalysisMetrics (v : AnalysisSample) : State -> State :=
  on_drv (fun x => mkDerived (transcribedText x) (isTranscribing x) (transcriptionProgress
    x) (isWhisperSupportedState x) (uploadProgress x) (uploadError x) v).

Definition setTimers (v : gset nat) : State -> State :=
  on_env (fun x => mkBrowser v (nextTimer x) (liveStreams x) (nextStream x) (objectUrls x)
    (nextUrl x) (startTimeouts x) (analysisTimeouts x) (completed x) (emitted x) (whisper x)
    (adapterCalls x)).
Definition setNextTimer (v : nat) : State -> State :=
  on_env (fun x => mkBrowser (timers x) v (liveStreams x) (nextStream x) (objectUrls x)
    (nextUrl x) (startTimeouts x) (analysisTimeouts x) (completed x) (emitted x) (whisper x)
    (adapterCalls x)).
Definition setLiveStreams (v : gset nat) : State -> State :=
  on_env (fun x => mkBrowser (timers x) (nextTimer x) v (nextStream x) (objectUrls x)
    (nextUrl x) (startTimeouts x) (analysisTimeouts x) (completed x) (emitted x) (whisper x)
    (adapterCalls x)).
Definition setNextStream (v : nat) : State -> State :=
  on_env (fun x => mkBrowser (timers x) (nextTimer x) (liveStreams x) v (objectUrls x)
    (nextUrl x) (startTimeouts x) (analysisTimeouts x) (completed x) (emitted x) (whisper x)
    (adapterCalls x)).
Definition setObjectUrls (v : gset nat) : State -> State :=
  on_env (fun x => mkBrowser (timers x) (nextTimer x) (liveStreams x) (nextStream x) v
    (nextUrl x) (startTimeouts x) (analysisTimeouts x) (completed x) (emitted x) (whisper x)
    (adapterCalls x)).
Definition setNextUrl (v : nat) : State -> State :=
  on_env (fun x => mkBrowser (timers x) (nextTimer x) (liveStreams x) (nextStream x)
    (objectUrls x) v (startTimeouts x) (analysisTimeouts x) (completed x) (emitted x)
    (whisper x) (adapterCalls x)).
Definition setStartTimeouts (v : nat) : State -> State :=
  on_env (fun x => mkBrowser (timers x) (nextTimer x) (liveStreams x) (nextStream x)
    (objectUrls x) (nextUrl x) v (analysisTimeouts x) (completed x) (emitted x) (whisper x)
    (adapterCalls x)).
Definition setAnalysisTimeouts (v : nat) : State -> State :=
  on_env (fun x => mkBrowser (timers x) (nextTimer x) (liveStreams x) (nextStream x)
    (objectUrls x) (nextUrl x) (startTimeouts x) v (completed x) (emitted x) (whisper x)
    (adapterCalls x)).
Definition setCompleted (v : list Completion) : State -> State :=
  on_env (fun x => mkBrowser (timers x) (nextTimer x) (liveStreams x) (nextStream x)
    (objectUrls x) (nextUrl x) (startTimeouts x) (analysisTimeouts x) v (emitted x) (whisper
    x) (adapterCalls x)).
Definition setEmitted (v : list AnalysisSample) : State -> State :=
  on_env (fun x => mkBrowser (timers x) (nextTimer x) (liveStreams x) (nextStream x)
    (objectUrls x) (nextUrl x) (startTimeouts x) (analysisTimeouts x) (completed x) v
    (whisper x) (adapterCalls x)).
Definition setWhisper (v : ClientTranscription.ModuleState) : State -> State :=
  on_env (fun x => mkBrowser (timers x) (nextTimer x) (liveStreams x) (nextStream x)
    (objectUrls x) (nextUrl x) (startTimeouts x) (analysisTimeouts x) (completed x) (emitted
    x) v (adapterCalls x)).
Definition setAdapterCalls (v : list ClientTranscription.Method) : State -> State :=
  on_env (fun x => mkBrowser (timers x) (nextTimer x) (liveStreams x) (nextStream x)
    (objectUrls x) (nextUrl x) (startTimeouts x) (analysisTimeouts x) (completed x) (emitted
    x) (whisper x) v).
(** The state a component is mounted with. *)
Definition initialState (defaultType : MediaType) : State :=
  mkState
    (mkPlayback false 0 0 0.5 false 0.5 false false None None)
    (mkCapture defaultType false None 0 None None false true None None None [])
    (mkDerived None false 0 true 0 None zeroSample)
    (mkBrowser ∅ 0 ∅ 0 ∅ 0 0 0 [] [] ClientTranscription.initial []).

(** *** Browser primitives *)

Definition setInterval (s : State) : nat * State :=
  let t := nextTimer (env s) in
  (t, setNextTimer (S t) (setTimers ({[t]} ∪ timers (env s)) s)).

Definition clearInterval (t : nat) (s : State) : State :=
  setTimers (timers (env s) ∖ {[t]}) s.

(** The outcome of [navigator.mediaDevices.getUserMedia]. *)
Inductive Acquire :=
| Granted
| Denied (name message : string).

(** A granted stream, with live tracks. *)
Definition openStream (s : State) : nat * State :=
  let i := nextStream (env s) in
  (i, setNextStream (S i) (setLiveStreams ({[i]} ∪ liveStreams (env s)) s)).

(** [stream.getTracks().forEach(track => track.stop())]. *)
Definition stopTracks (i : nat) (s : State) : State :=
  setLiveStreams (liveStreams (env s) ∖ {[i]}) s.

Definition createObjectURL (s : State) : nat * State :=
  let u := nextUrl (env s) in
  (u, setNextUrl (S u) (setObjectUrls ({[u]} ∪ objectUrls (env s)) s)).

Definition revokeObjectURL (u : nat) (s : State) : State :=
  setObjectUrls (objectUrls (env s) ∖ {[u]}) s.

Definition onRecordingComplete (c : Completion) (s : State) : State :=
  setCompleted (completed (env s) ++ [c]) s.

Definition onAnalysisUpdate (m : AnalysisSample) (s : State) : State :=
  setEmitted (emitted (env s) ++ [m]) s.

(** Update of the mounted playback element, if any. *)
Definition withElement (f : MediaElement -> MediaElement) (s : State) : State :=
  setMediaRef (option_map f (mediaRef (pb s))) s.

(** The interval callback of the recording clock:
    [setRecordingTime((prev) => prev + 1)]. *)
Definition tick (s : State) : State :=
  setRecordingTime (S (recordingTime (cap s))) s.

(** *** Seek, volume and mute

    [handleSliderChange], [handleVolumeChange] and [toggleMute] are the same
    function in [MediaRecorder], [AudioRecorder] and [WebcamRecorder], up to
    the name of the ref to the playback element ([mediaRef], [audioRef],
    [playbackVideoRef]).  Their argument is [value[0]] of the one-element
    array the slider passes. *)

Definition handleSliderChange (value0 : Q) (s : State) : State :=
  match mediaRef (pb s) with
  | Some _ => setCurrentTime value0 (withElement (el_set_currentTime value0) s)
  | None => s
  end.

Definition handleVolumeChange (value0 : Q) (s : State) : State :=
  let newVolume := value0 in
  let s := setVolume newVolume s in
  let s := withElement (el_set_volume newVolume) s in
  if Qgtb newVolume 0 then setIsMuted false s else s.

Definition toggleMute (s : State) : State :=
  match mediaRef (pb s) with
  | Some _ =>
      if isMuted (pb s) then
        let s := withElement (el_set_volume (previousVolume (pb s))) s in
        let s := setVolume (previousVolume (pb s)) s in
        setIsMuted false s
      else
        let s := setPreviousVolume (volume (pb s)) s in
        let s := withElement (el_set_volume 0) s in
        let s := setVolume 0 s in
        setIsMuted true s
  | None => s
  end.

(** The volume the listener hears: the volume of the playback element. *)
Definition effectiveVolume (s : State) : option Q :=
  option_map el_volume (mediaRef (pb s)).

(** What the platform decides during a call: the answer to the permission
    prompt, the value of [Math.random()], which MIME types
    [MediaRecorder.isTypeSupported] accepts and whether the
    [MediaRecorder] constructor throws (and with which message). *)
Record Host := mkHost {
  acquire : Acquire;
  random : Q;
  isTypeSupported : string -> bool;
  constructorError : option string
}.

(** What the platform decides during a transcription. *)
Record TranscriptionEnv := mkTranscriptionEnv {
  t_window : ClientTranscription.Window;
  t_script : option ClientTranscription.ScriptEvent;
  t_run : ClientTranscription.PipelineRun;
  t_speech : ClientTranscription.SpeechApi
}.

(** The playback element is rendered when a recording exists and none is in
    progress; its ref is [null] otherwise. *)
Definition render (s : State) : State :=
  if negb (isRecording (cap s)) && bool_decide (is_Some (recordedBlob (cap s))) then
    match mediaRef (pb s) with
    | Some _ => s
    | None => setMediaRef (Some new_element) s
    end
  else setMediaRef None s.

(** The state as the render a closure was created in has committed it.  A
    handler reads the [useState] cells from the render it belongs to and
    the refs and the browser from the current state; what it sets goes to
    the current state. *)
Definition Render := State.

(** An event handled by the closure of the latest render. *)
Definition event {A} (handler : Render -> State -> A) (s : State) : A :=
  handler s s.

(** A continuation of [togglePlayback], suspended on an [await]. *)
Inductive Await :=
| AwaitPauseDelay   (** [await new Promise(r => setTimeout(r, 50))] *)
| AwaitLoadDelay    (** [await new Promise(r => setTimeout(r, 300))] *)
| AwaitPlay.        (** [await mediaRef.current.play()] *)

(** ** The [MediaRecorder] component *)

Module MediaRecorder.

Definition clearTimers (s : State) : State :=
  let s := match timerRef (cap s) with
           | Some t => setTimerRef None (clearInterval t s)
           | None => s
           end in
  match playbackTimerRef (pb s) with
  | Some t => setPlaybackTimerRef None (clearInterval t s)
  | None => s
  end.

Definition revokeMediaUrl (r : Render) (s : State) : State :=
  match mediaUrl (cap r) with
  | Some u => setMediaUrl None (revokeObjectURL u s)
  | None => s
  end.

Definition stopMediaTracks (s : State) : State :=
  match streamRef (cap s) with
  | Some i => setStreamRef None (stopTracks i s)
  | None => s
  end.

(** [recorder.stop()] throws on a recorder that is not recording. *)
Definition stopRecording (r : Render) (s : State) : State :=
  match mediaRecorderRef (cap s) with
  | Some rec =>
      if isRecording (cap r) then
        match rec_state rec with
        | recording =>
            let s := setMediaRecorderRef (Some (mkRecorder inactive (rec_mimeType rec))) s in
            let s := setIsRecording false s in
            clearTimers s
        | inactive =>
            setError (Some "Failed to stop recording. Please refresh the page and try again.") s
        end
      else s
  | None => s
  end.

(** The [newMetrics] object of [updateAnalysis]; [rnd] is the value of
    [Math.random()]. *)
Definition newMetrics (mt : MediaType) (recordingTime : nat) (rnd : Q) : AnalysisSample :=
  let randomFactor := (rnd * 0.1)%Q in
  let timeBasedFactor := Qmin (seconds recordingTime / 30) 1 in
  mkSample
    (Qmin (60 + seconds recordingTime * 1.5 + randomFactor * 20) 100)
    (Qmin (50 + timeBasedFactor * 40 + randomFactor * 10) 100)
    (Qmin (70 + timeBasedFactor * 20 + randomFactor * 10) 100)
    (Qmin (40 + timeBasedFactor * 50 + randomFactor * 10) 100)
    (match mt with
     | video => Qmin (60 + timeBasedFactor * 30 + randomFactor * 10) 100
     | audio => 0
     end)
    (match mt with
     | video => Qmin (70 + timeBasedFactor * 20 + randomFactor * 10) 100
     | audio => 0
     end).

Definition updateAnalysis (rnd : Q) (r : Render) (s : State) : State :=
  if negb (isRecording (cap r)) then s
  else
    let m := newMetrics (mediaType (cap r)) (recordingTime (cap r)) rnd in
    let s := setAnalysisMetrics m s in
    let s := onAnalysisUpdate m s in
    if isRecording (cap r) then setAnalysisTimeouts (S (analysisTimeouts (env s))) s
    else s.

Definition startAnalysisSimulation (rnd : Q) (r : Render) (s : State) : State :=
  updateAnalysis rnd r s.

(** A [setTimeout(updateAnalysis, 1000)] scheduled by the closure of render
    [r] fires. *)
Definition analysisTimeout (rnd : Q) (r : Render) (s : State) : State :=
  match analysisTimeouts (env s) with
  | O => s
  | S n => updateAnalysis rnd r (setAnalysisTimeouts n s)
  end.

(** The preview element ([videoRef]) is not modelled. *)
Definition startMediaStream (a : Acquire) (rnd : Q) (r : Render) (s : State) : State :=
  let s := setError None s in
  let s := setIsLoading true s in
  match a with
  | Granted =>
      let '(stream, s) := openStream s in
      let s := setStreamRef (Some stream) s in
      let s := startAnalysisSimulation rnd r s in
      setIsLoading false s
  | Denied name message =>
      let s :=
        setError
          (Some ("Failed to access " +:+ mediaType_str (mediaType (cap r)) +:+ ". " +:+
                 (if String.eqb name "NotAllowedError"
                  then "Please grant permission to use your microphone/camera."
                  else or_else message "Please check your device settings."))) s in
      setIsLoading false s
  end.

Definition audioTypes : list string :=
  ["audio/webm;codecs=opus"; "audio/webm"; "audio/mp4"; "audio/ogg;codecs=opus";
   "audio/ogg"; "audio/wav"].

Definition videoTypes : list string :=
  ["video/webm;codecs=vp9,opus"; "video/webm;codecs=vp8,opus"; "video/webm";
   "video/mp4"; "video/webm;codecs=h264"].

Definition getBestMimeType (h : Host) (isAudio : bool) : string :=
  if isAudio then default "audio/webm" (List.find (isTypeSupported h) audioTypes)
  else default "video/webm" (List.find (isTypeSupported h) videoTypes).

Definition startRecording (h : Host) (r : Render) (s : State) : State :=
  if negb (isMediaRecorderSupported (cap r)) then
    setError
      (Some "Your browser doesn't support MediaRecorder. Please try using Chrome, Firefox, or Edge.")
      s
  else
    match streamRef (cap s) with
    | None =>
        let s := startMediaStream (acquire h) (random h) r s in
        match streamRef (cap s) with
        | Some _ => setStartTimeouts (S (startTimeouts (env s))) s
        | None => s
        end
    | Some _ =>
        let s := setChunksRef [] s in
        let mimeType := getBestMimeType h (MediaType_eqb (mediaType (cap r)) audio) in
        match constructorError h with
        | Some message =>
            setError
              (Some (or_else message
                       ("Failed to start " +:+ mediaType_str (mediaType (cap r)) +:+
                        " recording. Please try again."))) s
        | None =>
            let s := setMediaRecorderRef (Some (mkRecorder recording mimeType)) s in
            let s := setIsRecording true s in
            let s := setRecordingTime 0 s in
            let '(t, s) := setInterval s in
            setTimerRef (Some t) s
        end
    end.

(** A [setTimeout(startRecording, 500)] scheduled by the closure of render
    [r] fires. *)
Definition startTimeout (r : Render) (h : Host) (s : State) : State :=
  match startTimeouts (env s) with
  | O => s
  | S n => startRecording h r (setStartTimeouts n s)
  end.

(** [mediaRecorder.ondataavailable]; [data] is [e.data]. *)
Definition ondataavailable (data : option Blob) (s : State) : State :=
  match data with
  | Some b =>
      if (0 <? blob_size b)%nat then setChunksRef (chunksRef (cap s) ++ [b]) s else s
  | None => s
  end.

Definition performTranscription (e : TranscriptionEnv) (r : Render) (s : State)
    : Result string * State :=
  let s := setIsTranscribing true s in
  let s := setTranscribedText (Some "Transcribing your audio...") s in
  let s := setTranscriptionProgress 0 s in
  let '(transcription, s) :=
    if isWhisperSupportedState (drv r) then
      let s := setAdapterCalls (adapterCalls (env s) ++ [ClientTranscription.Whisper]) s in
      let '(result, m) :=
        ClientTranscription.transcribeAudioClient
          (t_window e) (t_script e) (t_run e) (whisper (env s)) in
      let s := setWhisper m s in
      match result with
      | Throw whisperError =>
          (ClientTranscription.transcribeAudioFallback (t_speech e),
           setAdapterCalls
             (adapterCalls (env s) ++ [ClientTranscription.SpeechRecognition]) s)
      | _ => (result, s)
      end
    else
      (ClientTranscription.transcribeAudioFallback (t_speech e),
       setAdapterCalls (adapterCalls (env s) ++ [ClientTranscription.SpeechRecognition]) s) in
  let finally (s : State) := setTranscriptionProgress 100 (setIsTranscribing false s) in
  match transcription with
  | Ok text => (Ok text, finally (setTranscribedText (Some text) s))
  | Throw _ =>
      let fallbackText := ClientTranscription.failureText in
      (Ok fallbackText, finally (setTranscribedText (Some fallbackText) s))
  | Pending => (Pending, s)
  end.

(** [mediaRecorder.onstop], a closure of the render [r] that
    [startRecording] ran in; [mimeType] is the type it closed over there. *)
Definition onstop (mimeType : string) (e : TranscriptionEnv) (r : Render) (s : State)
    : State :=
  match chunksRef (cap s) with
  | [] =>
      setError
        (Some ("No " +:+ mediaType_str (mediaType (cap r)) +:+
               " data was recorded. Please try again.")) s
  | _ =>
      let blob := new_Blob (chunksRef (cap s)) mimeType in
      if (blob_size blob =? 0)%nat then
        setError
          (Some ("Recorded " +:+ mediaType_str (mediaType (cap r)) +:+
                 " is empty. Please try again.")) s
      else
        let s := setRecordedBlob (Some blob) s in
        let s := revokeMediaUrl r s in
        let '(newMediaUrl, s) := createObjectURL s in
        let s := setMediaUrl (Some newMediaUrl) s in
        let s := withElement (el_set_src newMediaUrl) s in
        match mediaType (cap r) with
        | audio =>
            let '(result, s) := performTranscription e r s in
            match result with
            | Ok transcription =>
                onRecordingComplete (mkCompletion blob (Some audio) (Some transcription)) s
            | Throw _ => onRecordingComplete (mkCompletion blob (Some audio) None) s
            | Pending => s
            end
        | video => onRecordingComplete (mkCompletion blob (Some video) None) s
        end
  end.

(** The [loadedmetadata] and [ended] listeners of the playback element. *)
Definition handleLoadedMetadata (elementDuration : Q) (s : State) : State :=
  setIsMediaLoaded true (setDuration elementDuration s).

Definition handleEnded (s : State) : State :=
  let s := setIsPlaying false s in
  let s := setIsPlaybackInProgress false s in
  match playbackTimerRef (pb s) with
  | Some t => setPlaybackTimerRef None (clearInterval t s)
  | None => s
  end.

(** [mediaRef.current.play()], then suspend on the promise. *)
Definition requestPlay (s : State) : State * option Await :=
  (withElement el_play s, Some AwaitPlay).

(** The [finally] block of [togglePlayback]. *)
Definition finish (s : State) : State * option Await :=
  (setIsPlaybackInProgress false s, None).

(** [togglePlayback()] up to its first [await].  In the browsers the
    component runs in, [play()] returns a promise. *)
Definition togglePlayback (r : Render) (s : State) : State * option Await :=
  if isPlaybackInProgress (pb r) then (s, None)
  else
    match mediaRef (pb s), mediaUrl (cap r) with
    | Some _, Some _ =>
        let s := setIsPlaybackInProgress true s in
        if isPlaying (pb r) then
          (withElement el_pause s, Some AwaitPauseDelay)
        else if negb (isMediaLoaded (pb r)) then (s, Some AwaitLoadDelay)
        else requestPlay s
    | _, _ => (s, None)
    end.

(** The rest of [togglePlayback()] once the awaited promise has settled;
    [played] is the outcome of the promise of [play()]. *)
Definition resume (k : Await) (played : Result unit) (r : Render) (s : State)
    : State * option Await :=
  match k with
  | AwaitPauseDelay =>
      let s := setIsPlaying false s in
      let s := match playbackTimerRef (pb s) with
               | Some t => setPlaybackTimerRef None (clearInterval t s)
               | None => s
               end in
      finish s
  | AwaitLoadDelay =>
      match mediaRef (pb s) with
      | None =>
          finish
            (setError
               (Some "Error controlling playback: Media element no longer available") s)
      | Some _ => requestPlay s
      end
  | AwaitPlay =>
      match played with
      | Ok _ =>
          let s := setIsPlaying true s in
          let s := match playbackTimerRef (pb s) with
                   | Some t => clearInterval t s
                   | None => s
                   end in
          let '(t, s) := setInterval s in
          finish (setPlaybackTimerRef (Some t) s)
      | Throw message =>
          finish
            (setError
               (Some ("Error playing " +:+ mediaType_str (mediaType (cap r)) +:+ ": " +:+
                      message)) s)
      | Pending => (s, Some AwaitPlay)
      end
  end.

Definition resetRecording (h : Host) (r : Render) (s : State) : State :=
  let s := if isRecording (cap r) && bool_decide (is_Some (mediaRecorderRef (cap s)))
           then stopRecording r s else s in
  let s := match mediaRef (pb s) with
           | Some el => if negb (paused el) then withElement el_pause s else s
           | None => s
           end in
  let s := stopMediaTracks s in
  let s := clearTimers s in
  let s := revokeMediaUrl r s in
  let s := setRecordedBlob None s in
  let s := setRecordingTime 0 s in
  let s := setCurrentTime 0 s in
  let s := setDuration 0 s in
  let s := setIsPlaying false s in
  let s := setTranscribedText None s in
  let s := setTranscriptionProgress 0 s in
  let s := setIsMediaLoaded false s in
  let s := setIsPlaybackInProgress false s in
  let s := setUploadProgress 0 s in
  let s := setUploadError None s in
  let s := setAnalysisMetrics zeroSample s in
  startMediaStream (acquire h) (random h) r s.

(** The effect that checks the browser once the component has mounted.
    [typeof_MediaRecorder] is [typeof window.MediaRecorder].  Neither the
    tests nor [initWhisper()] throw, so the [catch] of the effect is not
    entered.  Returns the promise of [initWhisper()] that the [.catch]
    handler is attached to, if the load was started. *)
Definition checkCapabilities (w : ClientTranscription.Window)
    (g : ClientTranscription.Globals) (typeof_MediaRecorder : string) (s : State)
    : State * option nat :=
  match w with
  | ClientTranscription.NoWindow => (s, None)
  | ClientTranscription.Page _ =>
      let s :=
        setIsMediaRecorderSupported (negb (String.eqb typeof_MediaRecorder "undefined")) s in
      let s := setIsWhisperSupportedState (ClientTranscription.isWhisperSupported w g) s in
      if ClientTranscription.isWhisperSupported w g then
        let '(p, m) := ClientTranscription.initWhisper w (whisper (env s)) in
        (setWhisper m s, Some p)
      else (s, None)
  end.

(** The handler given to [initWhisper().catch(...)]: it runs once promise
    [p] has been rejected. *)
Definition whisperInitFailed (p : nat) (s : State) : State :=
  match ClientTranscription.await p (whisper (env s)) with
  | Throw _ => setIsWhisperSupportedState false s
  | _ => s
  end.

(** The cleanup of the effect that releases the resources on unmount.  The
    effect has no dependencies, so the cleanup is a closure of the render
    [r] the component was mounted with. *)
Definition cleanup (r : Render) (s : State) : State :=
  let s := stopMediaTracks s in
  let s := clearTimers s in
  revokeMediaUrl r s.

End MediaRecorder.

(** ** The [AudioRecorder] component

    The Web Audio graph ([audioContextRef], [analyzerRef]) that
    [startMicrophone] sets up on a granted stream is not modelled, and so
    is the call of [analyzeAudio()] that ends the set-up: its
    [updateAnalysis] returns at once unless the render that called
    [startMicrophone] is recording.  What is proved of a granted
    [startMicrophone] is proved for callers that are not recording. *)

Module AudioRecorder.

(** [startMicrophone()]; [a] is the answer to the prompt of
    [getUserMedia].  The Web Audio set-up on the granted path is left out,
    as said above. *)
Definition startMicrophone (a : Acquire) (s : State) : State :=
  let s := setError None s in
  match a with
  | Granted =>
      let '(stream, s) := openStream s in
      setStreamRef (Some stream) s
  | Denied name message =>
      setError
        (Some (or_else message
                 "Failed to access microphone. Please check your microphone permissions."))
        s
  end.

Definition stopMediaTracks (s : State) : State :=
  match streamRef (cap s) with
  | Some i => setStreamRef None (stopTracks i s)
  | None => s
  end.

Definition startRecording (h : Host) (s : State) : State :=
  match streamRef (cap s) with
  | None =>
      let s := startMicrophone (acquire h) s in
      setStartTimeouts (S (startTimeouts (env s))) s
  | Some _ =>
      let s := setChunksRef [] s in
      let mimeType :=
        if isTypeSupported h "audio/webm;codecs=opus" then "audio/webm;codecs=opus"
        else if isTypeSupported h "audio/mp4" then "audio/mp4"
        else "audio/webm" in
      match constructorError h with
      | Some message =>
          setError (Some (or_else message "Failed to start recording. Please try again.")) s
      | None =>
          let s := setMediaRecorderRef (Some (mkRecorder recording mimeType)) s in
          let s := setIsRecording true s in
          let s := setRecordingTime 0 s in
          let '(t, s) := setInterval s in
          setTimerRef (Some t) s
      end
  end.

(** A [setTimeout(() => startRecording(), 1000)] fires. *)
Definition startTimeout (h : Host) (s : State) : State :=
  match startTimeouts (env s) with
  | O => s
  | S n => startRecording h (setStartTimeouts n s)
  end.

Definition ondataavailable (data : option Blob) (s : State) : State :=
  match data with
  | Some b =>
      if (0 <? blob_size b)%nat then setChunksRef (chunksRef (cap s) ++ [b]) s else s
  | None => s
  end.

Definition onstop (mimeType : string) (r : Render) (s : State) : State :=
  match chunksRef (cap s) with
  | [] => setError (Some "No audio data was recorded. Please try again.") s
  | _ =>
      let blob := new_Blob (chunksRef (cap s)) mimeType in
      if (blob_size blob =? 0)%nat then
        setError (Some "Recorded audio is empty. Please try again.") s
      else
        let s := setRecordedBlob (Some blob) s in
        let s := onRecordingComplete (mkCompletion blob None None) s in
        let s := match mediaUrl (cap r) with
                 | Some u => revokeObjectURL u s
                 | None => s
                 end in
        let '(newAudioUrl, s) := createObjectURL s in
        let s := setMediaUrl (Some newAudioUrl) s in
        withElement (el_set_src newAudioUrl) s
  end.

Definition stopRecording (r : Render) (s : State) : State :=
  match mediaRecorderRef (cap s) with
  | Some rec =>
      if isRecording (cap r) then
        match rec_state rec with
        | recording =>
            let s := setMediaRecorderRef (Some (mkRecorder inactive (rec_mimeType rec))) s in
            let s := setIsRecording false s in
            let s := match timerRef (cap s) with
                     | Some t => clearInterval t s
                     | None => s
                     end in
            stopMediaTracks s
        | inactive =>
            setError (Some "Failed to stop recording. Please refresh the page and try again.") s
        end
      else s
  | None => s
  end.

(** The statements of [resetRecording()] before its last one, the call of
    [startMicrophone()]. *)
Definition discardRecording (r : Render) (s : State) : State :=
  let s := match mediaRef (pb s) with
           | Some el => if negb (paused el) then withElement el_pause s else s
           | None => s
           end in
  let s := match mediaUrl (cap r) with
           | Some u => setMediaUrl None (revokeObjectURL u s)
           | None => s
           end in
  let s := setRecordedBlob None s in
  let s := setRecordingTime 0 s in
  let s := setCurrentTime 0 s in
  let s := setDuration 0 s in
  let s := setIsPlaying false s in
  setAnalysisMetrics zeroSample s.

Definition resetRecording (h : Host) (r : Render) (s : State) : State :=
  startMicrophone (acquire h) (discardRecording r s).

(** [togglePlayback()] up to [await audioRef.current.play()]. *)
Definition togglePlayback (r : Render) (s : State) : State * option Await :=
  match mediaRef (pb s) with
  | None => (s, None)
  | Some _ =>
      if isPlaying (pb r) then
        let s := withElement el_pause s in
        let s := setIsPlaying false s in
        let s := match playbackTimerRef (pb s) with
                 | Some t => clearInterval t s
                 | None => s
                 end in
        (s, None)
      else (withElement el_play s, Some AwaitPlay)
  end.

Definition resume (played : Result unit) (s : State) : State * option Await :=
  match played with
  | Ok _ =>
      let s := setIsPlaying true s in
      let s := match playbackTimerRef (pb s) with
               | Some t => clearInterval t s
               | None => s
               end in
      let '(t, s) := setInterval s in
      (setPlaybackTimerRef (Some t) s, None)
  | Throw _ => (setIsPlaying false s, None)
  | Pending => (s, Some AwaitPlay)
  end.

Definition handleAudioEnded (s : State) : State :=
  let s := setIsPlaying false s in
  match playbackTimerRef (pb s) with
  | Some t => clearInterval t s
  | None => s
  end.

(** [normalizedVolume] of [updateAnalysis]: [dataArray] is the [Uint8Array]
    that [getByteFrequencyData] has filled, [bufferLength] its length
    ([frequencyBinCount], 1024 for the [fftSize] the component sets). *)
Definition normalizedVolume (dataArray : list Byte.byte) : Q :=
  let bufferLength := length dataArray in
  let sum :=
    fold_left (fun sum b => sum + inject_Z (Z.of_N (Byte.to_N b)))%Q dataArray 0%Q in
  let avgVolume := (sum / inject_Z (Z.of_nat bufferLength))%Q in
  Qmin (avgVolume / 128) 1.

(** The [newAnalysis] object of [updateAnalysis].  It has no
    [facialExpressions] and no [eyeContact]; they are 0 here, as in the
    object [resetRecording] stores. *)
Definition newAnalysis (normalizedVolume : Q) (recordingTime : nat) : AnalysisSample :=
  mkSample
    (normalizedVolume * 100)
    (Qmin (seconds recordingTime / 10 * 100) 100)
    (Qmin (normalizedVolume * 110) 100)
    (Qmin (normalizedVolume * 80 + seconds recordingTime / 30 * 20) 100)
    0 0.

(** The cleanup of the effect that depends on [audioUrl], a closure of the
    render [r] that installed it.  It runs when [audioUrl] has changed and
    on unmount. *)
Definition cleanupUrlEffect (r : Render) (s : State) : State :=
  let s := stopMediaTracks s in
  let s := match timerRef (cap s) with
           | Some t => clearInterval t s
           | None => s
           end in
  let s := match playbackTimerRef (pb s) with
           | Some t => clearInterval t s
           | None => s
           end in
  let s := match mediaUrl (cap r) with
           | Some u => revokeObjectURL u s
           | None => s
           end in
  match mediaRef (pb s) with
  | Some el => if negb (paused el) then withElement el_pause s else s
  | None => s
  end.


(** The cleanup of the mount effect, a closure of the first render [r]. *)
Definition cleanupMountEffect (r : Render) (s : State) : State :=
  let s := stopMediaTracks s in
  let s := match timerRef (cap s) with
           | Some t => clearInterval t s
           | None => s
           end in
  let s := match playbackTimerRef (pb s) with
           | Some t => clearInterval t s
           | None => s
           end in
  match mediaUrl (cap r) with
  | Some u => revokeObjectURL u s
  | None => s
  end.

(** Unmount: the ref to the playback element is detached, then the cleanups
    run in the order of their effects; [r] is the render that last
    installed the [audioUrl] effect, [r0] the first render. *)
Definition unmount (r r0 : Render) (s : State) : State :=
  cleanupMountEffect r0 (cleanupUrlEffect r (setMediaRef None s)).

End AudioRecorder.

(** ** The [WebcamRecorder] component

    As in [AudioRecorder], the Web Audio graph set up by [startCamera] is
    not modelled, nor is the preview element. *)

Module WebcamRecorder.

Definition startCamera (a : Acquire) (s : State) : State :=
let s := setError None s in
match a with
| Granted =>
    let '(stream, s) := openStream s in
    setStreamRef (Some stream) s
| Denied name message =>
    setError (Some (or_else message "Failed to access camera and microphone")) s
end.

Definition stopMediaTracks (s : State) : State :=
match streamRef (cap s) with
| Some i => setStreamRef None (stopTracks i s)
| None => s
end.

(** The [newAnalysis] object of [analyzeVideo]; [r1] to [r4] are the four
    values of [Math.random()], in evaluation order. *)
Definition newAnalysis (recordingTime : nat) (r1 r2 r3 r4 : Q) : AnalysisSample :=
  mkSample
    (Qmin (30 + r1 * 50) 100)
    (Qmin (seconds recordingTime / 15 * 100) 100)
    (Qmin (40 + r2 * 40) 100)
    (Qmin (50 + seconds recordingTime / 30 * 30) 100)
    (Qmin (40 + r3 * 40) 100)
    (Qmin (60 + r4 * 30) 100).

Definition analyzeVideo (r1 r2 r3 r4 : Q) (r : Render) (s : State) : State :=
  if negb (isRecording (cap r)) then s
  else
    let newAnalysis := newAnalysis (recordingTime (cap r)) r1 r2 r3 r4 in
    let s := setAnalysisMetrics newAnalysis s in
    let s := onAnalysisUpdate newAnalysis s in
    if isRecording (cap r) then setAnalysisTimeouts (S (analysisTimeouts (env s))) s
    else s.

(** [chunks] is a local array of [startRecording]; it is kept in the
    [chunksRef] cell. *)
Definition startRecording (h : Host) (r1 r2 r3 r4 : Q) (r : Render) (s : State) : State :=
match streamRef (cap s) with
| None =>
    let s := startCamera (acquire h) s in
    setStartTimeouts (S (startTimeouts (env s))) s
| Some _ =>
    match constructorError h with
    | Some message => setError (Some (or_else message "Failed to start recording")) s
    | None =>
        let s := setChunksRef [] s in
        let s := setMediaRecorderRef (Some (mkRecorder recording "video/webm")) s in
        let s := setIsRecording true s in
        let s := setRecordingTime 0 s in
        let '(t, s) := setInterval s in
        let s := setTimerRef (Some t) s in
        analyzeVideo r1 r2 r3 r4 r s
    end
end.

Definition ondataavailable (data : Blob) (s : State) : State :=
if (0 <? blob_size data)%nat then setChunksRef (chunksRef (cap s) ++ [data]) s else s.

Definition onstop (r : Render) (s : State) : State :=
let blob := new_Blob (chunksRef (cap s)) "video/webm" in
let s := setRecordedBlob (Some blob) s in
let s := onRecordingComplete (mkCompletion blob None None) s in
let s := match mediaUrl (cap r) with
         | Some u => revokeObjectURL u s
         | None => s
         end in
let '(newVideoUrl, s) := createObjectURL s in
let s := setMediaUrl (Some newVideoUrl) s in
withElement (el_set_src newVideoUrl) s.

(** [togglePlayback()] up to [await playbackVideoRef.current.play()]. *)
Definition togglePlayback (r : Render) (s : State) : State * option Await :=
  match mediaRef (pb s) with
  | None => (s, None)
  | Some _ =>
      if isPlaying (pb r) then
        let s := withElement el_pause s in
        let s := setIsPlaying false s in
        let s := match playbackTimerRef (pb s) with
                 | Some t => clearInterval t s
                 | None => s
                 end in
        (s, None)
      else (withElement el_play s, Some AwaitPlay)
  end.

Definition resume (played : Result unit) (s : State) : State * option Await :=
  match played with
  | Ok _ =>
      let s := setIsPlaying true s in
      let s := match playbackTimerRef (pb s) with
               | Some t => clearInterval t s
               | None => s
               end in
      let '(t, s) := setInterval s in
      (setPlaybackTimerRef (Some t) s, None)
  | Throw _ => (setIsPlaying false s, None)
  | Pending => (s, Some AwaitPlay)
  end.

(** [stopRecording()].  The call of [stop()] is not inside a [try]: on a
    recorder that is not recording the handler throws the platform's
    [InvalidStateError], before it has changed anything. *)
Definition stopRecording (r : Render) (s : State) : Result State :=
  match mediaRecorderRef (cap s) with
  | Some rec =>
      if isRecording (cap r) then
        match rec_state rec with
        | recording =>
            let s := setMediaRecorderRef (Some (mkRecorder inactive (rec_mimeType rec))) s in
            let s := setIsRecording false s in
            let s := match timerRef (cap s) with
                     | Some t => clearInterval t s
                     | None => s
                     end in
            Ok (stopMediaTracks s)
        | inactive => Throw "InvalidStateError"
        end
      else Ok s
  | None => Ok s
  end.

Definition resetRecording (h : Host) (r : Render) (s : State) : State :=
  let s := match mediaRef (pb s) with
           | Some el => if negb (paused el) then withElement el_pause s else s
           | None => s
           end in
  let s := match mediaUrl (cap r) with
           | Some u => setMediaUrl None (revokeObjectURL u s)
           | None => s
           end in
  let s := setRecordedBlob None s in
  let s := setRecordingTime 0 s in
  let s := setCurrentTime 0 s in
  let s := setDuration 0 s in
  let s := setIsPlaying false s in
  let s := setAnalysisMetrics zeroSample s in
  startCamera (acquire h) s.

Definition handleVideoEnded (s : State) : State :=
  let s := setIsPlaying false s in
  match playbackTimerRef (pb s) with
  | Some t => clearInterval t s
  | None => s
  end.

End WebcamRecorder.

(** ** The clock display

    [formatTime] is the same function in the three components.  It is
    called with the recording clock, the playback position and the duration,
    so its argument is a [number]; [NaN] and the infinities are outside the
    model. *)

(** [n.toString()] for an integer [n]. *)
Definition toString (n : Z) : string := NilZero.string_of_int (Z.to_int n).

(** [count] characters of [padString] repeated, starting inside it at
    [cur]. *)
Fixpoint repeatPad (count : nat) (padString cur : string) : string :=
  match count with
  | O => ""
  | S count' =>
      match cur with
      | String c cur' => String c (repeatPad count' padString cur')
      | EmptyString =>
          match padString with
          | String c pad' => String c (repeatPad count' padString pad')
          | EmptyString => ""
          end
      end
  end.

(** [s.padStart(targetLength, padString)]. *)
Definition padStart (targetLength : nat) (padString s : string) : string :=
  if (targetLength <=? String.length s)%nat || String.eqb padString "" then s
  else repeatPad (targetLength - String.length s) padString padString +:+ s.

(** [Math.trunc]: rounding towards zero. *)
Definition truncate (x : Q) : Z :=
  if Qle_bool 0 x then Qfloor x else Qceiling x.

(** [a % b] on numbers: the remainder has the sign of [a]. *)
Definition remainder (a b : Q) : Q := (a - b * inject_Z (truncate (a / b)))%Q.

Definition formatTime (seconds : Q) : string :=
  let mins := Qfloor (seconds / 60) in
  let secs := Qfloor (remainder seconds 60) in
  padStart 2 "0" (toString mins) +:+ ":" +:+ padStart 2 "0" (toString secs).

(** The character of a decimal digit. *)
Definition digit (d : nat) : Ascii.ascii := Ascii.ascii_of_nat (48 + d).

(** ** The analytics overview (components/analytics-overview)

    [fetchAnalytics] reads the interviews with their company, questions,
    responses and feedback and derives the numbers the cards show.  The two
    mock lists it adds ([skillsProgress], [recentActivity]) are constants
    and are left out. *)

Module AnalyticsOverview.

(** The rows of the query; a [null] column or relation is [None]. *)
Record Feedback := mkFeedback { confidence_score : option Q }.
Record Response := mkResponse { feedback : option (list Feedback) }.
Record Question := mkQuestion { responses : option (list Response) }.
Record Company := mkCompany { name : option string }.

Record Interview := mkInterview {
  status : option string;
  companies : option Company;
  questions : option (list Question)
}.

Record AnalyticsData := mkAnalytics {
  totalInterviews : nat;
  completedInterviews : nat;
  averageScore : Q;
  totalTimeSpent : nat;
  topCompanies : list (string * nat)
}.

(** [xs?.forEach(f)], as a fold over what the callback updates. *)
Definition forEach {A B} (xs : option (list A)) (f : B -> A -> B) (acc : B) : B :=
  match xs with
  | Some l => fold_left f l acc
  | None => acc
  end.

(** The innermost callback: [totalScore] and [scoreCount] after one
    feedback row.  A score of 0 is falsy. *)
Definition addFeedback (acc : Q * nat) (fb : Feedback) : Q * nat :=
  let '(totalScore, scoreCount) := acc in
  match confidence_score fb with
  | Some score =>
      if Qeq_bool score 0 then acc else ((totalScore + score * 100)%Q, S scoreCount)
  | None => acc
  end.

Definition scoreTotals (interviews : list Interview) : Q * nat :=
  fold_left
    (fun acc interview =>
       forEach (questions interview)
         (fun acc question =>
            forEach (responses question)
              (fun acc response => forEach (feedback response) addFeedback acc)
              acc)
         acc)
    interviews (0%Q, 0).

(** [companyCount[name] = (companyCount[name] || 0) + 1] on the own
    properties of [companyCount], kept in the order they were created.
    The names are assumed not to be names of properties that the object
    inherits ([inheritedKeys]); for those the right-hand side reads the
    inherited value. *)
Fixpoint increment (key : string) (companyCount : list (string * nat))
    : list (string * nat) :=
  match companyCount with
  | [] => [(key, 1)]
  | (k, count) :: rest =>
      if String.eqb k key then (k, S count) :: rest
      else (k, count) :: increment key rest
  end.

Definition inheritedKeys : list string :=
  ["constructor"; "hasOwnProperty"; "isPrototypeOf"; "propertyIsEnumerable";
   "toLocaleString"; "toString"; "valueOf"; "__proto__"; "__defineGetter__";
   "__defineSetter__"; "__lookupGetter__"; "__lookupSetter__"].

(** [interview.companies?.name] when it is truthy. *)
Definition companyName (interview : Interview) : option string :=
  match companies interview with
  | Some company =>
      match name company with
      | Some n => if String.eqb n "" then None else Some n
      | None => None
      end
  | None => None
  end.

Definition countCompanies (interviews : list Interview) : list (string * nat) :=
  fold_left
    (fun companyCount interview =>
       match companyName interview with
       | Some n => increment n companyCount
       | None => companyCount
       end)
    interviews [].

(** The value of a string of decimal digits. *)
Fixpoint decimalValue (s : string) (acc : N) : option N :=
  match s with
  | EmptyString => Some acc
  | String c s' =>
      let code := Ascii.N_of_ascii c in
      if (48 <=? code)%N && (code <=? 57)%N
      then decimalValue s' (10 * acc + (code - 48))%N
      else None
  end.

(** The array index a property key denotes, if it is one: a canonical
    decimal numeral below [2^32 - 1]. *)
Definition arrayIndex (key : string) : option N :=
  match key with
  | EmptyString => None
  | String c rest =>
      if (Ascii.N_of_ascii c =? 48)%N && negb (String.eqb rest "") then None
      else
        match decimalValue key 0 with
        | Some n => if (n <? 4294967295)%N then Some n else None
        | None => None
        end
  end.

Fixpoint insertByIndex {A} (i : N) (entry : A) (sorted : list (N * A)) : list (N * A) :=
  match sorted with
  | [] => [(i, entry)]
  | (j, e) :: rest =>
      if (i <? j)%N then (i, entry) :: sorted else (j, e) :: insertByIndex i entry rest
  end.

(** [Object.entries(o)]: the keys that are array indices first, in
    ascending order, then the other keys in the order they were created. *)
Definition Object_entries {A} (o : list (string * A)) : list (string * A) :=
  let indexed :=
    fold_left (fun sorted entry =>
                 match arrayIndex (fst entry) with
                 | Some i => insertByIndex i entry sorted
                 | None => sorted
                 end) o [] in
  (map snd indexed ++
   List.filter (fun entry => match arrayIndex (fst entry) with
                             | Some _ => false
                             | None => true
                             end) o)%list.

(** [.sort((a, b) => b.count - a.count)]: the sort is stable, so the result
    is that of inserting the entries, last first, each before the first
    entry whose count is not greater. *)
Fixpoint insertByCount (entry : string * nat) (sorted : list (string * nat))
    : list (string * nat) :=
  match sorted with
  | [] => [entry]
  | e :: rest =>
      if (snd entry <? snd e)%nat then e :: insertByCount entry rest
      else entry :: sorted
  end.

Definition sortByCount (entries : list (string * nat)) : list (string * nat) :=
  fold_right insertByCount [] entries.

(** [fetchAnalytics()]: the value given to [setAnalytics], if any;
    [interviews] is the [data] of the query. *)
Definition fetchAnalytics (interviews : option (list Interview)) : option AnalyticsData :=
  match interviews with
  | None => None
  | Some interviews =>
      let totalInterviews := length interviews in
      let completedInterviews :=
        length (List.filter (fun i => match status i with
                                      | Some st => String.eqb st "completed"
                                      | None => false
                                      end) interviews) in
      let '(totalScore, scoreCount) := scoreTotals interviews in
      let averageScore :=
        if (0 <? scoreCount)%nat then (totalScore / inject_Z (Z.of_nat scoreCount))%Q
        else 0%Q in
      let totalTimeSpent := completedInterviews * 25 in
      let companyCount := countCompanies interviews in
      let topCompanies := firstn 5 (sortByCount (Object_entries companyCount)) in
      Some (mkAnalytics totalInterviews completedInterviews averageScore totalTimeSpent
              topCompanies)
  end.

(** [completionRate], computed when the cards are rendered. *)
Definition completionRate (analytics : AnalyticsData) : Q :=
  if (0 <? totalInterviews analytics)%nat then
    (inject_Z (Z.of_nat (completedInterviews analytics)) /
     inject_Z (Z.of_nat (totalInterviews analytics)) * 100)%Q
  else 0%Q.

End AnalyticsOverview.

(** ** The interview session (components/interview-session)

    [InterviewSession] renders [MediaRecorder] for audio and video answers
    and receives its recordings and analysis samples.  The text of an
    answer is a [string] whose characters stand for the UTF-16 code units
    of the JavaScript string; code units above 255 are outside the model.
    Calls to the storage and to the server actions are answered by a
    [Backend]. *)

Module InterviewSession.

(** ["text" | "video" | "audio"]. *)
Inductive ResponseType := Text | Media (type : MediaType).

Record PreviewFeedback := mkPreviewFeedback {
  strengths : list string;
  improvements : list string;
  confidence_score : Q
}.

Record Toast := mkToast {
  destructive : bool;
  title : string;
  description : string
}.

(** The argument of one call of [saveResponseWithFeedback]. *)
Record SavedResponse := mkSavedResponse {
  questionId : string;
  savedType : ResponseType;
  responseText : option string;
  mediaUrl : option string
}.

Record Question := mkQuestion {
  id : string;
  question_text : string
}.

(** What the storage and the server actions answer: the public URL of an
    upload or the message of its error; [success] and [error] of the
    result of an action, or the message of the error it throws. *)
Record Backend := mkBackend {
  upload : Blob -> MediaType -> Result string;
  saveResponseWithFeedback : SavedResponse -> Result (bool * string);
  completeInterview : Result (bool * string)
}.

(** The state of the component, with the toasts it has shown, the uploads
    it has started and the responses it has handed to the server. *)
Record Session := mkSession {
  currentQuestionIndex : nat;
  responseType : ResponseType;
  textResponse : string;
  videoBlob : option Blob;
  audioBlob : option Blob;
  isSubmitting : bool;
  isCompleted : bool;
  feedbackLoading : bool;
  showConfirmDialog : bool;
  validationError : option string;
  audioAnalysis : option AnalysisSample;
  videoAnalysis : option AnalysisSample;
  showPreviewDialog : bool;
  previewFeedback : option PreviewFeedback;
  uploadProgress : Q;
  transcribedText : option string;
  uploadError : option string;
  toasts : list Toast;
  uploads : list (Blob * MediaType);
  savedResponses : list SavedResponse
}.

Definition setCurrentQuestionIndex (v : nat) (s : Session) : Session :=
  mkSession v (responseType s) (textResponse s) (videoBlob s) (audioBlob s) (isSubmitting s)
    (isCompleted s) (feedbackLoading s) (showConfirmDialog s) (validationError s)
    (audioAnalysis s) (videoAnalysis s) (showPreviewDialog s) (previewFeedback s)
    (uploadProgress s) (transcribedText s) (uploadError s) (toasts s) (uploads s)
    (savedResponses s).
Definition setResponseType (v : ResponseType) (s : Session) : Session :=
  mkSession (currentQuestionIndex s) v (textResponse s) (videoBlob s) (audioBlob s)
    (isSubmitting s) (isCompleted s) (feedbackLoading s) (showConfirmDialog s)
    (validationError s) (audioAnalysis s) (videoAnalysis s) (showPreviewDialog s)
    (previewFeedback s) (uploadProgress s) (transcribedText s) (uploadError s) (toasts s)
    (uploads s) (savedResponses s).
Definition setTextResponse (v : string) (s : Session) : Session :=
  mkSession (currentQuestionIndex s) (responseType s) v (videoBlob s) (audioBlob s)
    (isSubmitting s) (isCompleted s) (feedbackLoading s) (showConfirmDialog s)
    (validationError s) (audioAnalysis s) (videoAnalysis s) (showPreviewDialog s)
    (previewFeedback s) (uploadProgress s) (transcribedText s) (uploadError s) (toasts s)
    (uploads s) (savedResponses s).
Definition setVideoBlob (v : option Blob) (s : Session) : Session :=
  mkSession (currentQuestionIndex s) (responseType s) (textResponse s) v (audioBlob s)
    (isSubmitting s) (isCompleted s) (feedbackLoading s) (showConfirmDialog s)
    (validationError s) (audioAnalysis s) (videoAnalysis s) (showPreviewDialog s)
    (previewFeedback s) (uploadProgress s) (transcribedText s) (uploadError s) (toasts s)
    (uploads s) (savedResponses s).
Definition setAudioBlob (v : option Blob) (s : Session) : Session :=
  mkSession (currentQuestionIndex s) (responseType s) (textResponse s) (videoBlob s) v
    (isSubmitting s) (isCompleted s) (feedbackLoading s) (showConfirmDialog s)
    (validationError s) (audioAnalysis s) (videoAnalysis s) (showPreviewDialog s)
    (previewFeedback s) (uploadProgress s) (transcribedText s) (uploadError s) (toasts s)
    (uploads s) (savedResponses s).
Definition setIsSubmitting (v : bool) (s : Session) : Session :=
  mkSession (currentQuestionIndex s) (responseType s) (textResponse s) (videoBlob s)
    (audioBlob s) v (isCompleted s) (feedbackLoading s) (showConfirmDialog s)
    (validationError s) (audioAnalysis s) (videoAnalysis s) (showPreviewDialog s)
    (previewFeedback s) (uploadProgress s) (transcribedText s) (uploadError s) (toasts s)
    (uploads s) (savedResponses s).
Definition setIsCompleted (v : bool) (s : Session) : Session :=
  mkSession (currentQuestionIndex s) (responseType s) (textResponse s) (videoBlob s)
    (audioBlob s) (isSubmitting s) v (feedbackLoading s) (showConfirmDialog s)
    (validationError s) (audioAnalysis s) (videoAnalysis s) (showPreviewDialog s)
    (previewFeedback s) (uploadProgress s) (transcribedText s) (uploadError s) (toasts s)
    (uploads s) (savedResponses s).
Definition setFeedbackLoading (v : bool) (s : Session) : Session :=
  mkSession (currentQuestionIndex s) (responseType s) (textResponse s) (videoBlob s)
    (audioBlob s) (isSubmitting s) (isCompleted s) v (showConfirmDialog s) (validationError
    s) (audioAnalysis s) (videoAnalysis s) (showPreviewDialog s) (previewFeedback s)
    (uploadProgress s) (transcribedText s) (uploadError s) (toasts s) (uploads s)
    (savedResponses s).
Definition setShowConfirmDialog (v : bool) (s : Session) : Session :=
  mkSession (currentQuestionIndex s) (responseType s) (textResponse s) (videoBlob s)
    (audioBlob s) (isSubmitting s) (isCompleted s) (feedbackLoading s) v (validationError s)
    (audioAnalysis s) (videoAnalysis s) (showPreviewDialog s) (previewFeedback s)
    (uploadProgress s) (transcribedText s) (uploadError s) (toasts s) (uploads s)
    (savedResponses s).
Definition setValidationError (v : option string) (s : Session) : Session :=
  mkSession (currentQuestionIndex s) (responseType s) (textResponse s) (videoBlob s)
    (audioBlob s) (isSubmitting s) (isCompleted s) (feedbackLoading s) (showConfirmDialog s)
    v (audioAnalysis s) (videoAnalysis s) (showPreviewDialog s) (previewFeedback s)
    (uploadProgress s) (transcribedText s) (uploadError s) (toasts s) (uploads s)
    (savedResponses s).
Definition setAudioAnalysis (v : option AnalysisSample) (s : Session) : Session :=
  mkSession (currentQuestionIndex s) (responseType s) (textResponse s) (videoBlob s)
    (audioBlob s) (isSubmitting s) (isCompleted s) (feedbackLoading s) (showConfirmDialog s)
    (validationError s) v (videoAnalysis s) (showPreviewDialog s) (previewFeedback s)
    (uploadProgress s) (transcribedText s) (uploadError s) (toasts s) (uploads s)
    (savedResponses s).
Definition setVideoAnalysis (v : option AnalysisSample) (s : Session) : Session :=
  mkSession (currentQuestionIndex s) (responseType s) (textResponse s) (videoBlob s)
    (audioBlob s) (isSubmitting s) (isCompleted s) (feedbackLoading s) (showConfirmDialog s)
    (validationError s) (audioAnalysis s) v (showPreviewDialog s) (previewFeedback s)
    (uploadProgress s) (transcribedText s) (uploadError s) (toasts s) (uploads s)
    (savedResponses s).
Definition setShowPreviewDialog (v : bool) (s : Session) : Session :=
  mkSession (currentQuestionIndex s) (responseType s) (textResponse s) (videoBlob s)
    (audioBlob s) (isSubmitting s) (isCompleted s) (feedbackLoading s) (showConfirmDialog s)
    (validationError s) (audioAnalysis s) (videoAnalysis s) v (previewFeedback s)
    (uploadProgress s) (transcribedText s) (uploadError s) (toasts s) (uploads s)
    (savedResponses s).
Definition setPreviewFeedback (v : option PreviewFeedback) (s : Session) : Session :=
  mkSession (currentQuestionIndex s) (responseType s) (textResponse s) (videoBlob s)
    (audioBlob s) (isSubmitting s) (isCompleted s) (feedbackLoading s) (showConfirmDialog s)
    (validationError s) (audioAnalysis s) (videoAnalysis s) (showPreviewDialog s) v
    (uploadProgress s) (transcribedText s) (uploadError s) (toasts s) (uploads s)
    (savedResponses s).
Definition setUploadProgress (v : Q) (s : Session) : Session :=
  mkSession (currentQuestionIndex s) (responseType s) (textResponse s) (videoBlob s)
    (audioBlob s) (isSubmitting s) (isCompleted s) (feedbackLoading s) (showConfirmDialog s)
    (validationError s) (audioAnalysis s) (videoAnalysis s) (showPreviewDialog s)
    (previewFeedback s) v (transcribedText s) (uploadError s) (toasts s) (uploads s)
    (savedResponses s).
Definition setTranscribedText (v : option string) (s : Session) : Session :=
  mkSession (currentQuestionIndex s) (responseType s) (textResponse s) (videoBlob s)
    (audioBlob s) (isSubmitting s) (isCompleted s) (feedbackLoading s) (showConfirmDialog s)
    (validationError s) (audioAnalysis s) (videoAnalysis s) (showPreviewDialog s)
    (previewFeedback s) (uploadProgress s) v (uploadError s) (toasts s) (uploads s)
    (savedResponses s).
Definition setUploadError (v : option string) (s : Session) : Session :=
  mkSession (currentQuestionIndex s) (responseType s) (textResponse s) (videoBlob s)
    (audioBlob s) (isSubmitting s) (isCompleted s) (feedbackLoading s) (showConfirmDialog s)
    (validationError s) (audioAnalysis s) (videoAnalysis s) (showPreviewDialog s)
    (previewFeedback s) (uploadProgress s) (transcribedText s) v (toasts s) (uploads s)
    (savedResponses s).
Definition setToasts (v : list Toast) (s : Session) : Session :=
  mkSession (currentQuestionIndex s) (responseType s) (textResponse s) (videoBlob s)
    (audioBlob s) (isSubmitting s) (isCompleted s) (feedbackLoading s) (showConfirmDialog s)
    (validationError s) (audioAnalysis s) (videoAnalysis s) (showPreviewDialog s)
    (previewFeedback s) (uploadProgress s) (transcribedText s) (uploadError s) v (uploads s)
    (savedResponses s).
Definition setUploads (v : list (Blob * MediaType)) (s : Session) : Session :=
  mkSession (currentQuestionIndex s) (responseType s) (textResponse s) (videoBlob s)
    (audioBlob s) (isSubmitting s) (isCompleted s) (feedbackLoading s) (showConfirmDialog s)
    (validationError s) (audioAnalysis s) (videoAnalysis s) (showPreviewDialog s)
    (previewFeedback s) (uploadProgress s) (transcribedText s) (uploadError s) (toasts s) v
    (savedResponses s).
Definition setSavedResponses (v : list SavedResponse) (s : Session) : Session :=
  mkSession (currentQuestionIndex s) (responseType s) (textResponse s) (videoBlob s)
    (audioBlob s) (isSubmitting s) (isCompleted s) (feedbackLoading s) (showConfirmDialog s)
    (validationError s) (audioAnalysis s) (videoAnalysis s) (showPreviewDialog s)
    (previewFeedback s) (uploadProgress s) (transcribedText s) (uploadError s) (toasts s)
    (uploads s) v.

(** The state the component is mounted with; [completed] is
    [interview.status === "completed"]. *)
Definition initialSession (completed : bool) : Session :=
  mkSession 0 Text "" None None false completed false false None None None false None 0%Q
    None None [] [] [].

Definition toast (t : Toast) (s : Session) : Session := setToasts (toasts s ++ [t])%list s.

(** White space and line terminators among the code units below 256. *)
Definition isWhitespace (c : Ascii.ascii) : bool :=
  let code := Ascii.nat_of_ascii c in
  ((9 <=? code)%nat && (code <=? 13)%nat) || (code =? 32)%nat || (code =? 160)%nat.

Fixpoint trimStart (s : string) : string :=
  match s with
  | EmptyString => ""
  | String c s' => if isWhitespace c then trimStart s' else s
  end.

Fixpoint trimEnd (s : string) : string :=
  match s with
  | EmptyString => ""
  | String c s' =>
      let rest := trimEnd s' in
      if String.eqb rest "" && isWhitespace c then "" else String c rest
  end.

(** [s.trim()]. *)
Definition trim (s : string) : string := trimEnd (trimStart s).

(** [s.split(/\s+/)]; [piece] is the piece being read and [inSeparator]
    tells whether the last character belonged to a separator. *)
Fixpoint splitSpaces (s piece : string) (inSeparator : bool) : list string :=
  match s with
  | EmptyString => [piece]
  | String c s' =>
      if isWhitespace c then
        if inSeparator then splitSpaces s' piece true
        else piece :: splitSpaces s' "" true
      else splitSpaces s' (piece +:+ String c "") false
  end.

Definition split_whitespace (s : string) : list string := splitSpaces s "" false.

(** [s.includes(search)]. *)
Fixpoint includes (s search : string) : bool :=
  String.prefix search s ||
  match s with
  | EmptyString => false
  | String _ s' => includes s' search
  end.

Definition resetResponseState (s : Session) : Session :=
  let s := setTextResponse "" s in
  let s := setVideoBlob None s in
  let s := setAudioBlob None s in
  let s := setValidationError None s in
  let s := setAudioAnalysis None s in
  let s := setVideoAnalysis None s in
  let s := setPreviewFeedback None s in
  let s := setUploadProgress 0%Q s in
  let s := setTranscribedText None s in
  setUploadError None s.

(** [validateResponse()]: its result and the state afterwards. *)
Definition validateResponse (r s : Session) : bool * Session :=
  let s := setValidationError None s in
  match responseType r with
  | Text =>
      if String.eqb (trim (textResponse r)) "" then
        (false, setValidationError (Some "Please provide a text response") s)
      else if (String.length (trim (textResponse r)) <? 20)%nat then
        (false,
         setValidationError
           (Some "Your response is too short. Please provide a more detailed answer.") s)
      else (true, s)
  | Media video =>
      match videoBlob r with
      | None => (false, setValidationError (Some "Please record a video response") s)
      | Some _ => (true, s)
      end
  | Media audio =>
      match audioBlob r with
      | None => (false, setValidationError (Some "Please record an audio response") s)
      | Some _ => (true, s)
      end
  end.

(** [questions[currentQuestionIndex]]. *)
Definition currentQuestion (questions : list Question) (r : Session) : option Question :=
  nth_error questions (currentQuestionIndex r).

(** [progress], the value of the bar. *)
Definition progress (questions : list Question) (r : Session) : Q :=
  (inject_Z (Z.of_nat (currentQuestionIndex r + 1)) /
   inject_Z (Z.of_nat (length questions)) * 100)%Q.

(** The [disabled] attribute of the Next and of the Preview button. *)
Definition submitDisabled (r : Session) : bool :=
  isSubmitting r ||
  match responseType r with
  | Text => String.eqb (textResponse r) ""
  | Media video => negb (bool_decide (is_Some (videoBlob r)))
  | Media audio => negb (bool_decide (is_Some (audioBlob r)))
  end.

Definition handleNextQuestion (questions : list Question) (r s : Session) : Session :=
  match currentQuestion questions r with
  | None => s
  | Some _ =>
      let '(valid, s) := validateResponse r s in
      if valid then setShowConfirmDialog true s else s
  end.

Definition handlePreviousQuestion (r s : Session) : Session :=
  if (0 <? currentQuestionIndex r)%nat then
    resetResponseState (setCurrentQuestionIndex (currentQuestionIndex r - 1) s)
  else s.

(** [handleMediaRecordingComplete(blob, type, transcription)], the
    [onRecordingComplete] given to [MediaRecorder]. *)
Definition handleMediaRecordingComplete (blob : Blob) (type : MediaType)
    (transcription : option string) (s : Session) : Session :=
  match type with
  | audio =>
      let s := setAudioBlob (Some blob) s in
      match transcription with
      | Some text => if String.eqb text "" then s else setTranscribedText (Some text) s
      | None => s
      end
  | video => setVideoBlob (Some blob) s
  end.

(** [handleAnalysisUpdate(analysis)], the [onAnalysisUpdate] given to
    [MediaRecorder]. *)
Definition handleAnalysisUpdate (analysis : AnalysisSample) (r s : Session) : Session :=
  match responseType r with
  | Media audio => setAudioAnalysis (Some analysis) s
  | _ => setVideoAnalysis (Some analysis) s
  end.

(** [uploadMedia(blob, type)]: the URL it returns ([None] for [null]) and
    the state afterwards.  The progress reports of the upload are not
    modelled. *)
Definition uploadMedia (b : Backend) (blob : Blob) (type : MediaType) (s : Session)
    : Result (option string) * Session :=
  let s := setUploadError None s in
  let failed (errorMessage : string) (s : Session) :=
    let s := setUploadError (Some errorMessage) s in
    let s := toast (mkToast true ("Error uploading " +:+ mediaType_str type) errorMessage) s in
    (Ok None, s) in
  if (blob_size blob =? 0)%nat then
    failed ("Invalid " +:+ mediaType_str type +:+ " recording. Please try again.") s
  else
    let s := setUploads (uploads s ++ [(blob, type)])%list s in
    match upload b blob type with
    | Ok publicUrl => (Ok (Some publicUrl), s)
    | Throw message => failed message s
    | Pending => (Pending, s)
    end.

(** [saveResponse()]. *)
Definition saveResponse (b : Backend) (questions : list Question) (r s : Session)
    : Result unit * Session :=
  match currentQuestion questions r with
  | None => (Ok tt, s)
  | Some question =>
      let s := setFeedbackLoading true s in
      let media (type : MediaType) (blob : Blob) (s : Session)
          : Result (option string * option string) * Session :=
        let '(uploaded, s) := uploadMedia b blob type s in
        match uploaded with
        | Ok (Some url) =>
            let text :=
              match transcribedText r with
              | Some t =>
                  or_else t (match type with
                             | video => "Video response (transcription not available)"
                             | audio => "Audio response (transcription not available)"
                             end)
              | None =>
                  match type with
                  | video => "Video response (transcription not available)"
                  | audio => "Audio response (transcription not available)"
                  end
              end in
            (Ok (Some text, Some url), s)
        | Ok None => (Throw ("Failed to upload " +:+ mediaType_str type), s)
        | Throw message => (Throw message, s)
        | Pending => (Pending, s)
        end in
      let '(processed, s) :=
        match responseType r with
        | Text => (Ok (Some (textResponse r), None), s)
        | Media video =>
            match videoBlob r with
            | Some blob => media video blob s
            | None => (Ok (None, None), s)
            end
        | Media audio =>
            match audioBlob r with
            | Some blob => media audio blob s
            | None => (Ok (None, None), s)
            end
        end in
      let '(outcome, s) :=
        match processed with
        | Ok (text, url) =>
            let response := mkSavedResponse (id question) (responseType r) text url in
            let s := setSavedResponses (savedResponses s ++ [response])%list s in
            match saveResponseWithFeedback b response with
            | Ok (true, _) =>
                (Ok tt,
                 toast (mkToast false "Response saved"
                          "Your response has been saved and analyzed.") s)
            | Ok (false, error) => (Throw (or_else error "Failed to save response"), s)
            | Throw message => (Throw message, s)
            | Pending => (Pending, s)
            end
        | Throw message => (Throw message, s)
        | Pending => (Pending, s)
        end in
      match outcome with
      | Ok _ => (Ok tt, setFeedbackLoading false s)
      | Throw message =>
          (Throw message, setFeedbackLoading false (toast (mkToast true "Error" message) s))
      | Pending => (Pending, s)
      end
  end.

(** [completeInterviewSession()].  Between the server action and the toast
    the function computes a score and records it; these reads and inserts
    are inside [try] blocks of their own and do not touch the state.  They
    are not modelled and are taken to settle. *)
Definition completeInterviewSession (b : Backend) (s : Session) : Result unit * Session :=
  match completeInterview b with
  | Ok (true, _) =>
      let s :=
        toast (mkToast false "Interview completed"
                 "Your mock interview has been completed successfully.") s in
      (Ok tt, setIsCompleted true s)
  | Ok (false, error) => (Throw (or_else error "Failed to complete interview"), s)
  | Throw message => (Throw message, s)
  | Pending => (Pending, s)
  end.

(** [confirmSubmission()], the Submit button of the confirmation dialog:
    the state when the handler has finished, or where it stays suspended
    when a promise it awaits does not settle. *)
Definition confirmSubmission (b : Backend) (questions : list Question) (r s : Session)
    : Session :=
  let s := setShowConfirmDialog false s in
  let s := setIsSubmitting true s in
  let '(saved, s) := saveResponse b questions r s in
  let '(outcome, s) :=
    match saved with
    | Ok _ =>
        if (currentQuestionIndex r + 1 <? length questions)%nat then
          (Ok tt, resetResponseState (setCurrentQuestionIndex (currentQuestionIndex r + 1) s))
        else
          let '(done, s) := completeInterviewSession b s in
          match done with
          | Ok _ => (Ok tt, setIsCompleted true s)
          | _ => (done, s)
          end
    | _ => (saved, s)
    end in
  match outcome with
  | Ok _ => setIsSubmitting false s
  | Throw _ =>
      setIsSubmitting false
        (toast (mkToast true "Error" "Failed to save your response. Please try again.") s)
  | Pending => s
  end.

(** The verdicts of [handlePreviewResponse] on an analysis sample;
    [withVideo] adds the two video fields. *)
Definition judge (value : Q) (strength improvement : string)
    (lists : list string * list string) : list string * list string :=
  if Qgtb value 70 then ((fst lists ++ [strength])%list, snd lists)
  else (fst lists, (snd lists ++ [improvement])%list).

Definition judgeAnalysis (analysis : AnalysisSample) (withVideo : bool)
    (lists : list string * list string) : list string * list string :=
  let lists := judge (a_volume analysis) "Good volume level" "Speak a bit louder" lists in
  let lists :=
    judge (a_pace analysis) "Good speaking pace" "Adjust your speaking pace" lists in
  let lists :=
    judge (a_clarity analysis) "Clear articulation" "Work on clarity of speech" lists in
  let lists :=
    judge (a_confidence analysis) "Confident delivery" "Work on sounding more confident"
      lists in
  if withVideo then
    let lists :=
      judge (a_facialExpressions analysis) "Good facial expressions"
        "Use more expressive facial cues" lists in
    judge (a_eyeContact analysis) "Good eye contact" "Maintain better eye contact" lists
  else lists.

(** The feedback [handlePreviewResponse] builds. *)
Definition buildPreview (r : Session) : PreviewFeedback :=
  let lists : list string * list string :=
    match responseType r with
    | Text =>
        let wordCount := length (split_whitespace (trim (textResponse r))) in
        let lists :=
          if (50 <? wordCount)%nat then (["Detailed response"], [])
          else ([], ["Consider providing more details"]) in
        let lists :=
          if includes (textResponse r) "example" || includes (textResponse r) "instance"
             || includes (textResponse r) "case"
          then ((fst lists ++ ["Good use of examples"])%list, snd lists)
          else (fst lists, (snd lists ++ ["Include specific examples"])%list) in
        if (200 <? String.length (textResponse r))%nat
        then ((fst lists ++ ["Comprehensive answer"])%list, snd lists)
        else (fst lists, (snd lists ++ ["Elaborate on your points"])%list)
    | Media audio =>
        match audioAnalysis r with
        | Some analysis => judgeAnalysis analysis false ([], [])
        | None => ([], [])
        end
    | Media video =>
        match videoAnalysis r with
        | Some analysis => judgeAnalysis analysis true ([], [])
        | None => ([], [])
        end
    end in
  let strengths :=
    match fst lists with
    | [] => ["Completed response"]
    | _ => fst lists
    end in
  let improvements :=
    match snd lists with
    | [] => ["Practice more to improve delivery"]
    | _ => snd lists
    end in
  mkPreviewFeedback (firstn 3 strengths) (firstn 3 improvements)
    (Qmin (0.5 + inject_Z (Z.of_nat (length strengths)) /
                 inject_Z (Z.of_nat (length strengths + length improvements)) * 0.5) 1).

Definition handlePreviewResponse (r s : Session) : Session :=
  let '(valid, s) := validateResponse r s in
  if valid then
    let s := setShowPreviewDialog true s in
    setPreviewFeedback (Some (buildPreview r)) s
  else s.

End InterviewSession.

(** ** Runs *)

(** Every field of a sample is a percentage. *)
Definition percentage (x : Q) : Prop := (0 <= x <= 100)%Q.

Definition in_range (m : AnalysisSample) : Prop :=
  Forall percentage (sample_fields m).

(** Field-wise order on samples. *)
Definition sample_le (m m' : AnalysisSample) : Prop :=
  Forall2 Qle (sample_fields m) (sample_fields m').

(** The samples a call hands to [onAnalysisUpdate]. *)
Definition emittedBy (f : State -> State) (s : State) : list AnalysisSample :=
  skipn (length (emitted (env s))) (emitted (env (f s))).

(** A value of [Math.random()]. *)
Definition unit_interval (r : Q) : Prop := (0 <= r < 1)%Q.

(** A data event that delivers a non-empty chunk. *)
Definition nonEmptyChunk (data : option Blob) : Prop :=
  exists b, data = Some b /\ 0 < blob_size b.

(** The chunks a list of data events leaves in the buffer. *)
Definition deliveredChunks (evs : list (option Blob)) : list Blob :=
  flat_map (fun d => match d with
                     | Some b => if (0 <? blob_size b)%nat then [b] else []
                     | None => []
                     end) evs.

(** The MIME type of the recorder a session runs on. *)
Definition recorderMimeType (s : State) : string :=
  match mediaRecorderRef (cap s) with
  | Some r => rec_mimeType r
  | None => ""
  end.

(** One recording session: the Start click in render [r], the data events
    delivered while recording, the Stop click, the data events flushed by
    the stop, and the finalization callback, which is a closure of [r]. *)
Definition MediaRecorder_session (h : Host) (e : TranscriptionEnv)
    (before flushed : list (option Blob)) (r : Render) : State :=
  let s := event (MediaRecorder.startRecording h) r in
  let s := fold_left (fun s d => MediaRecorder.ondataavailable d s) before s in
  let s := event MediaRecorder.stopRecording s in
  let s := fold_left (fun s d => MediaRecorder.ondataavailable d s) flushed s in
  MediaRecorder.onstop (recorderMimeType s) e r s.

Definition AudioRecorder_session (h : Host)
    (before flushed : list (option Blob)) (r : Render) : State :=
  let s := AudioRecorder.startRecording h r in
  let s := fold_left (fun s d => AudioRecorder.ondataavailable d s) before s in
  let s := event AudioRecorder.stopRecording s in
  let s := fold_left (fun s d => AudioRecorder.ondataavailable d s) flushed s in
  AudioRecorder.onstop (recorderMimeType s) r s.

(** The timer loop of the acquire retry: as long as a
    [setTimeout(startRecording)] is pending it fires, under the next host
    of [hs].  Returns the number of re-invocations of [startRecording]. *)
Fixpoint reinvocations (startTimeout : Host -> State -> State)
    (hs : list Host) (s : State) : nat * State :=
  match hs with
  | [] => (0, s)
  | h :: hs' =>
      match startTimeouts (env s) with
      | O => (0, s)
      | S _ =>
          let '(k, s') := reinvocations startTimeout hs' (startTimeout h s) in
          (S k, s')
      end
  end.

(** A host whose permission prompt is answered with a denial. *)
Definition denies (h : Host) : Prop :=
  exists name message, acquire h = Denied name message.

Definition deniedHost : Host :=
  mkHost (Denied "NotAllowedError" "Permission denied") 0 (fun _ => true) None.

Definition grantedHost : Host :=
  mkHost Granted 0 (fun _ => true) None.

(** What happens to the transcription module: calls of [initWhisper] and
    events of the script it appended. *)
Inductive WhisperEvent :=
| CallInit (w : ClientTranscription.Window)
| Script (e : ClientTranscription.ScriptEvent).

(** The promises returned by the calls of a trace, in order, and the
    module afterwards. *)
Fixpoint runWhisper (evs : list WhisperEvent) (m : ClientTranscription.ModuleState)
    : list nat * ClientTranscription.ModuleState :=
  match evs with
  | [] => ([], m)
  | CallInit w :: evs' =>
      let '(p, m) := ClientTranscription.initWhisper w m in
      let '(ps, m) := runWhisper evs' m in
      (p :: ps, m)
  | Script e :: evs' => runWhisper evs' (ClientTranscription.script_event e m)
  end.

(** The resources a component holds, as one tuple: the two interval refs
    and the active intervals; the stream ref, the live streams and the next
    stream identity; the playback URL and the outstanding object URLs. *)
Definition timerView (s : State) : option nat * option nat * gset nat :=
  (timerRef (cap s), playbackTimerRef (pb s), timers (env s)).

Definition streamView (s : State) : option nat * gset nat * nat :=
  (streamRef (cap s), liveStreams (env s), nextStream (env s)).

Definition urlView (s : State) : option nat * gset nat :=
  (mediaUrl (cap s), objectUrls (env s)).


(** ** Scenarios *)

(** A recording in its 40th second, in audio mode. *)
Definition recordingState : State :=
  setRecordingTime 40 (setIsRecording true (initialState audio)).

(** A finished recording of 30 seconds, mounted in the playback element
    and loaded. *)
Definition playerState (mt : MediaType) : State :=
  let s := setRecordedBlob (Some (mkBlob 3072 "audio/webm")) (initialState mt) in
  let '(u, s) := createObjectURL s in
  let s := setMediaUrl (Some u) s in
  let s := render s in
  let s := withElement (el_set_src u) s in
  MediaRecorder.handleLoadedMetadata 30 s.

(** [AudioRecorder], mounted with a granted microphone and recording. *)
Definition audioRecording : State :=
  AudioRecorder.startRecording grantedHost
    (AudioRecorder.startMicrophone Granted (initialState audio)).

(** The Whisper script fails to load while the browser's speech
    recognition would have heard "hello world". *)
Definition whisperFails : TranscriptionEnv :=
  mkTranscriptionEnv
    (ClientTranscription.Page ClientTranscription.Undefined)
    (Some ClientTranscription.Failed)
    (ClientTranscription.mkPipelineRun (Ok tt) (Ok tt) (Ok "hello world"))
    (ClientTranscription.mkSpeechApi true false
       [ClientTranscription.onresult [(true, "hello world")];
        ClientTranscription.audio_onended;
        ClientTranscription.onend]).

(** The script loads but the pipeline throws on the recording. *)
Definition pipelineThrows : TranscriptionEnv :=
  mkTranscriptionEnv
    (ClientTranscription.Page ClientTranscription.Undefined)
    (Some (ClientTranscription.Loaded (ClientTranscription.Obj 0)))
    (ClientTranscription.mkPipelineRun (Ok tt) (Ok tt) (Throw "Unsupported audio format"))
    (t_speech whisperFails).

(** What the module may rely on between two events. *)
Definition whisperInv (m : ClientTranscription.ModuleState) : Prop :=
  (forall q, is_Some (ClientTranscription.promises m !! q) ->
             q < ClientTranscription.nextPromise m) /\
  match ClientTranscription.loadPromise m with
  | None =>
      ClientTranscription.scriptsAppended m = 0 /\
      ClientTranscription.pendingScript m = None /\
      ClientTranscription.isWhisperLoaded m = false
  | Some p =>
      is_Some (ClientTranscription.promises m !! p) /\
      ClientTranscription.scriptsAppended m <= 1
  end /\
  (forall q, ClientTranscription.pendingScript m = Some q ->
             ClientTranscription.loadPromise m = Some q /\
             ClientTranscription.promises m !! q = Some ClientTranscription.Unsettled) /\
  (ClientTranscription.isWhisperLoaded m = true ->
   exists p, ClientTranscription.loadPromise m = Some p /\
             ClientTranscription.promises m !! p = Some ClientTranscription.Resolved).

(** A promise returned by [initWhisper] is the cached [loadPromise] or, once
    the library is loaded, an already resolved one. *)
Definition cachedOrResolved (p : nat) (m : ClientTranscription.ModuleState) (q : nat) : Prop :=
  q = p \/
  (ClientTranscription.isWhisperLoaded m = true /\
   ClientTranscription.promises m !! q = Some ClientTranscription.Resolved).

(** Settled promises stay as they are, and the library stays loaded. *)
Definition persists (m m' : ClientTranscription.ModuleState) : Prop :=
  (forall q st, ClientTranscription.promises m !! q = Some st ->
                st <> ClientTranscription.Unsettled ->
                ClientTranscription.promises m' !! q = Some st) /\
  (ClientTranscription.isWhisperLoaded m = true ->
   ClientTranscription.isWhisperLoaded m' = true).

(** The Whisper path fails: awaiting [initWhisper()] throws, or the library
    is not there after it, or the pipeline throws on the recording. *)
Definition whisperPathFails (e : TranscriptionEnv) (m : ClientTranscription.ModuleState)
    : Prop :=
  let '(p, m1) := ClientTranscription.initWhisper (t_window e) m in
  let m2 := match t_script e with
            | Some ev => ClientTranscription.script_event ev m1
            | None => m1
            end in
  (exists message, ClientTranscription.await p m2 = Throw message) \/
  (ClientTranscription.await p m2 = Ok tt /\
   ClientTranscription.truthy (ClientTranscription.transformersLib m2) = false) \/
  (ClientTranscription.await p m2 = Ok tt /\
   exists message, ClientTranscription.pipelineSteps (t_run e) = Throw message).

(** ** Runs of the transcription module *)

(** The results carried by the [onresult] events of a list of recogniser
    events, in order. *)
Definition heard (evs : list ClientTranscription.SpeechEvent) : list (bool * string) :=
  flat_map (fun e => match e with
                     | ClientTranscription.onresult results => results
                     | _ => []
                     end) evs.

(** No event of the list settles the promise of [transcribeAudioFallback]:
    the recogniser is still listening. *)
Definition listening (evs : list ClientTranscription.SpeechEvent) : bool :=
  forallb (fun e => match e with
                    | ClientTranscription.onresult _
                    | ClientTranscription.audio_onended => true
                    | _ => false
                    end) evs.

(** The final results, each followed by a space. *)
Definition finalTranscript (results : list (bool * string)) : string :=
  fold_right (fun res rest => snd res +:+ " " +:+ rest) "" (List.filter fst results).

(** A sequence of [transcribeAudioClient] calls, each with the window, the
    script event and the pipeline run of its environment: the results, in
    order, and the module afterwards. *)
Fixpoint runTranscriptions (calls : list TranscriptionEnv)
    (m : ClientTranscription.ModuleState)
    : list (Result string) * ClientTranscription.ModuleState :=
  match calls with
  | [] => ([], m)
  | e :: calls' =>
      let '(res, m) :=
        ClientTranscription.transcribeAudioClient (t_window e) (t_script e) (t_run e) m in
      let '(results, m) := runTranscriptions calls' m in
      (res :: results, m)
  end.

(** What a call of [transcribeAudioClient] returns once the library is
    there: the text of the pipeline, or the failure text when it throws. *)
Definition pipelineOutcome (run : ClientTranscription.PipelineRun) : Result string :=
  match ClientTranscription.pipelineSteps run with
  | Ok text => Ok text
  | Throw _ => Ok ClientTranscription.failureText
  | Pending => Pending
  end.

(** The script the module appended fires [ev]. *)
Definition scriptEvent (ev : ClientTranscription.ScriptEvent) (s : State) : State :=
  setWhisper (ClientTranscription.script_event ev (whisper (env s))) s.

(** A browser in which every global [isWhisperSupported] asks for is what
    it expects, and one in which [URL] is a constructor. *)
Definition expectedGlobals : ClientTranscription.Globals :=
  ClientTranscription.mkGlobals "object" "function" "function" "function" "function"
    "object" "function".

Definition constructorURL : ClientTranscription.Globals :=
  ClientTranscription.mkGlobals "object" "function" "function" "function" "function"
    "function" "function".

(** The recogniser hears two final results and an interim one, then ends. *)
Definition twoSentences : list ClientTranscription.SpeechEvent :=
  [ClientTranscription.onresult [(true, "tell me"); (false, "about")];
   ClientTranscription.onresult [(true, "about yourself")];
   ClientTranscription.audio_onended].

(** A pipeline that transcribes the recording as "hello world". *)
Definition helloRun : TranscriptionEnv :=
  mkTranscriptionEnv
    (ClientTranscription.Page ClientTranscription.Undefined)
    (Some (ClientTranscription.Loaded (ClientTranscription.Obj 0)))
    (ClientTranscription.mkPipelineRun (Ok tt) (Ok tt) (Ok "hello world"))
    (ClientTranscription.mkSpeechApi false false []).

(** ** Runs of the playback toggle *)

(** The promise a suspended [MediaRecorder.togglePlayback] waits for
    settles; [played] is the outcome of [play()] if that is the promise. *)
Definition MediaRecorder_settle (played : Result unit) (r : Render)
    (st : State * option Await) : State * option Await :=
  match snd st with
  | Some k => MediaRecorder.resume k played r (fst st)
  | None => st
  end.

(** What [resetRecording] of [AudioRecorder] and of [WebcamRecorder] leaves
    of state [s], in [s']. *)
Definition resetOutcome (h : Host) (s s' : State) : Prop :=
  recordedBlob (cap s') = None /\
  mediaUrl (cap s') = None /\
  (forall u, mediaUrl (cap s) = Some u -> u ∉ objectUrls (env s')) /\
  recordingTime (cap s') = 0 /\
  currentTime (pb s') = 0%Q /\ duration (pb s') = 0%Q /\
  isPlaying (pb s') = false /\
  analysisMetrics (drv s') = zeroSample /\
  (forall el, mediaRef (pb s) = Some el ->
              option_map paused (mediaRef (pb s')) = Some true) /\
  match acquire h with
  | Granted =>
      streamRef (cap s') = Some (nextStream (env s)) /\
      nextStream (env s) ∈ liveStreams (env s') /\
      error (cap s') = None
  | Denied _ _ =>
      streamRef (cap s') = streamRef (cap s) /\
      liveStreams (env s') = liveStreams (env s) /\
      is_Some (error (cap s'))
  end.

(** ** More scenarios *)

(** [MediaRecorder] as its first commit leaves it when both requests for
    the device are granted.  The effects run in the order they are
    declared: the capability check, the reset for the media type, which
    ends with [startMediaStream()], and the mount effect, which calls
    [startMediaStream()] again.  The state reached does not depend on the
    order in which the two granted requests are answered. *)
Definition MediaRecorder_mounted (mt : MediaType) : State :=
  let r := initialState mt in
  let s := fst (MediaRecorder.checkCapabilities
                  (ClientTranscription.Page ClientTranscription.Undefined)
                  constructorURL "function" r) in
  let s := MediaRecorder.resetRecording grantedHost r s in
  MediaRecorder.startMediaStream Granted 0 r s.

(** A finished audio recording in [AudioRecorder]: recorded on a granted
    microphone, stopped after three chunks, finalized and rendered. *)
Definition audioRecorded : State :=
  let s := AudioRecorder.startMicrophone Granted (initialState audio) in
  let chunk := Some (mkBlob 1024 "audio/webm") in
  render (AudioRecorder_session grantedHost [chunk; chunk] [chunk] s).

(** ** Runs of the analytics overview *)

(** The rows of a relation, none when it is [null]. *)
Definition rows {A} (xs : option (list A)) : list A :=
  match xs with
  | Some l => l
  | None => []
  end.

(** The confidence scores of the feedback rows of a query result, in the
    order [fetchAnalytics] visits them. *)
Definition confidenceScores (interviews : list AnalyticsOverview.Interview) : list Q :=
  flat_map (fun interview =>
    flat_map (fun question =>
      flat_map (fun response =>
        flat_map (fun fb => match AnalyticsOverview.confidence_score fb with
                            | Some score => [score]
                            | None => []
                            end)
          (rows (AnalyticsOverview.feedback response)))
        (rows (AnalyticsOverview.responses question)))
      (rows (AnalyticsOverview.questions interview)))
    interviews.

(** The scores that count: those that are not 0. *)
Definition counted (scores : list Q) : list Q :=
  List.filter (fun score => negb (Qeq_bool score 0)) scores.

(** The company names of a query result, in order. *)
Definition companyNames (interviews : list AnalyticsOverview.Interview) : list string :=
  flat_map (fun interview => match AnalyticsOverview.companyName interview with
                             | Some n => [n]
                             | None => []
                             end) interviews.

(** No company is named like a property that [companyCount] inherits. *)
Definition ownKeys (interviews : list AnalyticsOverview.Interview) : bool :=
  forallb (fun n => negb (existsb (String.eqb n) AnalyticsOverview.inheritedKeys))
    (companyNames interviews).

(** An interview with the given status, company and confidence scores, all
    on one question and one response. *)
Definition interviewOf (status company : string) (scores : list Q)
    : AnalyticsOverview.Interview :=
  AnalyticsOverview.mkInterview (Some status)
    (Some (AnalyticsOverview.mkCompany (Some company)))
    (Some [AnalyticsOverview.mkQuestion
             (Some [AnalyticsOverview.mkResponse
                      (Some (map (fun score => AnalyticsOverview.mkFeedback (Some score))
                               scores))])]).

Definition sampleInterviews : list AnalyticsOverview.Interview :=
  [interviewOf "completed" "Acme" [0.8%Q; 0%Q];
   interviewOf "in_progress" "Globex" [0.6%Q];
   interviewOf "completed" "Acme" [];
   interviewOf "completed" "7" [1%Q];
   AnalyticsOverview.mkInterview None None None].

(** ** Runs of the interview session *)

(** A string of white space only. *)
Fixpoint blank (s : string) : bool :=
  match s with
  | EmptyString => true
  | String c s' => InterviewSession.isWhitespace c && blank s'
  end.

(** [MediaRecorder] hands a finished recording to the session that
    rendered it. *)
Definition deliver (c : Completion) (session : InterviewSession.Session)
    : InterviewSession.Session :=
  match c_type c with
  | Some type =>
      InterviewSession.handleMediaRecordingComplete (c_blob c) type (c_transcription c)
        session
  | None => session
  end.

(** The recordings reported by a handler of [MediaRecorder] that takes [s]
    to [s'], delivered in order. *)
Definition deliverNew (s s' : State) (session : InterviewSession.Session)
    : InterviewSession.Session :=
  fold_left (fun session c => deliver c session)
    (skipn (length (completed (env s))) (completed (env s'))) session.

(** A backend on which every call succeeds, and one whose storage rejects
    every upload. *)
Definition okBackend : InterviewSession.Backend :=
  InterviewSession.mkBackend (fun _ _ => Ok "https://storage/responses/file.webm")
    (fun _ => Ok (true, "")) (Ok (true, "")).

Definition failingStorage : InterviewSession.Backend :=
  InterviewSession.mkBackend (fun _ _ => Throw "Payload too large")
    (fun _ => Ok (true, "")) (Ok (true, "")).

Definition twoQuestions : list InterviewSession.Question :=
  [InterviewSession.mkQuestion "q1" "Tell me about yourself.";
   InterviewSession.mkQuestion "q2" "Why this role?"].

(** A session on the first of two questions with a typed answer. *)
Definition typedAnswer : InterviewSession.Session :=
  InterviewSession.setTextResponse
    "  I have led three projects, for example a billing system.  "
    (InterviewSession.initialSession false).

(** A session waiting for an audio answer. *)
Definition audioAnswer : InterviewSession.Session :=
  InterviewSession.setResponseType (InterviewSession.Media audio)
    (InterviewSession.initialSession false).

(** The answer being given and where the session stands, as one tuple. *)
Definition answerView (s : InterviewSession.Session)
    : nat * InterviewSession.ResponseType * string * option Blob * option Blob *
      option string * bool :=
  (InterviewSession.currentQuestionIndex s, InterviewSession.responseType s,
   InterviewSession.textResponse s, InterviewSession.videoBlob s,
   InterviewSession.audioBlob s, InterviewSession.transcribedText s,
   InterviewSession.isCompleted s).

(** A recording session of [WebcamRecorder] from the render [r]:
    [startRecording], the data events of the recorder, [stopRecording] in
    the render that followed, then the [onstop] callback, a closure of [r].
    [rnd] are the values of [Math.random()] of the first analysis. *)
Definition WebcamRecorder_session (h : Host) (rnd : Q) (data : list Blob) (r : Render)
    : Result State :=
  let s := event (WebcamRecorder.startRecording h rnd rnd rnd rnd) r in
  let s := fold_left (fun s d => WebcamRecorder.ondataavailable d s) data s in
  match event WebcamRecorder.stopRecording s with
  | Ok s => Ok (WebcamRecorder.onstop r s)
  | Throw message => Throw message
  | Pending => Pending
  end.

(** The Whisper script fails to load in a browser that has no speech
    recognition API. *)
Definition noSpeechRecognition : TranscriptionEnv :=
  mkTranscriptionEnv (t_window whisperFails) (t_script whisperFails) (t_run whisperFails)
    (ClientTranscription.mkSpeechApi false false []).

(** ** Reset *)




(** * Properties *)

Local Open Scope Q_scope.

(** ** Analysis samples *)

Lemma Qmin_percentage (x : Q) : 0 <= x -> percentage (Qmin x 100).
Proof.
  intros Hx. split.
  - apply Q.min_glb; lra.
  - apply Q.le_min_r.
Qed.

Lemma Qmin_cap_mono (x y : Q) : x <= y -> Qmin x 100 <= Qmin y 100.
Proof. apply Q.min_le_compat_r. Qed.

Lemma seconds_nonneg (n : nat) : 0 <= seconds n.
Proof.
  unfold seconds. change 0 with (inject_Z 0). rewrite <- Zle_Qle. lia.
Qed.

Lemma seconds_mono (n n' : nat) : (n <= n')%nat -> seconds n <= seconds n'.
Proof. intros H. unfold seconds. rewrite <- Zle_Qle. lia. Qed.

Lemma Qdiv_nonneg (x c : Q) : 0 <= x -> 0 < c -> 0 <= x / c.
Proof. intros Hx Hc. apply Qle_shift_div_l; lra. Qed.

Lemma Qdiv_mono (x y c : Q) : x <= y -> 0 < c -> x / c <= y / c.
Proof.
  intros Hxy Hc. unfold Qdiv. apply Qmult_le_compat_r; [assumption|].
  apply Qlt_le_weak, Qinv_lt_0_compat, Hc.
Qed.

Lemma timeBasedFactor_bounds (t : nat) :
  0 <= Qmin (seconds t / 30) 1 <= 1.
Proof.
  pose proof (seconds_nonneg t) as Ht. split.
  - apply Q.min_glb; [|lra].
    apply Qdiv_nonneg; lra.
  - apply Q.le_min_r.
Qed.

Lemma timeBasedFactor_mono (t t' : nat) :
  (t <= t')%nat -> Qmin (seconds t / 30) 1 <= Qmin (seconds t' / 30) 1.
Proof.
  intros H. apply Q.min_le_compat_r.
  apply Qdiv_mono; [apply seconds_mono, H | lra].
Qed.

Lemma MediaRecorder_newMetrics_in_range (mt : MediaType) (t : nat) (rnd : Q) :
  unit_interval rnd -> in_range (MediaRecorder.newMetrics mt t rnd).
Proof.
  intros [Hr0 Hr1].
  pose proof (seconds_nonneg t) as Ht.
  pose proof (timeBasedFactor_bounds t) as [Hb0 Hb1].
  unfold in_range, sample_fields, MediaRecorder.newMetrics; cbn [a_volume a_pace a_clarity
    a_confidence a_facialExpressions a_eyeContact].
  set (tb := Qmin (seconds t / 30) 1) in *.
  repeat (apply List.Forall_cons); try apply List.Forall_nil;
    try (apply Qmin_percentage; lra);
    destruct mt; try (apply Qmin_percentage; lra); unfold percentage; lra.
Qed.

Lemma MediaRecorder_newMetrics_mono (mt : MediaType) (t t' : nat) (rnd : Q) :
  (t <= t')%nat ->
  sample_le (MediaRecorder.newMetrics mt t rnd) (MediaRecorder.newMetrics mt t' rnd).
Proof.
  intros H.
  pose proof (seconds_mono _ _ H) as Hs.
  pose proof (timeBasedFactor_mono _ _ H) as Hb.
  unfold sample_le, sample_fields, MediaRecorder.newMetrics; cbn [a_volume a_pace a_clarity
    a_confidence a_facialExpressions a_eyeContact].
  set (tb := Qmin (seconds t / 30) 1) in *.
  set (tb' := Qmin (seconds t' / 30) 1) in *.
  repeat (apply List.Forall2_cons); try apply List.Forall2_nil;
    try (apply Qmin_cap_mono; lra);
    destruct mt; try (apply Qmin_cap_mono; lra); lra.
Qed.

Lemma WebcamRecorder_newAnalysis_in_range (t : nat) (r1 r2 r3 r4 : Q) :
  unit_interval r1 -> unit_interval r2 -> unit_interval r3 -> unit_interval r4 ->
  in_range (WebcamRecorder.newAnalysis t r1 r2 r3 r4).
Proof.
  intros [? ?] [? ?] [? ?] [? ?].
  pose proof (seconds_nonneg t) as Ht.
  assert (0 <= seconds t / 15) by (apply Qdiv_nonneg; lra).
  assert (0 <= seconds t / 30) by (apply Qdiv_nonneg; lra).
  unfold in_range, sample_fields, WebcamRecorder.newAnalysis; cbn [a_volume a_pace a_clarity
    a_confidence a_facialExpressions a_eyeContact].
  repeat (apply List.Forall_cons); try apply List.Forall_nil; apply Qmin_percentage; lra.
Qed.

Lemma WebcamRecorder_newAnalysis_mono (t t' : nat) (r1 r2 r3 r4 : Q) :
  (t <= t')%nat ->
  sample_le (WebcamRecorder.newAnalysis t r1 r2 r3 r4)
            (WebcamRecorder.newAnalysis t' r1 r2 r3 r4).
Proof.
  intros H.
  pose proof (seconds_mono _ _ H) as Hs.
  assert (seconds t / 15 <= seconds t' / 15) by (apply Qdiv_mono; lra).
  assert (seconds t / 30 <= seconds t' / 30) by (apply Qdiv_mono; lra).
  unfold sample_le, sample_fields, WebcamRecorder.newAnalysis; cbn [a_volume a_pace a_clarity
    a_confidence a_facialExpressions a_eyeContact].
  repeat (apply List.Forall2_cons); try apply List.Forall2_nil; apply Qmin_cap_mono; lra.
Qed.

Lemma skipn_length_app {A} (l l' : list A) : skipn (length l) (l ++ l') = l'.
Proof. induction l; simpl; auto. Qed.

Lemma skipn_length_self {A} (l : list A) : skipn (length l) l = [].
Proof. induction l; simpl; auto. Qed.

Lemma MediaRecorder_updateAnalysis_emits (rnd : Q) (r : Render) (s : State) :
  emittedBy (MediaRecorder.updateAnalysis rnd r) s =
  if isRecording (cap r)
  then [MediaRecorder.newMetrics (mediaType (cap r)) (recordingTime (cap r)) rnd]
  else [].
Proof.
  unfold emittedBy, MediaRecorder.updateAnalysis.
  destruct (isRecording (cap r)); cbn.
  - apply skipn_length_app.
  - apply skipn_length_self.
Qed.

Lemma WebcamRecorder_analyzeVideo_emits (r1 r2 r3 r4 : Q) (r : Render) (s : State) :
  emittedBy (WebcamRecorder.analyzeVideo r1 r2 r3 r4 r) s =
  if isRecording (cap r)
  then [WebcamRecorder.newAnalysis (recordingTime (cap r)) r1 r2 r3 r4]
  else [].
Proof.
  unfold emittedBy, WebcamRecorder.analyzeVideo.
  destruct (isRecording (cap r)); cbn.
  - apply skipn_length_app.
  - apply skipn_length_self.
Qed.

(** Once a field has reached the cap it stays there. *)
Lemma saturated_stays (m m' : AnalysisSample) :
  sample_le m m' -> in_range m' ->
  Forall2 (fun x y => x == 100 -> y == 100) (sample_fields m) (sample_fields m').
Proof.
  unfold sample_le, in_range.
  generalize (sample_fields m) (sample_fields m').
  induction 1 as [|x y l l' Hxy _ IH]; intros Hr; constructor.
  - apply List.Forall_inv in Hr. destruct Hr as [_ Hy]. intros Hx. lra.
  - apply IH. eapply List.Forall_inv_tail, Hr.
Qed.

(** C9.  Every sample emitted by [MediaRecorder.updateAnalysis] and by
    [WebcamRecorder.analyzeVideo] has its six fields in [[0,100]]; for fixed
    jitter (in particular for jitter 0, the deterministic part) every field
    is non-decreasing in the elapsed recording time and capped at 100: a
    field that has reached 100 stays at 100; and in audio mode the two
    video-only fields of an emitted sample are 0. *)
Theorem analysis_samples_bounded_monotone_capped
    (r : Render) (s : State) (t t' : nat) (rnd r1 r2 r3 r4 : Q) :
  unit_interval rnd -> unit_interval r1 -> unit_interval r2 ->
  unit_interval r3 -> unit_interval r4 -> (t <= t')%nat ->
  Forall in_range (emittedBy (MediaRecorder.updateAnalysis rnd r) s) /\
  Forall in_range (emittedBy (WebcamRecorder.analyzeVideo r1 r2 r3 r4 r) s) /\
  (forall mt,
     let m := MediaRecorder.newMetrics mt t rnd in
     let m' := MediaRecorder.newMetrics mt t' rnd in
     sample_le m m' /\
     Forall2 (fun x y => x == 100 -> y == 100) (sample_fields m) (sample_fields m')) /\
  (let m := WebcamRecorder.newAnalysis t r1 r2 r3 r4 in
   let m' := WebcamRecorder.newAnalysis t' r1 r2 r3 r4 in
   sample_le m m' /\
   Forall2 (fun x y => x == 100 -> y == 100) (sample_fields m) (sample_fields m')) /\
  (mediaType (cap r) = audio ->
   Forall (fun m => a_facialExpressions m = 0 /\ a_eyeContact m = 0)
     (emittedBy (MediaRecorder.updateAnalysis rnd r) s)).
Proof.
  intros Hrnd H1 H2 H3 H4 Ht.
  rewrite MediaRecorder_updateAnalysis_emits, WebcamRecorder_analyzeVideo_emits.
  repeat split.
  - destruct (isRecording (cap r)); constructor; [|constructor].
    apply MediaRecorder_newMetrics_in_range, Hrnd.
  - destruct (isRecording (cap r)); constructor; [|constructor].
    apply WebcamRecorder_newAnalysis_in_range; assumption.
  - apply MediaRecorder_newMetrics_mono, Ht.
  - apply saturated_stays.
    + apply MediaRecorder_newMetrics_mono, Ht.
    + apply MediaRecorder_newMetrics_in_range, Hrnd.
  - apply WebcamRecorder_newAnalysis_mono, Ht.
  - apply saturated_stays.
    + apply WebcamRecorder_newAnalysis_mono, Ht.
    + apply WebcamRecorder_newAnalysis_in_range; assumption.
  - intros Ha. rewrite Ha.
    destruct (isRecording (cap r)); constructor; [|constructor].
    split; reflexivity.
Qed.

Lemma analysis_samples_witness :
  Forall in_range (emittedBy (event (MediaRecorder.updateAnalysis 0.5)) recordingState) /\
  emittedBy (event (MediaRecorder.updateAnalysis 0.5)) recordingState <> [] /\
  a_volume (MediaRecorder.newMetrics audio 40 0.5) == 100.
Proof.
  split; [|split].
  - apply (analysis_samples_bounded_monotone_capped recordingState recordingState
             3 40 0.5 0.5 0.5 0.5 0.5);
      unfold unit_interval; try lra; lia.
  - discriminate.
  - reflexivity.
Defined.

(** ** Seek, volume and mute *)

Lemma Qgtb_true (a b : Q) : b < a -> Qgtb a b = true.
Proof.
  intros H. unfold Qgtb. destruct (Qle_bool a b) eqn:E; [|reflexivity].
  apply Qle_bool_iff in E. lra.
Qed.

Lemma Qgtb_false (a b : Q) : a <= b -> Qgtb a b = false.
Proof.
  intros H. unfold Qgtb. apply Qle_bool_iff in H. rewrite H. reflexivity.
Qed.

(** C5, as stated, fails: seeking a 30-second recording to [duration + 10]
    leaves [currentTime] at 40, beyond [duration]. *)
Lemma seek_past_end_not_clamped :
  let s := handleSliderChange (30 + 10) (playerState audio) in
  duration (pb s) == 30 /\ currentTime (pb s) == 40 /\
  ~ currentTime (pb s) <= duration (pb s).
Proof.
  cbn. repeat split; try reflexivity.
  intros H. apply Qle_bool_iff in H. discriminate H.
Qed.

(** C5, amended.  [handleSliderChange] stores its argument unchanged, in
    the [currentTime] cell and in the playback element, and leaves
    [duration] alone: the resulting [currentTime] lies in [[0, duration]]
    whenever the argument does. *)
Theorem seek_keeps_argument (t : Q) (s : State) :
  is_Some (mediaRef (pb s)) ->
  let s' := handleSliderChange t s in
  currentTime (pb s') = t /\
  option_map el_currentTime (mediaRef (pb s')) = Some t /\
  duration (pb s') = duration (pb s) /\
  (0 <= t <= duration (pb s) -> 0 <= currentTime (pb s') <= duration (pb s')).
Proof.
  intros [el Hel]. unfold handleSliderChange. rewrite Hel. cbn.
  rewrite Hel. cbn. auto.
Qed.

Lemma seek_keeps_argument_witness :
  let s' := handleSliderChange 12.5 (playerState audio) in
  currentTime (pb s') = 12.5 /\ 0 <= currentTime (pb s') <= duration (pb s').
Proof.
  pose proof (seek_keeps_argument 12.5 (playerState audio)) as H.
  cbn zeta in H. destruct H as (H1 & _ & _ & H4).
  - cbn. eauto.
  - split; [exact H1|]. apply H4. cbn. split; apply Qle_bool_iff; reflexivity.
Defined.

(** C6, as stated, fails: [handleVolumeChange] with level 0 on an unmuted
    player leaves it unmuted. *)
Lemma setVolume_zero_not_muted :
  isMuted (pb (playerState audio)) = false /\
  volume (pb (handleVolumeChange 0 (playerState audio))) = 0 /\
  isMuted (pb (handleVolumeChange 0 (playerState audio))) <> true.
Proof. repeat split. discriminate. Qed.

(** C6, amended.  For a level in the range [0, 1] of the volume slider,
    [handleVolumeChange] stores the level as the volume; a level above 0
    clears [isMuted]; level 0 leaves [isMuted] as it was. *)
Theorem setVolume_clears_muted_above_zero (level : Q) (s : State) :
  0 <= level <= 1 ->
  let s' := handleVolumeChange level s in
  volume (pb s') = level /\
  (0 < level -> isMuted (pb s') = false) /\
  (level == 0 -> isMuted (pb s') = isMuted (pb s)).
Proof.
  intros _. unfold handleVolumeChange. cbn zeta. repeat split.
  - destruct (Qgtb level 0); reflexivity.
  - intros H. rewrite (Qgtb_true _ _ H). reflexivity.
  - intros H. rewrite Qgtb_false; [reflexivity|]. rewrite H. apply Qle_refl.
Qed.

Lemma setVolume_clears_muted_witness :
  isMuted (pb (handleVolumeChange 0.7 (setIsMuted true (playerState audio)))) = false /\
  isMuted (pb (handleVolumeChange 0 (setIsMuted true (playerState audio)))) = true.
Proof.
  split.
  - apply (setVolume_clears_muted_above_zero 0.7 (setIsMuted true (playerState audio))).
    + split; discriminate.
    + reflexivity.
  - apply (setVolume_clears_muted_above_zero 0 (setIsMuted true (playerState audio))).
    + split; discriminate.
    + reflexivity.
Defined.

(** C7.  For a volume [v] in [(0,1]] and an unmuted player,
    [handleVolumeChange v], [toggleMute], [toggleMute] leaves the playback
    element, and the [volume] cell, at exactly [v]: the first [toggleMute]
    stores [v] in [previousVolume] and silences the element, the second
    restores it. *)
Theorem volume_mute_roundtrip (v : Q) (s : State) :
  0 < v <= 1 -> isMuted (pb s) = false -> is_Some (mediaRef (pb s)) ->
  let muted := toggleMute (handleVolumeChange v s) in
  let s' := toggleMute muted in
  (isMuted (pb muted) = true /\ previousVolume (pb muted) = v /\
   effectiveVolume muted = Some 0) /\
  effectiveVolume s' = Some v /\ volume (pb s') = v /\ isMuted (pb s') = false.
Proof.
  intros [Hv _] Hm [el Hel].
  unfold handleVolumeChange, toggleMute, effectiveVolume.
  rewrite (Qgtb_true _ _ Hv).
  destruct s as [p c d b]; destruct p; cbn in *; subst; cbn. auto.
Qed.

Lemma volume_mute_roundtrip_witness :
  effectiveVolume (toggleMute (toggleMute (handleVolumeChange 0.7 (playerState audio))))
  = Some 0.7.
Proof.
  apply (volume_mute_roundtrip 0.7 (playerState audio)).
  - split; [reflexivity | discriminate].
  - reflexivity.
  - cbn. eauto.
Defined.

(** ** Recording sessions *)

Local Close Scope Q_scope.
#[local] Arguments Nat.ltb : simpl never.
#[local] Arguments Nat.eqb : simpl never.

Lemma setChunksRef_same (s : State) : setChunksRef (chunksRef (cap s)) s = s.
Proof. destruct s as [p c d b]; destruct c; reflexivity. Qed.

Lemma MediaRecorder_data_events (evs : list (option Blob)) (s : State) :
  fold_left (fun s d => MediaRecorder.ondataavailable d s) evs s =
  setChunksRef (chunksRef (cap s) ++ deliveredChunks evs) s.
Proof.
  revert s. induction evs as [|d evs IH]; intros s; cbn.
  - rewrite app_nil_r. symmetry. apply setChunksRef_same.
  - rewrite IH. destruct d as [b|]; cbn; [destruct (0 <? blob_size b)%nat; cbn|].
    + rewrite <- app_assoc. reflexivity.
    + reflexivity.
    + reflexivity.
Qed.

Lemma AudioRecorder_data_events (evs : list (option Blob)) (s : State) :
  fold_left (fun s d => AudioRecorder.ondataavailable d s) evs s =
  setChunksRef (chunksRef (cap s) ++ deliveredChunks evs) s.
Proof.
  revert s. induction evs as [|d evs IH]; intros s; cbn.
  - rewrite app_nil_r. symmetry. apply setChunksRef_same.
  - rewrite IH. destruct d as [b|]; cbn; [destruct (0 <? blob_size b)%nat; cbn|].
    + rewrite <- app_assoc. reflexivity.
    + reflexivity.
    + reflexivity.
Qed.

Lemma deliveredChunks_app (l l' : list (option Blob)) :
  deliveredChunks (l ++ l') = (deliveredChunks l ++ deliveredChunks l')%list.
Proof. unfold deliveredChunks. apply flat_map_app. Qed.

Lemma deliveredChunks_positive (evs : list (option Blob)) :
  Forall (fun b => 0 < blob_size b) (deliveredChunks evs).
Proof.
  induction evs as [|[b|] evs IH]; cbn; auto.
  destruct (0 <? blob_size b)%nat eqn:E; cbn; auto.
  constructor; [|exact IH]. apply Nat.ltb_lt, E.
Qed.

Lemma deliveredChunks_nil_iff (evs : list (option Blob)) :
  deliveredChunks evs = [] <-> ~ Exists nonEmptyChunk evs.
Proof.
  induction evs as [|d evs IH]; cbn.
  - split; [intros _ H; inversion H | reflexivity].
  - destruct d as [b|]; [destruct (0 <? blob_size b)%nat eqn:E|]; cbn.
    + split; [discriminate|]. intros H. exfalso. apply H. left.
      exists b. split; [reflexivity|]. apply Nat.ltb_lt, E.
    + rewrite IH. split; intros H.
      * intros HE. inversion HE as [? ? (b' & Hb & Hlt)|]; subst; [|tauto].
        injection Hb as <-. apply Nat.ltb_ge in E. lia.
      * intros HE. apply H. right. exact HE.
    + rewrite IH. split; intros H.
      * intros HE. inversion HE as [? ? (b' & Hb & Hlt)|]; subst; [discriminate|tauto].
      * intros HE. apply H. right. exact HE.
Qed.

Lemma deliveredChunks_cons_exists (evs : list (option Blob)) :
  deliveredChunks evs <> [] -> Exists nonEmptyChunk evs.
Proof.
  induction evs as [|d evs IH]; cbn; [congruence|].
  destruct d as [b|]; [destruct (0 <? blob_size b)%nat eqn:E|]; cbn.
  - intros _. left. exists b. split; [reflexivity|]. apply Nat.ltb_lt, E.
  - intros H. right. apply IH, H.
  - intros H. right. apply IH, H.
Qed.

Lemma new_Blob_positive (parts : list Blob) (type : string) :
  parts <> [] -> Forall (fun b => 0 < blob_size b) parts ->
  0 < blob_size (new_Blob parts type).
Proof.
  intros Hne Hpos. destruct parts as [|b parts]; [congruence|].
  apply List.Forall_inv in Hpos. cbn. lia.
Qed.

Lemma MediaRecorder_performTranscription_cap (e : TranscriptionEnv) (r : Render)
    (s : State) :
  cap (snd (MediaRecorder.performTranscription e r s)) = cap s.
Proof.
  unfold MediaRecorder.performTranscription. cbn.
  destruct (isWhisperSupportedState (drv r)); cbn.
  - destruct (ClientTranscription.transcribeAudioClient _ _ _ _) as [[t|msg|] m]; cbn;
      try reflexivity.
    destruct (ClientTranscription.transcribeAudioFallback _); reflexivity.
  - destruct (ClientTranscription.transcribeAudioFallback _); reflexivity.
Qed.

(** The finalization callback of [MediaRecorder] on a buffer of non-empty
    chunks. *)
Lemma MediaRecorder_onstop_blob (mimeType : string) (e : TranscriptionEnv)
    (r : Render) (s : State) :
  Forall (fun b => 0 < blob_size b) (chunksRef (cap s)) ->
  let s' := MediaRecorder.onstop mimeType e r s in
  match chunksRef (cap s) with
  | [] =>
      recordedBlob (cap s') = recordedBlob (cap s) /\
      error (cap s') =
        Some ("No " +:+ mediaType_str (mediaType (cap r)) +:+
              " data was recorded. Please try again.") /\
      completed (env s') = completed (env s)
  | _ => recordedBlob (cap s') = Some (new_Blob (chunksRef (cap s)) mimeType)
  end.
Proof.
  intros Hpos. unfold MediaRecorder.onstop.
  destruct (chunksRef (cap s)) as [|b chunks] eqn:Hchunks; cbn zeta.
  - cbn. auto.
  - pose proof (new_Blob_positive (b :: chunks) mimeType ltac:(discriminate) Hpos) as Hsz.
    destruct (blob_size (new_Blob (b :: chunks) mimeType) =? 0)%nat eqn:E.
    + apply Nat.eqb_eq in E. lia.
    + unfold MediaRecorder.revokeMediaUrl.
      destruct (mediaUrl (cap r)), (mediaType (cap r)); cbn;
        try reflexivity;
        match goal with
        | |- context [MediaRecorder.performTranscription ?e ?r ?s] =>
            pose proof (MediaRecorder_performTranscription_cap e r s) as Hc;
            destruct (MediaRecorder.performTranscription e r s) as [[t|msg|] s'];
            cbn in Hc |- *; rewrite Hc; reflexivity
        end.
Qed.

Lemma AudioRecorder_onstop_blob (mimeType : string) (r : Render) (s : State) :
  Forall (fun b => 0 < blob_size b) (chunksRef (cap s)) ->
  let s' := AudioRecorder.onstop mimeType r s in
  match chunksRef (cap s) with
  | [] =>
      recordedBlob (cap s') = recordedBlob (cap s) /\
      error (cap s') = Some "No audio data was recorded. Please try again." /\
      completed (env s') = completed (env s)
  | _ => recordedBlob (cap s') = Some (new_Blob (chunksRef (cap s)) mimeType)
  end.
Proof.
  intros Hpos. unfold AudioRecorder.onstop.
  destruct (chunksRef (cap s)) as [|b chunks] eqn:Hchunks; cbn zeta.
  - cbn. auto.
  - pose proof (new_Blob_positive (b :: chunks) mimeType ltac:(discriminate) Hpos) as Hsz.
    destruct (blob_size (new_Blob (b :: chunks) mimeType) =? 0)%nat eqn:E.
    + apply Nat.eqb_eq in E. lia.
    + destruct (mediaUrl (cap r)); reflexivity.
Qed.

(** The state the finalization callback runs in. *)
Lemma MediaRecorder_session_buffer (h : Host) (before flushed : list (option Blob))
    (s : State) :
  is_Some (streamRef (cap s)) -> isMediaRecorderSupported (cap s) = true ->
  constructorError h = None ->
  let s3 :=
    fold_left (fun s d => MediaRecorder.ondataavailable d s) flushed
      (event MediaRecorder.stopRecording
         (fold_left (fun s d => MediaRecorder.ondataavailable d s) before
            (event (MediaRecorder.startRecording h) s))) in
  chunksRef (cap s3) = deliveredChunks (before ++ flushed) /\
  recordedBlob (cap s3) = recordedBlob (cap s) /\
  mediaType (cap s3) = mediaType (cap s) /\
  completed (env s3) = completed (env s).
Proof.
  intros [i Hi] Hsup Hctor. cbn zeta.
  rewrite !MediaRecorder_data_events, deliveredChunks_app.
  unfold event, MediaRecorder.startRecording. rewrite Hsup, Hi, Hctor.
  destruct s as [p c d b]; destruct p as [? ? ? ? ? ? ? ? ? ptimer]; destruct c.
  destruct ptimer; cbn; auto.
Qed.

Lemma AudioRecorder_session_buffer (h : Host) (before flushed : list (option Blob))
    (s : State) :
  is_Some (streamRef (cap s)) -> constructorError h = None ->
  let s3 :=
    fold_left (fun s d => AudioRecorder.ondataavailable d s) flushed
      (event AudioRecorder.stopRecording
         (fold_left (fun s d => AudioRecorder.ondataavailable d s) before
            (AudioRecorder.startRecording h s))) in
  chunksRef (cap s3) = deliveredChunks (before ++ flushed) /\
  recordedBlob (cap s3) = recordedBlob (cap s) /\
  completed (env s3) = completed (env s).
Proof.
  intros [i Hi] Hctor. cbn zeta.
  rewrite !AudioRecorder_data_events, deliveredChunks_app.
  unfold event, AudioRecorder.startRecording. rewrite Hi, Hctor.
  destruct s as [p c d b]; destruct c. cbn in Hi. subst. cbn. auto.
Qed.

Lemma MediaRecorder_session_result (h : Host) (e : TranscriptionEnv)
    (before flushed : list (option Blob)) (s : State) :
  is_Some (streamRef (cap s)) -> isMediaRecorderSupported (cap s) = true ->
  constructorError h = None -> recordedBlob (cap s) = None ->
  let s' := MediaRecorder_session h e before flushed s in
  (is_Some (recordedBlob (cap s')) <-> Exists nonEmptyChunk (before ++ flushed)) /\
  (forall b, recordedBlob (cap s') = Some b -> 0 < blob_size b) /\
  (~ Exists nonEmptyChunk (before ++ flushed) ->
   recordedBlob (cap s') = None /\
   error (cap s') =
     Some ("No " +:+ mediaType_str (mediaType (cap s)) +:+
           " data was recorded. Please try again.") /\
   completed (env s') = completed (env s)).
Proof.
  intros Hi Hsup Hctor Hblob. unfold MediaRecorder_session.
  destruct (MediaRecorder_session_buffer h before flushed s Hi Hsup Hctor)
    as (Hchunks & Hrec & Hmt & Hdone).
  cbn zeta in *.
  set (s3 := fold_left _ flushed _) in *.
  pose proof (deliveredChunks_positive (before ++ flushed)) as Hpos.
  pose proof (deliveredChunks_nil_iff (before ++ flushed)) as Hnil.
  pose proof (MediaRecorder_onstop_blob (recorderMimeType s3) e s s3) as Hstop.
  rewrite Hchunks in Hstop. specialize (Hstop Hpos). cbn zeta in Hstop.
  destruct (deliveredChunks (before ++ flushed)) as [|b chunks] eqn:Hd.
  - destruct Hstop as (Hb & Herr & Hc).
    assert (Hno : ~ Exists nonEmptyChunk (before ++ flushed)) by (apply Hnil; reflexivity).
    rewrite Hb, Hrec, Hblob, Herr, Hc, Hdone.
    split; [|split].
    + split; [intros [? ?]; discriminate | tauto].
    + discriminate.
    + auto.
  - assert (Hyes : Exists nonEmptyChunk (before ++ flushed)).
    { apply deliveredChunks_cons_exists. rewrite Hd. discriminate. }
    rewrite Hstop. split; [|split].
    + split; [tauto | eauto].
    + intros b' Hb'. injection Hb' as <-.
      apply new_Blob_positive; [discriminate | exact Hpos].
    + tauto.
Qed.

Lemma AudioRecorder_session_result (h : Host)
    (before flushed : list (option Blob)) (s : State) :
  is_Some (streamRef (cap s)) ->
  constructorError h = None -> recordedBlob (cap s) = None ->
  let s' := AudioRecorder_session h before flushed s in
  (is_Some (recordedBlob (cap s')) <-> Exists nonEmptyChunk (before ++ flushed)) /\
  (forall b, recordedBlob (cap s') = Some b -> 0 < blob_size b) /\
  (~ Exists nonEmptyChunk (before ++ flushed) ->
   recordedBlob (cap s') = None /\
   error (cap s') = Some "No audio data was recorded. Please try again." /\
   completed (env s') = completed (env s)).
Proof.
  intros Hi Hctor Hblob. unfold AudioRecorder_session.
  destruct (AudioRecorder_session_buffer h before flushed s Hi Hctor)
    as (Hchunks & Hrec & Hdone).
  cbn zeta in *.
  set (s3 := fold_left _ flushed _) in *.
  pose proof (deliveredChunks_positive (before ++ flushed)) as Hpos.
  pose proof (deliveredChunks_nil_iff (before ++ flushed)) as Hnil.
  pose proof (AudioRecorder_onstop_blob (recorderMimeType s3) s s3) as Hstop.
  rewrite Hchunks in Hstop. specialize (Hstop Hpos). cbn zeta in Hstop.
  destruct (deliveredChunks (before ++ flushed)) as [|b chunks] eqn:Hd.
  - destruct Hstop as (Hb & Herr & Hc).
    assert (Hno : ~ Exists nonEmptyChunk (before ++ flushed)) by (apply Hnil; reflexivity).
    rewrite Hb, Hrec, Hblob, Herr, Hc, Hdone.
    split; [|split].
    + split; [intros [? ?]; discriminate | tauto].
    + discriminate.
    + auto.
  - assert (Hyes : Exists nonEmptyChunk (before ++ flushed)).
    { apply deliveredChunks_cons_exists. rewrite Hd. discriminate. }
    rewrite Hstop. split; [|split].
    + split; [tauto | eauto].
    + intros b' Hb'. injection Hb' as <-.
      apply new_Blob_positive; [discriminate | exact Hpos].
    + tauto.
Qed.

(** C1.  In [MediaRecorder] and in [AudioRecorder], a recording session
    started on a held stream with no earlier result ends with a result blob
    if and only if a non-empty data chunk was delivered before the
    finalization callback; the blob is then not empty.  With no such chunk
    no blob is produced, [onRecordingComplete] is not called and the error
    message of the empty recording is set. *)
Theorem recordedBlob_iff_nonempty_chunk (h : Host) (e : TranscriptionEnv)
    (before flushed : list (option Blob)) (s : State) :
  is_Some (streamRef (cap s)) -> isMediaRecorderSupported (cap s) = true ->
  constructorError h = None -> recordedBlob (cap s) = None ->
  let m := MediaRecorder_session h e before flushed s in
  let a := AudioRecorder_session h before flushed s in
  (is_Some (recordedBlob (cap m)) <-> Exists nonEmptyChunk (before ++ flushed)) /\
  (is_Some (recordedBlob (cap a)) <-> Exists nonEmptyChunk (before ++ flushed)) /\
  (forall b, recordedBlob (cap m) = Some b \/ recordedBlob (cap a) = Some b ->
             0 < blob_size b) /\
  (~ Exists nonEmptyChunk (before ++ flushed) ->
   (recordedBlob (cap m) = None /\
    error (cap m) =
      Some ("No " +:+ mediaType_str (mediaType (cap s)) +:+
            " data was recorded. Please try again.") /\
    completed (env m) = completed (env s)) /\
   (recordedBlob (cap a) = None /\
    error (cap a) = Some "No audio data was recorded. Please try again." /\
    completed (env a) = completed (env s))).
Proof.
  intros Hi Hsup Hctor Hblob.
  destruct (MediaRecorder_session_result h e before flushed s Hi Hsup Hctor Hblob)
    as (M1 & M2 & M3).
  destruct (AudioRecorder_session_result h before flushed s Hi Hctor Hblob)
    as (A1 & A2 & A3).
  cbn zeta in *. split; [exact M1 | split; [exact A1 | split]].
  - intros b [Hb|Hb]; eauto.
  - intros Hno. split; [apply M3, Hno | apply A3, Hno].
Qed.

Lemma recordedBlob_iff_nonempty_chunk_witness :
  let s := AudioRecorder.startMicrophone Granted (initialState audio) in
  let chunk := Some (mkBlob 1024 "audio/webm") in
  is_Some (recordedBlob (cap (AudioRecorder_session grantedHost [chunk; chunk; chunk] [] s))) /\
  recordedBlob (cap (AudioRecorder_session grantedHost [None] [] s)) = None.
Proof.
  pose (e := mkTranscriptionEnv ClientTranscription.NoWindow None
               (ClientTranscription.mkPipelineRun Pending Pending Pending)
               (ClientTranscription.mkSpeechApi false false [])).
  pose (s := AudioRecorder.startMicrophone Granted (initialState audio)).
  pose (chunk := Some (mkBlob 1024 "audio/webm")).
  assert (Hs : is_Some (streamRef (cap s))) by (cbn; eauto).
  split.
  - apply (recordedBlob_iff_nonempty_chunk grantedHost e [chunk; chunk; chunk] [] s Hs
             eq_refl eq_refl eq_refl).
    left. exists (mkBlob 1024 "audio/webm"). split; [reflexivity | cbn; lia].
  - apply (recordedBlob_iff_nonempty_chunk grantedHost e [None] [] s Hs
             eq_refl eq_refl eq_refl).
    intros H. inversion H as [? ? (b & Hb & _)|? ? H']; [discriminate | inversion H'].
Defined.

(** [WebcamRecorder], which finalizes without looking at the buffer, stores
    an empty blob when no chunk was delivered. *)
Lemma WebcamRecorder_onstop_empty (r : Render) (s : State) :
  chunksRef (cap s) = [] ->
  recordedBlob (cap (WebcamRecorder.onstop r s)) = Some (mkBlob 0 "video/webm").
Proof.
  intros H. unfold WebcamRecorder.onstop. rewrite H.
  destruct (mediaUrl (cap r)); reflexivity.
Qed.

(** ** The acquire retry *)

Lemma AudioRecorder_startRecording_denied (h : Host) (s : State) :
  denies h -> streamRef (cap s) = None ->
  let s' := AudioRecorder.startRecording h s in
  streamRef (cap s') = None /\
  startTimeouts (env s') = S (startTimeouts (env s)) /\
  is_Some (error (cap s')) /\
  isRecording (cap s') = isRecording (cap s).
Proof.
  intros (name & message & Hh) Hs. unfold AudioRecorder.startRecording.
  rewrite Hs, Hh. destruct s as [p c d b]; destruct c; cbn in *. eauto.
Qed.

Lemma reinvocations_fire (startTimeout : Host -> State -> State)
    (h : Host) (hs : list Host) (s : State) :
  0 < startTimeouts (env s) ->
  reinvocations startTimeout (h :: hs) s =
  (S (fst (reinvocations startTimeout hs (startTimeout h s))),
   snd (reinvocations startTimeout hs (startTimeout h s))).
Proof.
  intros H. cbn [reinvocations].
  destruct (startTimeouts (env s)); [lia|].
  destruct (reinvocations startTimeout hs (startTimeout h s)); reflexivity.
Qed.

Lemma reinvocations_idle (startTimeout : Host -> State -> State)
    (hs : list Host) (s : State) :
  startTimeouts (env s) = 0 -> reinvocations startTimeout hs s = (0, s).
Proof. intros H. destruct hs; cbn [reinvocations]; [|rewrite H]; reflexivity. Qed.

Lemma AudioRecorder_retry_loop (hs : list Host) (s : State) :
  Forall denies hs -> streamRef (cap s) = None -> 0 < startTimeouts (env s) ->
  fst (reinvocations AudioRecorder.startTimeout hs s) = length hs /\
  let s' := snd (reinvocations AudioRecorder.startTimeout hs s) in
  streamRef (cap s') = None /\
  startTimeouts (env s') = startTimeouts (env s) /\
  isRecording (cap s') = isRecording (cap s).
Proof.
  intros Hhs. revert s. induction Hhs as [|h hs Hh _ IH]; intros s Hs Hpending.
  - cbn. auto.
  - rewrite reinvocations_fire by assumption. cbn [fst snd length].
    destruct (startTimeouts (env s)) as [|n] eqn:Hn; [lia|].
    assert (Heq : AudioRecorder.startTimeout h s =
                  AudioRecorder.startRecording h (setStartTimeouts n s)).
    { unfold AudioRecorder.startTimeout. rewrite Hn. reflexivity. }
    rewrite Heq.
    destruct (AudioRecorder_startRecording_denied h (setStartTimeouts n s) Hh)
      as (H1 & H2 & _ & H4).
    { destruct s as [p c d b]; exact Hs. }
    cbn zeta in *.
    destruct (IH (AudioRecorder.startRecording h (setStartTimeouts n s)) H1)
      as (Hk & Hs' & Ht & Hr); [lia|].
    cbn zeta in *. rewrite Hk, Hs', Ht, Hr, H2, H4.
    destruct s as [p c d b]; destruct b; cbn. auto.
Qed.

(** C3, [AudioRecorder].  When the permission prompt is denied every time,
    [startRecording] without a stream is re-invoked once per timer round,
    with another [setTimeout(startRecording)] pending after each: the
    number of re-invocations is the number of rounds, not at most one. *)
Theorem AudioRecorder_acquire_retry_unbounded (h : Host) (hs : list Host) (s : State) :
  denies h -> Forall denies hs -> streamRef (cap s) = None ->
  let r := reinvocations AudioRecorder.startTimeout hs (AudioRecorder.startRecording h s) in
  fst r = length hs /\
  startTimeouts (env (snd r)) = S (startTimeouts (env s)) /\
  streamRef (cap (snd r)) = None.
Proof.
  intros Hh Hhs Hs. cbn zeta.
  destruct (AudioRecorder_startRecording_denied h s Hh Hs) as (H1 & H2 & _ & _).
  cbn zeta in *.
  destruct (AudioRecorder_retry_loop hs (AudioRecorder.startRecording h s) Hhs H1)
    as (Hk & Hs' & Ht & _); [lia|].
  cbn zeta in *. rewrite Hk, Hs', Ht, H2. auto.
Qed.

Lemma AudioRecorder_acquire_retry_witness :
  fst (reinvocations AudioRecorder.startTimeout (repeat deniedHost 5)
         (AudioRecorder.startRecording deniedHost (initialState audio))) = 5.
Proof.
  assert (Hd : denies deniedHost) by (do 2 eexists; reflexivity).
  apply (AudioRecorder_acquire_retry_unbounded deniedHost (repeat deniedHost 5)
           (initialState audio) Hd).
  - repeat constructor; exact Hd.
  - reflexivity.
Defined.

(** The sibling: [MediaRecorder.startRecording] only schedules the retry
    when the stream has arrived, so it is re-invoked at most once, and not
    at all when the prompt is denied; the denial is surfaced in [error]. *)
Lemma MediaRecorder_startRecording_held (h : Host) (r : Render) (s : State) :
  is_Some (streamRef (cap s)) ->
  startTimeouts (env (MediaRecorder.startRecording h r s)) = startTimeouts (env s).
Proof.
  intros [i Hi]. unfold MediaRecorder.startRecording. rewrite Hi.
  destruct (isMediaRecorderSupported (cap r)); cbn; [|reflexivity].
  destruct (constructorError h); reflexivity.
Qed.

Lemma MediaRecorder_updateAnalysis_frame (rnd : Q) (r : Render) (s : State) :
  cap (MediaRecorder.updateAnalysis rnd r s) = cap s /\
  startTimeouts (env (MediaRecorder.updateAnalysis rnd r s)) = startTimeouts (env s).
Proof.
  unfold MediaRecorder.updateAnalysis.
  destruct (isRecording (cap r)); cbn; auto.
Qed.

Lemma MediaRecorder_startMediaStream_outcome (a : Acquire) (rnd : Q) (r : Render)
    (s : State) :
  let s' := MediaRecorder.startMediaStream a rnd r s in
  startTimeouts (env s') = startTimeouts (env s) /\
  match a with
  | Granted => is_Some (streamRef (cap s'))
  | Denied _ _ => streamRef (cap s') = streamRef (cap s) /\ is_Some (error (cap s'))
  end.
Proof.
  unfold MediaRecorder.startMediaStream, MediaRecorder.startAnalysisSimulation.
  destruct a as [|name message]; cbn.
  - match goal with |- context [MediaRecorder.updateAnalysis ?q ?r ?x] =>
      destruct (MediaRecorder_updateAnalysis_frame q r x) as [Hc Ht]
    end.
    rewrite Hc, Ht. cbn. eauto.
  - eauto.
Qed.

(** X26.  The acquire retry of [MediaRecorder.startRecording] is guarded
    by [if (streamRef.current)].  Called with no stream held and no timeout
    pending, it re-invokes itself at most once, whatever the later prompts
    answer; when the prompt is denied it does not re-invoke itself at all
    and an error is shown. *)
Lemma MediaRecorder_acquire_retry_bounded (h : Host) (hs : list Host) (s : State) :
  streamRef (cap s) = None -> startTimeouts (env s) = 0 ->
  let run := reinvocations (MediaRecorder.startTimeout s) hs
               (event (MediaRecorder.startRecording h) s) in
  fst run <= 1 /\
  (denies h -> fst run = 0 /\ is_Some (error (cap (snd run)))).
Proof.
  intros Hs H0. cbn zeta. unfold event.
  set (s1 := MediaRecorder.startRecording h s s).
  assert (Hcases :
    (startTimeouts (env s1) = 0 /\ (denies h -> is_Some (error (cap s1)))) \/
    (startTimeouts (env s1) = 1 /\ is_Some (streamRef (cap s1)) /\ ~ denies h)).
  { subst s1. unfold MediaRecorder.startRecording. rewrite Hs.
    destruct (isMediaRecorderSupported (cap s)); cbn [negb].
    - pose proof (MediaRecorder_startMediaStream_outcome (acquire h) (random h) s s)
        as Hout.
      cbn zeta in Hout.
      set (s' := MediaRecorder.startMediaStream (acquire h) (random h) s s) in *.
      destruct Hout as [Ht Ha]. clearbody s'.
      destruct (acquire h) as [|name message] eqn:Hacq.
      + destruct Ha as [i Hi]. rewrite Hi. right.
        destruct s' as [p c d b]; destruct b; cbn in *. rewrite Ht, H0.
        split; [reflexivity | split; [eauto|]].
        intros (? & ? & ?); congruence.
      + destruct Ha as [Hsame Herr]. rewrite Hsame, Hs. left. rewrite Ht. auto.
    - left. cbn. eauto. }
  destruct Hcases as [(Hidle & Herr)|(Hone & Hheld & Hnot)].
  - rewrite reinvocations_idle by assumption. cbn. split; [lia | auto].
  - split; [|tauto].
    destruct hs as [|h' hs]; [cbn; lia|].
    rewrite reinvocations_fire by lia. cbn [fst].
    rewrite reinvocations_idle; [cbn; lia|].
    unfold MediaRecorder.startTimeout. rewrite Hone.
    rewrite MediaRecorder_startRecording_held.
    + destruct s1 as [p c d b]; reflexivity.
    + destruct s1 as [p c d b]; exact Hheld.
Qed.

(** ** Playback toggling *)

(** The guard of [MediaRecorder.togglePlayback]. *)
Lemma MediaRecorder_togglePlayback_busy (s : State) :
  isPlaybackInProgress (pb s) = true ->
  event MediaRecorder.togglePlayback s = (s, None).
Proof. intros H. unfold event, MediaRecorder.togglePlayback. rewrite H. reflexivity. Qed.

Lemma MediaRecorder_togglePlayback_suspended (s s1 : State) (k : Await) :
  event MediaRecorder.togglePlayback s = (s1, Some k) ->
  isPlaybackInProgress (pb s1) = true.
Proof.
  unfold event, MediaRecorder.togglePlayback, MediaRecorder.requestPlay.
  destruct (isPlaybackInProgress (pb s)); [discriminate|].
  destruct (mediaRef (pb s)) as [el|] eqn:Hel; [|discriminate].
  destruct (mediaUrl (cap s)); [|discriminate].
  cbn. destruct (isPlaying (pb s)); [|destruct (isMediaLoaded (pb s))]; cbn;
    intros H; injection H as <- _; reflexivity.
Qed.

Lemma MediaRecorder_resume_suspended (k k' : Await) (played : Result unit)
    (r : Render) (s s' : State) :
  isPlaybackInProgress (pb s) = true ->
  MediaRecorder.resume k played r s = (s', Some k') ->
  isPlaybackInProgress (pb s') = true.
Proof.
  intros Hbusy. unfold MediaRecorder.resume, MediaRecorder.requestPlay, MediaRecorder.finish.
  destruct k.
  - discriminate.
  - destruct (mediaRef (pb s)); [|discriminate].
    intros H; injection H as <- _. exact Hbusy.
  - destruct played; try discriminate.
    intros H; injection H as <- _. exact Hbusy.
Qed.

(** X27.  In [MediaRecorder], a [togglePlayback()] that arrives while an earlier
    one is suspended, on its first [await] or on a later one, is ignored:
    it changes nothing and sends nothing to the playback element. *)
Lemma MediaRecorder_togglePlayback_serialized (s s1 : State) (k : Await) :
  event MediaRecorder.togglePlayback s = (s1, Some k) ->
  event MediaRecorder.togglePlayback s1 = (s1, None) /\
  (forall played s2 k',
     MediaRecorder.resume k played s s1 = (s2, Some k') ->
     event MediaRecorder.togglePlayback s2 = (s2, None)).
Proof.
  intros H. pose proof (MediaRecorder_togglePlayback_suspended _ _ _ H) as Hbusy.
  split.
  - apply MediaRecorder_togglePlayback_busy, Hbusy.
  - intros played s2 k' Hres. apply MediaRecorder_togglePlayback_busy.
    eapply MediaRecorder_resume_suspended; eassumption.
Qed.

(** C4, [WebcamRecorder].  On a mounted, paused player a second
    [togglePlayback()] before the [play()] promise of the first has settled
    is not ignored: the element receives a second [play()] request, both
    invocations stay suspended on their promise, and once both have resumed
    two polling intervals have been created. *)
Theorem WebcamRecorder_togglePlayback_not_serialized (s : State) (el : MediaElement) :
  mediaRef (pb s) = Some el -> isPlaying (pb s) = false ->
  let first := event WebcamRecorder.togglePlayback s in
  let second := event WebcamRecorder.togglePlayback (fst first) in
  let s3 := fst (WebcamRecorder.resume (Ok tt) (fst second)) in
  let s4 := fst (WebcamRecorder.resume (Ok tt) s3) in
  snd first = Some AwaitPlay /\
  snd second = Some AwaitPlay /\
  option_map playCalls (mediaRef (pb (fst second))) = Some (2 + playCalls el) /\
  isPlaying (pb s4) = true /\ nextTimer (env s4) = 2 + nextTimer (env s).
Proof.
  intros Hel Hplay. unfold event, WebcamRecorder.togglePlayback.
  destruct s as [p c d b]; destruct p as [? ? ? ? ? ? ? ? ? ptimer]; destruct b.
  cbn in Hel, Hplay. subst. cbn.
  destruct ptimer; cbn; auto.
Qed.

Lemma WebcamRecorder_togglePlayback_witness :
  let s0 := playerState video in
  let second :=
    event WebcamRecorder.togglePlayback (fst (event WebcamRecorder.togglePlayback s0)) in
  let first' := event MediaRecorder.togglePlayback s0 in
  let second' := event MediaRecorder.togglePlayback (fst first') in
  option_map playCalls (mediaRef (pb (fst second))) = Some 2 /\
  (snd first' = Some AwaitPlay /\ second' = (fst first', None) /\
   option_map playCalls (mediaRef (pb (fst second'))) = Some 1).
Proof.
  split.
  - apply (WebcamRecorder_togglePlayback_not_serialized (playerState video)
             (mkElement true 0 1 (Some 0) 0 0)); reflexivity.
  - vm_compute. repeat split.
Defined.


(** ** Reset *)

Lemma not_elem_of_remove (X : gset nat) (t : nat) : t ∉ X ∖ {[t]}.
Proof. rewrite elem_of_difference, elem_of_singleton. tauto. Qed.

Lemma not_elem_of_remove_other (X : gset nat) (t u : nat) : t ∉ X -> t ∉ X ∖ {[u]}.
Proof. rewrite elem_of_difference. tauto. Qed.

Lemma not_elem_of_add (X : gset nat) (t u : nat) : t ∉ X -> t <> u -> t ∉ {[u]} ∪ X.
Proof. rewrite elem_of_union, elem_of_singleton. tauto. Qed.

Create HintDb resources.
#[local] Hint Resolve not_elem_of_remove not_elem_of_remove_other : resources.

Lemma MediaRecorder_clearTimers_views (s : State) :
  streamView (MediaRecorder.clearTimers s) = streamView s /\
  urlView (MediaRecorder.clearTimers s) = urlView s /\
  mediaRef (pb (MediaRecorder.clearTimers s)) = mediaRef (pb s) /\
  timerRef (cap (MediaRecorder.clearTimers s)) = None /\
  playbackTimerRef (pb (MediaRecorder.clearTimers s)) = None /\
  forall t, timerRef (cap s) = Some t \/ playbackTimerRef (pb s) = Some t \/
            t ∉ timers (env s) ->
            t ∉ timers (env (MediaRecorder.clearTimers s)).
Proof.
  unfold MediaRecorder.clearTimers, streamView, urlView.
  destruct (timerRef (cap s)) as [t1|] eqn:H1; cbn;
    destruct (playbackTimerRef (pb s)) as [t2|] eqn:H2; cbn;
    rewrite ?H1, ?H2; do 5 (split; [reflexivity|]);
    intros t [Hq|[Hq|Hq]]; simplify_eq; cbn; auto with resources.
Qed.

Lemma MediaRecorder_stopRecording_views (r : Render) (s : State) :
  streamView (MediaRecorder.stopRecording r s) = streamView s /\
  urlView (MediaRecorder.stopRecording r s) = urlView s /\
  mediaRef (pb (MediaRecorder.stopRecording r s)) = mediaRef (pb s) /\
  forall t, timerRef (cap s) = Some t \/ playbackTimerRef (pb s) = Some t \/
            t ∉ timers (env s) ->
            let s' := MediaRecorder.stopRecording r s in
            timerRef (cap s') = Some t \/ playbackTimerRef (pb s') = Some t \/
            t ∉ timers (env s').
Proof.
  unfold MediaRecorder.stopRecording.
  destruct (mediaRecorderRef (cap s)) as [[[] m]|]; [| |auto];
    (destruct (isRecording (cap r)); [|auto]).
  - cbn. auto.
  - cbv zeta.
    match goal with |- context [MediaRecorder.clearTimers ?x] =>
      destruct (MediaRecorder_clearTimers_views x) as (Hs & Hu & He & _ & _ & Ht)
    end.
    split; [exact Hs|]. split; [exact Hu|]. split; [exact He|].
    intros t Hq. right. right. apply Ht. exact Hq.
Qed.

Lemma MediaRecorder_stopMediaTracks_views (s : State) :
  timerView (MediaRecorder.stopMediaTracks s) = timerView s /\
  urlView (MediaRecorder.stopMediaTracks s) = urlView s /\
  nextStream (env (MediaRecorder.stopMediaTracks s)) = nextStream (env s) /\
  streamRef (cap (MediaRecorder.stopMediaTracks s)) = None /\
  forall i, streamRef (cap s) = Some i ->
            i ∉ liveStreams (env (MediaRecorder.stopMediaTracks s)).
Proof.
  unfold MediaRecorder.stopMediaTracks.
  destruct (streamRef (cap s)) as [i|] eqn:Hi; cbn; rewrite ?Hi;
    do 4 (split; [reflexivity|]);
    intros j Hj; simplify_eq; cbn; auto with resources.
Qed.

Lemma MediaRecorder_revokeMediaUrl_views (r : Render) (s : State) :
  mediaUrl (cap r) = mediaUrl (cap s) ->
  timerView (MediaRecorder.revokeMediaUrl r s) = timerView s /\
  streamView (MediaRecorder.revokeMediaUrl r s) = streamView s /\
  mediaUrl (cap (MediaRecorder.revokeMediaUrl r s)) = None /\
  forall u, mediaUrl (cap s) = Some u \/ u ∉ objectUrls (env s) ->
            u ∉ objectUrls (env (MediaRecorder.revokeMediaUrl r s)).
Proof.
  unfold MediaRecorder.revokeMediaUrl. intros ->.
  destruct (mediaUrl (cap s)) as [u|] eqn:Hu; cbn; rewrite ?Hu;
    do 3 (split; [reflexivity|]);
    intros v [Hv|Hv]; simplify_eq; cbn; auto with resources.
Qed.

Lemma MediaRecorder_startMediaStream_views (a : Acquire) (rnd : Q) (r : Render)
    (s : State) :
  let s' := MediaRecorder.startMediaStream a rnd r s in
  timerView s' = timerView s /\ urlView s' = urlView s /\
  recordedBlob (cap s') = recordedBlob (cap s) /\
  forall i, i ∉ liveStreams (env s) -> i < nextStream (env s) ->
            i ∉ liveStreams (env s').
Proof.
  unfold MediaRecorder.startMediaStream, MediaRecorder.startAnalysisSimulation,
    MediaRecorder.updateAnalysis.
  destruct a; cbn; [destruct (isRecording (cap r)); cbn|];
    do 3 (split; [reflexivity|]); intros i Hi Hlt; cbn;
    try apply not_elem_of_add; auto; lia.
Qed.

(** X28.  [MediaRecorder.resetRecording] releases what the component
    held: the recording clock and the playback poll it had running are
    cancelled and their refs cleared, the tracks of the stream in
    [streamRef] are stopped, the object URL of the recording is revoked,
    and the recording itself is dropped, before a new stream is asked
    for. *)
Lemma MediaRecorder_reset_releases (h : Host) (s : State) :
  let s' := event (MediaRecorder.resetRecording h) s in
  (forall t, timerRef (cap s) = Some t \/ playbackTimerRef (pb s) = Some t ->
             t ∉ timers (env s')) /\
  (timerRef (cap s') = None /\ playbackTimerRef (pb s') = None) /\
  (forall i, streamRef (cap s) = Some i -> i < nextStream (env s) ->
             i ∉ liveStreams (env s')) /\
  (forall u, mediaUrl (cap s) = Some u -> u ∉ objectUrls (env s')) /\
  mediaUrl (cap s') = None /\ recordedBlob (cap s') = None.
Proof.
  unfold event, MediaRecorder.resetRecording. cbv zeta.
  set (s1 := if isRecording (cap s) && _ then MediaRecorder.stopRecording s s else s).
  set (s2 := match mediaRef (pb s1) with
             | Some el => if negb (paused el) then withElement el_pause s1 else s1
             | None => s1
             end).
  assert (H1 : streamView s1 = streamView s /\ urlView s1 = urlView s /\
               forall t, timerRef (cap s) = Some t \/ playbackTimerRef (pb s) = Some t ->
                         timerRef (cap s1) = Some t \/ playbackTimerRef (pb s1) = Some t \/
                         t ∉ timers (env s1)).
  { subst s1. destruct (isRecording (cap s) && _).
    - destruct (MediaRecorder_stopRecording_views s s) as (Hs & Hu & _ & Ht).
      split; [exact Hs|]. split; [exact Hu|]. intros t Hq. apply Ht. tauto.
    - split; [reflexivity|]. split; [reflexivity|]. tauto. }
  assert (H2 : streamView s2 = streamView s1 /\ urlView s2 = urlView s1 /\
               timerView s2 = timerView s1).
  { subst s2. destruct (mediaRef (pb s1)) as [el|]; [destruct (paused el)|]; auto. }
  destruct H1 as (Hs1 & Hu1 & Ht1). destruct H2 as (Hs2 & Hu2 & Ht2).
  clearbody s2. clearbody s1.
  destruct (MediaRecorder_stopMediaTracks_views s2) as (Ht3 & Hu3 & Hn3 & Hr3 & Hl3).
  set (s3 := MediaRecorder.stopMediaTracks s2) in *. clearbody s3.
  destruct (MediaRecorder_clearTimers_views s3) as (Hs4 & Hu4 & _ & Hr4 & Hp4 & Ht4).
  set (s4 := MediaRecorder.clearTimers s3) in *. clearbody s4.
  assert (UV' : urlView s4 = urlView s) by congruence.
  assert (Hsame : mediaUrl (cap s) = mediaUrl (cap s4)).
  { unfold urlView in UV'. congruence. }
  destruct (MediaRecorder_revokeMediaUrl_views s s4 Hsame) as (Ht5 & Hs5 & Hr5 & Hu5).
  set (s5 := MediaRecorder.revokeMediaUrl s s4) in *. clearbody s5.
  match goal with |- context [MediaRecorder.startMediaStream ?a ?q ?r ?x] =>
    pose proof (MediaRecorder_startMediaStream_views a q r x) as H6;
    set (s6 := x) in *
  end.
  assert (E6 : timerView s6 = timerView s5 /\ streamView s6 = streamView s5 /\
               urlView s6 = urlView s5 /\ recordedBlob (cap s6) = None).
  { subst s6. auto. }
  clearbody s6. cbv zeta in H6.
  set (s7 := MediaRecorder.startMediaStream (acquire h) (random h) s s6) in *.
  destruct H6 as (Ht7 & Hu7 & Hb7 & Hl7). destruct E6 as (Ht6 & Hs6 & Hu6 & Hb6).
  clearbody s7.
  assert (TV : timerView s7 = timerView s4) by congruence.
  assert (TV' : timerView s3 = timerView s1) by congruence.
  assert (SV : streamView s6 = streamView s3) by congruence.
  assert (SV' : streamView s2 = streamView s) by congruence.
  assert (UV : urlView s7 = urlView s5) by congruence.
  unfold timerView, streamView, urlView in TV, TV', SV, SV', UV, UV'.
  injection TV as T1 T2 T3. injection TV' as T4 T5 T6.
  injection SV as S1 S2 S3. injection SV' as S4 S5 S6.
  injection UV as U1 U2. injection UV' as U3 U4.
  split; [|split; [|split; [|split]]].
  - intros t Hq. rewrite T3. apply Ht4. rewrite T4, T5, T6. apply Ht1, Hq.
  - split; congruence.
  - intros i Hi Hlt. apply Hl7.
    + rewrite S2. apply Hl3. congruence.
    + rewrite S3, Hn3, S6. exact Hlt.
  - intros u Hu. rewrite U2. apply Hu5. left. congruence.
  - split; congruence.
Qed.

(** ** Transcription *)

Import ClientTranscription.

Lemma transcribeAudioClient_never_throws (w : Window) (ev : option ScriptEvent)
    (run : PipelineRun) (m : ModuleState) (message : string) :
  fst (transcribeAudioClient w ev run m) <> Throw message.
Proof.
  unfold transcribeAudioClient.
  destruct (initWhisper w m) as [p m1]. cbn.
  match goal with |- try_catch ?b _ <> _ => destruct b end; cbn; discriminate.
Qed.

Lemma transcribeAudioFallback_never_throws (api : SpeechApi) (message : string) :
  transcribeAudioFallback api <> Throw message.
Proof.
  unfold transcribeAudioFallback.
  destruct (hasSpeechRecognition api); cbn; [|discriminate].
  destruct (setupThrows api); [discriminate|].
  destruct (resolved _); discriminate.
Qed.

(** On every failure of the Whisper path [transcribeAudioClient] returns the
    failure text instead of throwing. *)
Lemma transcribeAudioClient_failure_text (e : TranscriptionEnv) (m : ModuleState) :
  whisperPathFails e m ->
  fst (transcribeAudioClient (t_window e) (t_script e) (t_run e) m) = Ok failureText.
Proof.
  unfold whisperPathFails, transcribeAudioClient.
  destruct (initWhisper (t_window e) m) as [p m1]. cbn zeta.
  intros [(msg & H)|[(H & Hl)|(H & msg & Hr)]]; cbn; rewrite H; cbn.
  - reflexivity.
  - rewrite Hl. reflexivity.
  - destruct (truthy _); cbn; [|reflexivity]. rewrite Hr. reflexivity.
Qed.

(** [performTranscription] never throws, and when Whisper is supported it
    calls [transcribeAudioClient] and nothing else: the [catch] that falls
    back to speech recognition is never entered. *)
Lemma performTranscription_never_throws (e : TranscriptionEnv) (r : Render) (s : State)
    (message : string) :
  fst (MediaRecorder.performTranscription e r s) <> Throw message.
Proof.
  unfold MediaRecorder.performTranscription. cbn.
  destruct (isWhisperSupportedState (drv r)); cbn.
  - destruct (transcribeAudioClient _ _ _ _) as [[t|msg|] m]; cbn; try discriminate.
    destruct (transcribeAudioFallback _); discriminate.
  - destruct (transcribeAudioFallback _); discriminate.
Qed.

Lemma performTranscription_whisper_only (e : TranscriptionEnv) (r : Render) (s : State) :
  isWhisperSupportedState (drv r) = true ->
  adapterCalls (env (snd (MediaRecorder.performTranscription e r s))) =
  (adapterCalls (env s) ++ [Whisper])%list.
Proof.
  intros Hw. unfold MediaRecorder.performTranscription. cbn. rewrite Hw.
  pose proof (transcribeAudioClient_never_throws (t_window e) (t_script e) (t_run e)
                (whisper (env s))) as Hnt.
  cbn.
  destruct (transcribeAudioClient _ _ _ _) as [[t|msg|] m]; cbn in *.
  - reflexivity.
  - exfalso. apply (Hnt msg). reflexivity.
  - reflexivity.
Qed.

(** In a render that has Whisper marked as supported, a Whisper path that
    fails (the script does not load, the library is missing, or the
    pipeline throws) ends the transcription with the fixed failure text:
    [transcribeAudioClient] is the only adapter function called.  The
    capability effect leaves Whisper marked as supported only where
    [isWhisperSupported()] is [true]. *)
Lemma performTranscription_skips_fallback (e : TranscriptionEnv) (r : Render)
    (s : State) :
  isWhisperSupportedState (drv r) = true ->
  whisperPathFails e (whisper (env s)) ->
  let result := MediaRecorder.performTranscription e r s in
  fst result = Ok failureText /\
  adapterCalls (env (snd result)) = (adapterCalls (env s) ++ [Whisper])%list /\
  transcribedText (drv (snd result)) = Some failureText /\
  isTranscribing (drv (snd result)) = false.
Proof.
  intros Hw Hfail. cbn zeta.
  split; [|split; [apply performTranscription_whisper_only, Hw|]].
  - unfold MediaRecorder.performTranscription. cbn. rewrite Hw. cbn.
    pose proof (transcribeAudioClient_failure_text e _ Hfail) as Hres.
    destruct (transcribeAudioClient _ _ _ _) as [x m]. cbn in Hres. subst x. reflexivity.
  - unfold MediaRecorder.performTranscription. cbn. rewrite Hw. cbn.
    pose proof (transcribeAudioClient_failure_text e _ Hfail) as Hres.
    destruct (transcribeAudioClient _ _ _ _) as [x m]. cbn in Hres. subst x.
    split; reflexivity.
Qed.

(** ** The cached load of the Whisper library *)

Lemma whisperInv_initial : whisperInv initial.
Proof.
  unfold whisperInv, initial; cbn. repeat split; try discriminate.
  intros q [st Hq]. rewrite lookup_empty in Hq. discriminate.
Qed.

Lemma persists_refl (m : ModuleState) : persists m m.
Proof. split; auto. Qed.

Lemma persists_trans (m1 m2 m3 : ModuleState) :
  persists m1 m2 -> persists m2 m3 -> persists m1 m3.
Proof. intros [A1 B1] [A2 B2]. split; auto. Qed.

Lemma lookup_fresh_promise (m : ModuleState) (q : nat) (st st' : PromiseState) :
  (forall q, is_Some (promises m !! q) -> q < nextPromise m) ->
  promises m !! q = Some st ->
  <[nextPromise m := st']> (promises m) !! q = Some st.
Proof.
  intros I1 Hq. rewrite lookup_insert_ne; [exact Hq|].
  assert (q < nextPromise m) by (apply I1; eauto). lia.
Qed.

Lemma fresh_promise_bound (m : ModuleState) (q : nat) (st : PromiseState) :
  (forall q, is_Some (promises m !! q) -> q < nextPromise m) ->
  is_Some (<[nextPromise m := st]> (promises m) !! q) -> q < S (nextPromise m).
Proof.
  intros I1 [st' Hq]. rewrite lookup_insert in Hq.
  destruct (decide (nextPromise m = q)); [lia|].
  assert (q < nextPromise m) by (apply I1; eauto). lia.
Qed.

Lemma initWhisper_step (w : Window) (m : ModuleState) :
  whisperInv m ->
  let q := fst (initWhisper w m) in
  let m' := snd (initWhisper w m) in
  whisperInv m' /\ persists m m' /\
  (loadPromise m = None -> loadPromise m' = Some q) /\
  (forall p, loadPromise m = Some p ->
     loadPromise m' = Some p /\ scriptsAppended m' = scriptsAppended m /\
     cachedOrResolved p m' q /\
     (forall msg, promises m !! p = Some (Rejected msg) -> q = p /\ m' = m)).
Proof.
  intros (I1 & I2 & I3 & I4). unfold initWhisper.
  destruct (isWhisperLoaded m && truthy (transformersLib m)) eqn:Hfast.
  - apply andb_true_iff in Hfast as [Hl _].
    destruct (I4 Hl) as (p & Hp & Hres). rewrite Hp in I2. destruct I2 as [Hsome Hle].
    cbn. split; [|split; [|split]].
    + unfold whisperInv; cbn. rewrite Hp. split; [|split; [|split]].
      * intros q. apply fresh_promise_bound, I1.
      * split; [|exact Hle]. destruct Hsome as [st Hst].
        erewrite lookup_fresh_promise; eauto.
      * intros q Hq. destruct (I3 q Hq) as [Hq1 Hq2]. split; [congruence|].
        erewrite lookup_fresh_promise; eauto.
      * intros _. exists p. split; [reflexivity|].
        erewrite lookup_fresh_promise; eauto.
    + split; cbn; [|auto]. intros q st Hq _.
      erewrite lookup_fresh_promise; eauto.
    + rewrite Hp. discriminate.
    + intros p' Hp'. rewrite Hp in Hp'. injection Hp' as <-.
      split; [exact Hp|]. split; [reflexivity|]. split.
      * right. cbn. split; [exact Hl|]. apply lookup_insert_eq.
      * intros msg Hrej. congruence.
  - destruct (loadPromise m) as [p|] eqn:Hp.
    + cbn. split; [|split; [|split]].
      * unfold whisperInv. rewrite Hp. auto.
      * apply persists_refl.
      * discriminate.
      * intros p' Hp'. injection Hp' as <-.
        split; [exact Hp|]. split; [reflexivity|]. split; [left; reflexivity|auto].
    + destruct I2 as (Hs0 & Hpend & Hl0).
      assert (Hfresh : promises m !! nextPromise m = None).
      { destruct (promises m !! nextPromise m) eqn:E; [|reflexivity].
        assert (nextPromise m < nextPromise m) by (apply I1; eauto). lia. }
      assert (Hkeep : forall q st st', promises m !! q = Some st ->
                <[nextPromise m := st']> (promises m) !! q = Some st).
      { intros. eapply lookup_fresh_promise; eauto. }
      destruct w as [|T]; [|destruct (is_defined T) eqn:HT]; cbn;
        unfold settle; cbn; rewrite ?lookup_insert_eq; cbn;
        (split; [|split; [|split; [reflexivity | discriminate]]]).
      * unfold whisperInv; cbn. rewrite Hpend, Hl0, Hs0. split; [|split; [|split]].
        -- intros q. rewrite insert_insert_eq. apply fresh_promise_bound, I1.
        -- rewrite lookup_insert_eq. split; [eauto | lia].
        -- discriminate.
        -- discriminate.
      * split; cbn; [|congruence]. intros q st Hq _.
        rewrite insert_insert_eq. apply Hkeep, Hq.
      * unfold whisperInv; cbn. rewrite Hpend, Hs0. split; [|split; [|split]].
        -- intros q. rewrite insert_insert_eq. apply fresh_promise_bound, I1.
        -- rewrite lookup_insert_eq. split; [eauto | lia].
        -- discriminate.
        -- intros _. eexists. split; [reflexivity|]. apply lookup_insert_eq.
      * split; cbn; [|auto]. intros q st Hq _.
        rewrite insert_insert_eq. apply Hkeep, Hq.
      * unfold whisperInv; cbn. rewrite Hl0, Hs0. split; [|split; [|split]].
        -- intros q. apply fresh_promise_bound, I1.
        -- rewrite lookup_insert_eq. split; [eauto | lia].
        -- intros q Hq. injection Hq as <-. split; [reflexivity|]. apply lookup_insert_eq.
        -- discriminate.
      * split; cbn; [|congruence]. intros q st Hq _. apply Hkeep, Hq.
Qed.

Lemma script_event_step (e : ScriptEvent) (m : ModuleState) :
  whisperInv m ->
  let m' := script_event e m in
  whisperInv m' /\ persists m m' /\
  loadPromise m' = loadPromise m /\ scriptsAppended m' = scriptsAppended m /\
  (forall p msg, loadPromise m = Some p -> promises m !! p = Some (Rejected msg) -> m' = m).
Proof.
  intros (I1 & I2 & I3 & I4). unfold script_event.
  destruct (pendingScript m) as [p|] eqn:Hpend.
  - destruct (I3 p eq_refl) as [Hp Hun]. rewrite Hp in I2. destruct I2 as [_ Hle].
    assert (Hnot : isWhisperLoaded m = false).
    { destruct (isWhisperLoaded m) eqn:E; [|reflexivity].
      destruct (I4 eq_refl) as (p' & Hp' & Hres). congruence. }
    assert (Hbound : forall st q, is_Some (<[p := st]> (promises m) !! q) ->
                                  q < nextPromise m).
    { intros st q [st' Hq]. rewrite lookup_insert in Hq.
      destruct (decide (p = q)) as [<-|]; apply I1; eauto. }
    destruct e as [T|]; unfold settle; cbn; rewrite Hun; cbn;
      (split; [|split; [|split; [exact eq_refl | split; [exact eq_refl|]]]]).
    + unfold whisperInv; cbn. rewrite Hp. split; [|split; [|split]].
      * apply Hbound.
      * rewrite lookup_insert_eq. split; [eauto | exact Hle].
      * discriminate.
      * intros _. exists p. split; [reflexivity|]. apply lookup_insert_eq.
    + split; cbn; [|auto]. intros q st Hq Hst.
      rewrite lookup_insert_ne; [exact Hq|]. intros <-. congruence.
    + intros p' msg Hp' Hrej. congruence.
    + unfold whisperInv; cbn. rewrite Hp, Hnot. split; [|split; [|split]].
      * apply Hbound.
      * rewrite lookup_insert_eq. split; [eauto | exact Hle].
      * discriminate.
      * discriminate.
    + split; cbn; [|auto]. intros q st Hq Hst.
      rewrite lookup_insert_ne; [exact Hq|]. intros <-. congruence.
    + intros p' msg Hp' Hrej. congruence.
  - split; [|split; [|split; [|split]]]; auto.
    + unfold whisperInv. rewrite Hpend. auto.
    + apply persists_refl.
Qed.

Lemma cachedOrResolved_persists (p q : nat) (m m' : ModuleState) :
  persists m m' -> cachedOrResolved p m q -> cachedOrResolved p m' q.
Proof.
  intros [Hpr Hl] [Hq|[Hlo Hres]]; [left; exact Hq|right].
  split; [auto|]. apply Hpr; [exact Hres | discriminate].
Qed.

(** Once [loadPromise] is set, a trace keeps it, appends no script and
    returns it from every call, or an already resolved promise once the
    library is loaded; a rejected [loadPromise] freezes the module. *)
Lemma runWhisper_cached (evs : list WhisperEvent) (m : ModuleState) (p : nat) :
  whisperInv m -> loadPromise m = Some p ->
  let ps := fst (runWhisper evs m) in
  let m' := snd (runWhisper evs m) in
  whisperInv m' /\ persists m m' /\
  loadPromise m' = Some p /\ scriptsAppended m' = scriptsAppended m /\
  Forall (cachedOrResolved p m') ps /\
  (forall msg, promises m !! p = Some (Rejected msg) -> Forall (eq p) ps /\ m' = m).
Proof.
  revert m. induction evs as [|[w|e] evs IH]; intros m Inv Hp; cbn.
  - split; [exact Inv|]. split; [apply persists_refl|]. auto.
  - destruct (initWhisper_step w m Inv) as (Inv1 & Hper1 & _ & Hcached).
    destruct (Hcached p Hp) as (Hp1 & Hs1 & Hq1 & Hrej1). cbn zeta in *.
    destruct (initWhisper w m) as [q m1]. cbn in *.
    destruct (IH m1 Inv1 Hp1) as (Inv2 & Hper2 & Hp2 & Hs2 & Hall & Hrej2).
    cbn zeta in *. destruct (runWhisper evs m1) as [ps m2]. cbn in *.
    split; [exact Inv2|]. split; [eapply persists_trans; eassumption|].
    split; [exact Hp2|]. split; [congruence|]. split.
    + constructor; [|exact Hall]. eapply cachedOrResolved_persists; eassumption.
    + intros msg Hrej. destruct (Hrej1 msg Hrej) as [-> ->].
      destruct (Hrej2 msg Hrej) as [Hps ->]. split; [constructor; auto | reflexivity].
  - destruct (script_event_step e m Inv) as (Inv1 & Hper1 & Hp1 & Hs1 & Hrej1).
    cbn zeta in *. rewrite Hp in Hp1.
    destruct (IH (script_event e m) Inv1 Hp1) as (Inv2 & Hper2 & Hp2 & Hs2 & Hall & Hrej2).
    cbn zeta in *.
    split; [exact Inv2|]. split; [eapply persists_trans; eassumption|].
    split; [exact Hp2|]. split; [congruence|]. split; [exact Hall|].
    intros msg Hrej. rewrite (Hrej1 p msg Hp Hrej) in *. apply (Hrej2 msg Hrej).
Qed.

(** Until the first call the module stays as it was loaded; the first call
    sets [loadPromise] to the promise it returns. *)
Lemma runWhisper_first_call (evs : list WhisperEvent) (m : ModuleState) :
  whisperInv m -> loadPromise m = None ->
  let ps := fst (runWhisper evs m) in
  let m' := snd (runWhisper evs m) in
  whisperInv m' /\ scriptsAppended m' <= 1 /\
  match ps with
  | [] => loadPromise m' = None
  | p :: ps' => loadPromise m' = Some p /\ Forall (cachedOrResolved p m') ps'
  end.
Proof.
  revert m. induction evs as [|[w|e] evs IH]; intros m Inv Hnone; cbn.
  - split; [exact Inv|]. destruct Inv as (_ & I2 & _). rewrite Hnone in I2.
    split; [lia | exact Hnone].
  - destruct (initWhisper_step w m Inv) as (Inv1 & _ & Hfirst & _).
    specialize (Hfirst Hnone). cbn zeta in *.
    destruct (initWhisper w m) as [q m1]. cbn in *.
    destruct (runWhisper_cached evs m1 q Inv1 Hfirst) as (Inv2 & _ & Hp2 & _ & Hall & _).
    cbn zeta in *. destruct (runWhisper evs m1) as [ps m2]. cbn in *.
    split; [exact Inv2|]. split; [|auto].
    destruct Inv2 as (_ & I2 & _). rewrite Hp2 in I2. tauto.
  - destruct (script_event_step e m Inv) as (Inv1 & _ & Hp1 & _).
    cbn zeta in *. rewrite Hnone in Hp1. apply (IH _ Inv1 Hp1).
Qed.

(** C10, as stated, fails: after the library has loaded, a call does not
    return the promise of the first call but a new, resolved one. *)
Lemma initWhisper_not_always_same_promise :
  let ps := fst (runWhisper [CallInit (Page Undefined); Script (Loaded (Obj 0));
                             CallInit (Page (Obj 0)); CallInit (Page (Obj 0))] initial) in
  ps = [0; 1; 2] /\ ~ Forall (eq 0) ps.
Proof.
  split; [reflexivity|]. cbn. intros H.
  apply List.Forall_inv_tail, List.Forall_inv in H. discriminate H.
Qed.

(** C10, amended.  On every trace of calls and script events from the
    freshly loaded module: [loadPromise], once set, is never cleared or
    replaced; at most one script is ever appended; the first call returns
    [loadPromise] and every later call returns [loadPromise] again or, once
    the library is loaded, a new promise that is already resolved; and if
    [loadPromise] has been rejected, every later call returns that same
    rejected promise and the module, script count included, no longer
    changes. *)
Theorem initWhisper_initialized_once (evs1 evs2 : list WhisperEvent) (p : nat) :
  let m1 := snd (runWhisper evs1 initial) in
  let ps2 := fst (runWhisper evs2 m1) in
  let m2 := snd (runWhisper evs2 m1) in
  loadPromise m1 = Some p ->
  (exists ps1, fst (runWhisper evs1 initial) = p :: ps1) /\
  loadPromise m2 = Some p /\
  scriptsAppended m2 = scriptsAppended m1 /\ scriptsAppended m2 <= 1 /\
  Forall (cachedOrResolved p m2) ps2 /\
  (forall msg, promises m1 !! p = Some (Rejected msg) ->
     Forall (eq p) ps2 /\ m2 = m1 /\ promises m2 !! p = Some (Rejected msg)).
Proof.
  cbn zeta. intros Hp.
  destruct (runWhisper_first_call evs1 initial whisperInv_initial eq_refl)
    as (Inv1 & Hle & Hfirst).
  cbn zeta in *.
  destruct (runWhisper_cached evs2 _ p Inv1 Hp) as (_ & _ & Hp2 & Hs2 & Hall & Hrej).
  cbn zeta in *.
  split; [|split; [exact Hp2|split; [exact Hs2|split; [lia|split; [exact Hall|]]]]].
  - destruct (fst (runWhisper evs1 initial)) as [|q ps1]; [congruence|].
    destruct Hfirst as [Hq _]. exists ps1. congruence.
  - intros msg Hmsg. destruct (Hrej msg Hmsg) as [Hps Heq].
    split; [exact Hps|]. split; [exact Heq|]. rewrite Heq. exact Hmsg.
Qed.

Lemma initWhisper_initialized_once_witness :
  let evs1 := [CallInit (Page Undefined); Script Failed] in
  let evs2 := [CallInit (Page Undefined); Script Failed; CallInit (Page (Obj 0))] in
  let m1 := snd (runWhisper evs1 initial) in
  loadPromise m1 = Some 0 /\
  promises m1 !! 0 = Some (Rejected "Failed to load Whisper Web library") /\
  Forall (eq 0) (fst (runWhisper evs2 m1)) /\
  scriptsAppended (snd (runWhisper evs2 m1)) <= 1.
Proof.
  pose proof (initWhisper_initialized_once
                [CallInit (Page Undefined); Script Failed]
                [CallInit (Page Undefined); Script Failed; CallInit (Page (Obj 0))]
                0 eq_refl) as H.
  cbn zeta in H. destruct H as (_ & _ & _ & Hle & _ & Hrej).
  split; [reflexivity|]. split; [reflexivity|]. split; [|exact Hle].
  apply (Hrej "Failed to load Whisper Web library"). reflexivity.
Defined.

(** ** The speech-recognition fallback *)

Lemma speech_listening (evs : list SpeechEvent) (t : string) :
  listening evs = true ->
  fold_left speech_step evs (mkRecognition t None) =
  mkRecognition
    (fold_left (fun (t : string) (res : bool * string) =>
                  if fst res then t +:+ snd res +:+ " " else t) (heard evs) t)
    None.
Proof.
  revert t. induction evs as [|e evs IH]; intros t H; cbn in *; [reflexivity|].
  apply andb_true_iff in H as [He H].
  destruct e; try discriminate; cbn.
  - rewrite IH by exact H. rewrite fold_left_app. reflexivity.
  - apply IH, H.
Qed.

Lemma append_assoc' (a b c : string) : (a +:+ b) +:+ c = a +:+ (b +:+ c).
Proof.
  induction a as [|x a IH]; [reflexivity|].
  change (String x ((a +:+ b) +:+ c) = String x (a +:+ (b +:+ c))).
  rewrite IH. reflexivity.
Qed.

Lemma append_nil_r' (a : string) : a +:+ "" = a.
Proof.
  induction a as [|x a IH]; [reflexivity|].
  change (String x (a +:+ "") = String x a). rewrite IH. reflexivity.
Qed.

Lemma finalTranscript_fold (results : list (bool * string)) (t : string) :
  fold_left (fun (t : string) (res : bool * string) =>
               if fst res then t +:+ snd res +:+ " " else t) results t =
  t +:+ finalTranscript results.
Proof.
  revert t. induction results as [|[final text] results IH]; intros t; cbn.
  - symmetry. apply append_nil_r'.
  - rewrite IH. destruct final; cbn; [|reflexivity].
    fold (finalTranscript results). rewrite !append_assoc'. reflexivity.
Qed.

Lemma speech_resolved (evs : list SpeechEvent) (r : Recognition) (v : string) :
  resolved r = Some v -> resolved (fold_left speech_step evs r) = Some v.
Proof.
  revert r. induction evs as [|e evs IH]; intros r H; cbn; [exact H|].
  apply IH. destruct e; cbn; unfold resolve; rewrite ?H; cbn; first [exact H | reflexivity].
Qed.

(** X1.  [transcribeAudioFallback]: when the recogniser ends after a run of
    result events, the promise resolves with the final results in the order
    they were heard, each followed by a space, and with the failure text
    when no final result was heard.  Interim results are left out, and so
    is everything that happens after the recogniser has ended. *)
Theorem transcribeAudioFallback_transcript (evs rest : list SpeechEvent) :
  listening evs = true ->
  transcribeAudioFallback (mkSpeechApi true false (evs ++ onend :: rest)) =
  Ok (or_else (finalTranscript (heard evs)) failureText).
Proof.
  intros H. unfold transcribeAudioFallback. cbn.
  rewrite fold_left_app. cbn. rewrite (speech_listening evs "" H).
  rewrite finalTranscript_fold. cbn.
  erewrite speech_resolved; [reflexivity|]. reflexivity.
Qed.

Lemma transcribeAudioFallback_transcript_witness :
  transcribeAudioFallback (mkSpeechApi true false (twoSentences ++ [onend; onerror "aborted"]))
  = Ok "tell me about yourself " /\
  transcribeAudioFallback (mkSpeechApi true false ([onresult [(false, "tell")]] ++ [onend]))
  = Ok failureText.
Proof.
  split.
  - exact (transcribeAudioFallback_transcript twoSentences [onerror "aborted"] eq_refl).
  - exact (transcribeAudioFallback_transcript [onresult [(false, "tell")]] [] eq_refl).
Defined.

(** X2.  [transcribeAudioFallback]: a recogniser error, or a rejected
    [play()] of the recording, resolves the promise with the failure text
    and discards what had been heard; as long as none of [onend], [onerror]
    and the rejection has happened the promise stays pending. *)
Theorem transcribeAudioFallback_error_discards (evs rest : list SpeechEvent)
    (err : string) :
  listening evs = true ->
  transcribeAudioFallback (mkSpeechApi true false (evs ++ onerror err :: rest)) =
    Ok failureText /\
  transcribeAudioFallback (mkSpeechApi true false (evs ++ play_rejected err :: rest)) =
    Ok failureText /\
  transcribeAudioFallback (mkSpeechApi true false evs) = Pending.
Proof.
  intros H. unfold transcribeAudioFallback. cbn.
  rewrite !fold_left_app. cbn. rewrite !(speech_listening evs "" H). cbn.
  split; [|split]; try (erewrite speech_resolved; reflexivity). reflexivity.
Qed.

Lemma transcribeAudioFallback_error_discards_witness :
  transcribeAudioFallback (mkSpeechApi true false (twoSentences ++ [onerror "network"; onend]))
  = Ok failureText /\
  transcribeAudioFallback (mkSpeechApi true false twoSentences) = Pending.
Proof.
  pose proof (transcribeAudioFallback_error_discards twoSentences [onend] "network" eq_refl)
    as (H1 & _ & H3).
  split; [exact H1 | exact H3].
Defined.

(** ** Whisper: support check, background load and calls after it *)

Lemma transcribeAudioFallback_settles (api : SpeechApi) :
  match transcribeAudioFallback api with
  | Ok text => Ok text
  | Throw _ => Ok failureText
  | Pending => Pending
  end = transcribeAudioFallback api.
Proof.
  pose proof (transcribeAudioFallback_never_throws api) as H.
  destruct (transcribeAudioFallback api) as [t|msg|]; try reflexivity.
  exfalso. apply (H msg). reflexivity.
Qed.

Lemma performTranscription_unsupported (e : TranscriptionEnv) (r : Render) (s : State) :
  isWhisperSupportedState (drv r) = false ->
  let res := MediaRecorder.performTranscription e r s in
  fst res = transcribeAudioFallback (t_speech e) /\
  adapterCalls (env (snd res)) = (adapterCalls (env s) ++ [SpeechRecognition])%list /\
  whisper (env (snd res)) = whisper (env s).
Proof.
  intros H. unfold MediaRecorder.performTranscription. cbn. rewrite H.
  pose proof (transcribeAudioFallback_settles (t_speech e)) as Hs.
  destruct (transcribeAudioFallback (t_speech e)) as [t|msg|]; cbn in *;
    try discriminate; auto.
Qed.

(** X3.  [isWhisperSupported] asks for [typeof URL === "object"].  In a
    page where [URL] is a constructor ([typeof URL] is ["function"]) it
    answers [false]: the mount effect of [MediaRecorder] then marks Whisper
    as unsupported and does not call [initWhisper], and a transcription
    started afterwards calls [transcribeAudioFallback] only and returns
    what it returns. *)
Theorem MediaRecorder_URL_constructor_disables_whisper (T : JsVal) (g : Globals)
    (typeof_MediaRecorder : string) (e : TranscriptionEnv) (s : State) :
  typeof_URL g = "function" ->
  let mounted := MediaRecorder.checkCapabilities (Page T) g typeof_MediaRecorder s in
  let res := event (MediaRecorder.performTranscription e) (fst mounted) in
  isWhisperSupported (Page T) g = false /\
  snd mounted = None /\
  isWhisperSupportedState (drv (fst mounted)) = false /\
  whisper (env (fst mounted)) = whisper (env s) /\
  fst res = transcribeAudioFallback (t_speech e) /\
  adapterCalls (env (snd res)) = (adapterCalls (env s) ++ [SpeechRecognition])%list /\
  whisper (env (snd res)) = whisper (env s).
Proof.
  intros HURL. cbv zeta.
  assert (Hno : isWhisperSupported (Page T) g = false).
  { unfold isWhisperSupported. rewrite HURL. cbn.
    rewrite !andb_false_r. reflexivity. }
  unfold MediaRecorder.checkCapabilities. rewrite Hno. cbn [fst snd].
  split; [reflexivity|]. split; [reflexivity|].
  set (s1 := setIsWhisperSupportedState false _).
  assert (H1 : isWhisperSupportedState (drv s1) = false) by reflexivity.
  assert (H2 : env s1 = env s) by reflexivity.
  split; [exact H1|]. split; [rewrite H2; reflexivity|].
  destruct (performTranscription_unsupported e s1 s1 H1) as (R1 & R2 & R3).
  unfold event. rewrite R1, R2, R3, H2. auto.
Qed.

Lemma MediaRecorder_URL_constructor_witness :
  let mounted :=
    MediaRecorder.checkCapabilities (Page Undefined) constructorURL "function"
      (initialState audio) in
  isWhisperSupported (Page Undefined) expectedGlobals = true /\
  isWhisperSupportedState (drv (fst mounted)) = false /\
  adapterCalls (env (snd (event (MediaRecorder.performTranscription whisperFails)
                            (fst mounted)))) = [SpeechRecognition].
Proof.
  pose proof (MediaRecorder_URL_constructor_disables_whisper Undefined constructorURL
                "function" whisperFails (initialState audio) eq_refl)
    as (_ & _ & H3 & _ & _ & H6 & _).
  split; [reflexivity|]. split; [exact H3 | exact H6].
Defined.

Lemma initWhisper_starts_load (m : ModuleState) :
  loadPromise m = None -> isWhisperLoaded m = false ->
  exists p,
    initWhisper (Page Undefined) m = (p, snd (initWhisper (Page Undefined) m)) /\
    scriptsAppended (snd (initWhisper (Page Undefined) m)) = S (scriptsAppended m) /\
    await p (script_event Failed (snd (initWhisper (Page Undefined) m))) =
      Throw "Failed to load Whisper Web library".
Proof.
  intros Hp Hl. unfold initWhisper. rewrite Hp, Hl. cbn.
  eexists. split; [reflexivity|]. split; [reflexivity|].
  unfold script_event, settle, await. cbn. rewrite lookup_insert_eq. cbn.
  rewrite lookup_insert_eq. reflexivity.
Qed.

(** X4.  The degradation that does take place.  When the mount effect of
    [MediaRecorder] has started the load of the library and the script then
    fails to load, the handler attached to the promise of [initWhisper]
    marks Whisper as unsupported; a transcription started after that calls
    [transcribeAudioFallback] only and returns what it returns. *)
Theorem MediaRecorder_whisper_load_failure_degrades (g : Globals)
    (typeof_MediaRecorder : string) (e : TranscriptionEnv) (s : State) :
  isWhisperSupported (Page Undefined) g = true ->
  loadPromise (whisper (env s)) = None ->
  isWhisperLoaded (whisper (env s)) = false ->
  let mounted := MediaRecorder.checkCapabilities (Page Undefined) g typeof_MediaRecorder s in
  let failed := scriptEvent Failed (fst mounted) in
  exists p,
    snd mounted = Some p /\
    isWhisperSupportedState (drv (fst mounted)) = true /\
    scriptsAppended (whisper (env (fst mounted))) = S (scriptsAppended (whisper (env s))) /\
    let s3 := MediaRecorder.whisperInitFailed p failed in
    let res := event (MediaRecorder.performTranscription e) s3 in
    isWhisperSupportedState (drv s3) = false /\
    fst res = transcribeAudioFallback (t_speech e) /\
    adapterCalls (env (snd res)) = (adapterCalls (env s) ++ [SpeechRecognition])%list.
Proof.
  intros Hsup Hp Hl. cbv zeta.
  destruct (initWhisper_starts_load (whisper (env s)) Hp Hl) as (q & Hinit & Hn & Hrej).
  unfold MediaRecorder.checkCapabilities. rewrite Hsup.
  change (whisper (env (setIsWhisperSupportedState true
            (setIsMediaRecorderSupported (negb (typeof_MediaRecorder =? "undefined")) s))))
    with (whisper (env s)).
  destruct (initWhisper (Page Undefined) (whisper (env s))) as [p m'] eqn:E.
  cbn [fst snd] in *. assert (q = p) by congruence. subst q.
  exists p. split; [reflexivity|]. split; [reflexivity|]. split; [exact Hn|].
  set (failed := scriptEvent Failed _).
  assert (Hw : whisper (env failed) = script_event Failed m') by reflexivity.
  assert (Hc : adapterCalls (env failed) = adapterCalls (env s)) by reflexivity.
  unfold MediaRecorder.whisperInitFailed. rewrite Hw, Hrej.
  set (s3 := setIsWhisperSupportedState false failed).
  assert (H3 : isWhisperSupportedState (drv s3) = false) by reflexivity.
  assert (Hc3 : adapterCalls (env s3) = adapterCalls (env s)) by exact Hc.
  destruct (performTranscription_unsupported e s3 s3 H3) as (R1 & R2 & _).
  unfold event. rewrite R1, R2, Hc3. auto.
Qed.

Lemma MediaRecorder_whisper_load_failure_witness :
  let mounted :=
    MediaRecorder.checkCapabilities (Page Undefined) expectedGlobals "function"
      (initialState audio) in
  exists p,
    snd mounted = Some p /\
    let s3 := MediaRecorder.whisperInitFailed p (scriptEvent Failed (fst mounted)) in
    fst (event (MediaRecorder.performTranscription whisperFails) s3) = Ok "hello world ".
Proof.
  destruct (MediaRecorder_whisper_load_failure_degrades expectedGlobals "function"
              whisperFails (initialState audio) eq_refl eq_refl eq_refl)
    as (p & H1 & _ & _ & _ & H5 & _).
  exists p. split; [exact H1|]. cbv zeta. rewrite H5. reflexivity.
Defined.

Lemma transcribeAudioClient_unusable (w : Window) (ev : option ScriptEvent)
    (run : PipelineRun) (m : ModuleState) (p : nat) :
  isWhisperLoaded m = true -> truthy (transformersLib m) = false ->
  pendingScript m = None -> loadPromise m = Some p ->
  promises m !! p = Some Resolved ->
  transcribeAudioClient w ev run m = (Ok failureText, m).
Proof.
  intros Hl Ht Hs Hp Hres. unfold transcribeAudioClient, initWhisper.
  rewrite Hl, Ht, Hp. cbn.
  assert (Hev : match ev with Some e => script_event e m | None => m end = m).
  { destruct ev as [e|]; [|reflexivity]. unfold script_event. rewrite Hs. reflexivity. }
  rewrite Hev. unfold await. rewrite Hres, Ht. reflexivity.
Qed.

(** X5.  When the script of the library loads without defining
    [window.Transformers], [transcribeAudioClient] returns the failure
    text, and so does every later call, whatever its window, script event
    and pipeline: the module counts as loaded, the resolved [loadPromise] is
    reused and no second script is appended. *)
Theorem transcribeAudioClient_missing_global (T : JsVal) (run : PipelineRun)
    (calls : list TranscriptionEnv) (m : ModuleState) :
  truthy T = false -> loadPromise m = None -> isWhisperLoaded m = false ->
  let first := transcribeAudioClient (Page Undefined) (Some (Loaded T)) run m in
  let later := runTranscriptions calls (snd first) in
  fst first = Ok failureText /\
  Forall (fun res => res = Ok failureText) (fst later) /\
  scriptsAppended (snd later) = S (scriptsAppended m).
Proof.
  intros HT Hp Hl. cbv zeta.
  assert (Hfirst : exists m1 p,
            transcribeAudioClient (Page Undefined) (Some (Loaded T)) run m =
              (Ok failureText, m1) /\
            isWhisperLoaded m1 = true /\ truthy (transformersLib m1) = false /\
            pendingScript m1 = None /\ loadPromise m1 = Some p /\
            promises m1 !! p = Some Resolved /\
            scriptsAppended m1 = S (scriptsAppended m)).
  { unfold transcribeAudioClient, initWhisper. rewrite Hl, Hp. cbn.
    unfold script_event, settle, await. cbn. rewrite lookup_insert_eq. cbn.
    rewrite lookup_insert_eq, HT. cbn.
    eexists _, _. split; [reflexivity|]. cbn.
    do 4 (split; [first [reflexivity | exact HT]|]).
    split; [apply lookup_insert_eq | reflexivity]. }
  destruct Hfirst as (m1 & p & -> & K1 & K2 & K3 & K4 & K5 & K6). cbn [fst snd].
  split; [reflexivity|].
  assert (Hrun : runTranscriptions calls m1 = (map (fun _ => Ok failureText) calls, m1)).
  { induction calls as [|e calls IH]; [reflexivity|]. cbn.
    rewrite (transcribeAudioClient_unusable _ _ _ m1 p K1 K2 K3 K4 K5), IH.
    reflexivity. }
  rewrite Hrun. cbn [fst snd]. split; [|exact K6].
  apply List.Forall_forall. intros res Hin. apply in_map_iff in Hin as (? & <- & _).
  reflexivity.
Qed.

Lemma transcribeAudioClient_missing_global_witness :
  let first :=
    transcribeAudioClient (Page Undefined) (Some (Loaded Undefined)) (t_run helloRun)
      initial in
  let later := runTranscriptions [helloRun; helloRun] (snd first) in
  fst first = Ok failureText /\
  fst later = [Ok failureText; Ok failureText] /\
  scriptsAppended (snd later) = 1.
Proof.
  pose proof (transcribeAudioClient_missing_global Undefined (t_run helloRun)
                [helloRun; helloRun] initial eq_refl eq_refl eq_refl) as (H1 & _ & H3).
  split; [exact H1|]. split; [reflexivity | exact H3].
Defined.

Lemma transcribeAudioClient_loaded (w : Window) (ev : option ScriptEvent)
    (run : PipelineRun) (m : ModuleState) :
  isWhisperLoaded m = true -> truthy (transformersLib m) = true ->
  pendingScript m = None ->
  let res := transcribeAudioClient w ev run m in
  fst res = pipelineOutcome run /\
  isWhisperLoaded (snd res) = true /\ transformersLib (snd res) = transformersLib m /\
  pendingScript (snd res) = None /\ scriptsAppended (snd res) = scriptsAppended m /\
  loadPromise (snd res) = loadPromise m.
Proof.
  intros Hl Ht Hs. unfold transcribeAudioClient, initWhisper, pipelineOutcome.
  rewrite Hl, Ht. cbn.
  set (m1 := {| isWhisperLoaded := _ |}).
  assert (Hev : match ev with Some e => script_event e m1 | None => m1 end = m1).
  { destruct ev as [e|]; [|reflexivity]. unfold script_event. cbn. rewrite Hs.
    reflexivity. }
  rewrite Hev. unfold await. cbn. rewrite lookup_insert_eq, Ht. cbn.
  split; [destruct (pipelineSteps run); reflexivity|].
  repeat split; assumption.
Qed.

(** X6.  Once the library is loaded and no script of the module is still
    loading, every call of [transcribeAudioClient] runs the pipeline on its
    recording, whatever its window and script event: it returns the text of
    the pipeline, the failure text when a pipeline step throws, and stays
    pending when a step does.  No call appends a script or replaces the
    library or [loadPromise]. *)
Theorem transcribeAudioClient_after_load (calls : list TranscriptionEnv)
    (m : ModuleState) :
  isWhisperLoaded m = true -> truthy (transformersLib m) = true ->
  pendingScript m = None ->
  let run := runTranscriptions calls m in
  fst run = map (fun e => pipelineOutcome (t_run e)) calls /\
  scriptsAppended (snd run) = scriptsAppended m /\
  transformersLib (snd run) = transformersLib m /\
  loadPromise (snd run) = loadPromise m.
Proof.
  revert m. induction calls as [|e calls IH]; intros m Hl Ht Hs; cbn; [auto|].
  destruct (transcribeAudioClient_loaded (t_window e) (t_script e) (t_run e) m Hl Ht Hs)
    as (R1 & R2 & R3 & R4 & R5 & R6).
  cbv zeta in *.
  destruct (transcribeAudioClient _ _ _ m) as [res m1]. cbn [fst snd] in *.
  rewrite <- R3 in Ht.
  destruct (IH m1 R2 Ht R4) as (I1 & I2 & I3 & I4). cbv zeta in *.
  destruct (runTranscriptions calls m1) as [results m2]. cbn [fst snd] in *.
  subst res results. split; [reflexivity|]. split; [congruence|].
  split; congruence.
Qed.

Lemma transcribeAudioClient_after_load_witness :
  let loaded :=
    snd (transcribeAudioClient (t_window helloRun) (t_script helloRun) (t_run helloRun)
           initial) in
  let run := runTranscriptions [pipelineThrows; helloRun; whisperFails] loaded in
  fst run = [Ok failureText; Ok "hello world"; Ok "hello world"] /\
  scriptsAppended (snd run) = 1.
Proof.
  pose (loaded :=
    snd (transcribeAudioClient (t_window helloRun) (t_script helloRun) (t_run helloRun)
           initial)).
  destruct (transcribeAudioClient_after_load [pipelineThrows; helloRun; whisperFails]
              loaded eq_refl eq_refl eq_refl) as (H1 & H2 & _).
  split; [exact H1 | exact H2].
Defined.

(** ** The recording format *)

Lemma find_first {A} (f : A -> bool) (l : list A) :
  match List.find f l with
  | Some x =>
      exists preferred rest,
        l = (preferred ++ x :: rest)%list /\ f x = true /\
        Forall (fun y => f y = false) preferred
  | None => Forall (fun y => f y = false) l
  end.
Proof.
  induction l as [|y l IH]; cbn; [constructor|].
  destruct (f y) eqn:E.
  - exists [], l. split; [reflexivity|]. split; [exact E | constructor].
  - destruct (List.find f l) as [x|].
    + destruct IH as (pre & rest & -> & Hx & Hpre).
      exists (y :: pre), rest. split; [reflexivity|]. split; [exact Hx|].
      constructor; assumption.
    + constructor; assumption.
Qed.

(** X7.  [getBestMimeType] returns a type of the candidate list of the mode,
    and every candidate the list prefers to it is unsupported.  So it is
    the most preferred supported candidate whenever one is supported; it is
    itself unsupported only when no candidate is supported (it is then the
    default, ["audio/webm"] or ["video/webm"]). *)
Theorem getBestMimeType_preference (h : Host) (isAudio : bool) :
  let types := if isAudio then MediaRecorder.audioTypes else MediaRecorder.videoTypes in
  let best := MediaRecorder.getBestMimeType h isAudio in
  (exists preferred rest,
     types = (preferred ++ best :: rest)%list /\
     Forall (fun t => isTypeSupported h t = false) preferred) /\
  (isTypeSupported h best = false <-> Forall (fun t => isTypeSupported h t = false) types).
Proof.
  cbv zeta. unfold MediaRecorder.getBestMimeType.
  destruct isAudio.
  - pose proof (find_first (isTypeSupported h) MediaRecorder.audioTypes) as H.
    destruct (List.find (isTypeSupported h) MediaRecorder.audioTypes) as [x|]; unfold default; cbn [from_option id].
    + destruct H as (pre & rest & Heq & Hx & Hpre). split; [eauto|].
      split; [intros Hf; congruence|]. intros Hall. rewrite Heq in Hall.
      apply List.Forall_app in Hall as [_ Hall]. apply List.Forall_inv in Hall. congruence.
    + split.
      * exists ["audio/webm;codecs=opus"], ["audio/mp4"; "audio/ogg;codecs=opus"; "audio/ogg"; "audio/wav"].
        split; [reflexivity|]. constructor; [|constructor].
        apply List.Forall_inv in H. exact H.
      * split; [intros _; exact H|]. intros _.
        apply List.Forall_inv_tail, List.Forall_inv in H. exact H.
  - pose proof (find_first (isTypeSupported h) MediaRecorder.videoTypes) as H.
    destruct (List.find (isTypeSupported h) MediaRecorder.videoTypes) as [x|]; unfold default; cbn [from_option id].
    + destruct H as (pre & rest & Heq & Hx & Hpre). split; [eauto|].
      split; [intros Hf; congruence|]. intros Hall. rewrite Heq in Hall.
      apply List.Forall_app in Hall as [_ Hall]. apply List.Forall_inv in Hall. congruence.
    + split.
      * exists ["video/webm;codecs=vp9,opus"; "video/webm;codecs=vp8,opus"],
               ["video/mp4"; "video/webm;codecs=h264"].
        split; [reflexivity|].
        pose proof (List.Forall_inv H) as H1.
        pose proof (List.Forall_inv (List.Forall_inv_tail H)) as H2.
        constructor; [exact H1|]. constructor; [exact H2 | constructor].
      * split; [intros _; exact H|]. intros _.
        apply List.Forall_inv_tail, List.Forall_inv_tail, List.Forall_inv in H. exact H.
Qed.

(** ** Playback *)

(** X8.  [MediaRecorder.togglePlayback] always gives its guard back.  From
    a state in which no toggle is in progress, once the promises it waits
    for have settled (the delay, then [play()], whether it resolves or
    rejects) the call has finished and [isPlaybackInProgress] is [false]
    again: a later toggle is not ignored for ever. *)
Theorem MediaRecorder_togglePlayback_returns_guard (played1 played2 : Result unit)
    (s : State) :
  isPlaybackInProgress (pb s) = false ->
  played1 <> Pending -> played2 <> Pending ->
  let st :=
    MediaRecorder_settle played2 s
      (MediaRecorder_settle played1 s (event MediaRecorder.togglePlayback s)) in
  snd st = None /\ isPlaybackInProgress (pb (fst st)) = false.
Proof.
  intros Hidle H1 H2. cbv zeta. unfold event, MediaRecorder.togglePlayback.
  rewrite Hidle.
  destruct s as [p c d b]; destruct p as [playing ? ? ? ? ? loaded ? el ptimer];
    destruct c as [? ? ? ? ? url ? ? ? ? ? ?]; cbn in Hidle |- *. subst.
  destruct el as [el|]; [|auto]. destruct url as [u|]; [|auto].
  destruct playing; [destruct ptimer; cbn; auto|].
  destruct loaded; cbn.
  - destruct played1 as [[]|msg|]; [| |congruence]; destruct ptimer; cbn; auto.
  - destruct played2 as [[]|msg|]; [| |congruence]; destruct ptimer; cbn; auto.
Qed.

Lemma MediaRecorder_togglePlayback_returns_guard_witness :
  let st :=
    MediaRecorder_settle (Throw "NotAllowedError") (playerState audio)
      (MediaRecorder_settle (Ok tt) (playerState audio)
         (event MediaRecorder.togglePlayback (playerState audio))) in
  snd st = None /\ isPlaybackInProgress (pb (fst st)) = false /\
  isPlaying (pb (fst st)) = true.
Proof.
  destruct (MediaRecorder_togglePlayback_returns_guard (Ok tt) (Throw "NotAllowedError")
              (playerState audio) eq_refl ltac:(discriminate) ltac:(discriminate))
    as [H1 H2].
  split; [exact H1|]. split; [exact H2 | reflexivity].
Defined.

Lemma timers_add_remove (X : gset nat) (t : nat) : t ∉ X -> ({[t]} ∪ X) ∖ {[t]} = X.
Proof.
  intros Ht. apply set_eq. intros x.
  rewrite elem_of_difference, elem_of_union, elem_of_singleton.
  split; [tauto|]. intros Hx. split; [tauto|]. intros ->. exact (Ht Hx).
Qed.

(** X9.  Play, then pause, in [MediaRecorder].  On a loaded, paused player
    with no polling interval, a toggle whose [play()] resolves leaves the
    player playing with exactly one new interval, held in
    [playbackTimerRef]; the next toggle pauses the element, cancels that
    interval and clears the ref, so the set of active intervals is what it
    was before, and [isPlaybackInProgress] is [false] after each. *)
Theorem MediaRecorder_play_pause_roundtrip (s : State) (el : MediaElement) (u : nat) :
  mediaRef (pb s) = Some el -> mediaUrl (cap s) = Some u ->
  isPlaybackInProgress (pb s) = false -> isPlaying (pb s) = false ->
  isMediaLoaded (pb s) = true -> playbackTimerRef (pb s) = None ->
  nextTimer (env s) ∉ timers (env s) ->
  let playing :=
    fst (MediaRecorder_settle (Ok tt) s (event MediaRecorder.togglePlayback s)) in
  let stopped :=
    fst (MediaRecorder_settle (Ok tt) playing (event MediaRecorder.togglePlayback playing)) in
  (isPlaying (pb playing) = true /\
   playbackTimerRef (pb playing) = Some (nextTimer (env s)) /\
   timers (env playing) = {[nextTimer (env s)]} ∪ timers (env s) /\
   isPlaybackInProgress (pb playing) = false /\
   mediaRef (pb playing) = Some (el_play el)) /\
  (isPlaying (pb stopped) = false /\
   playbackTimerRef (pb stopped) = None /\
   timers (env stopped) = timers (env s) /\
   isPlaybackInProgress (pb stopped) = false /\
   mediaRef (pb stopped) = Some (el_pause (el_play el))).
Proof.
  intros Hel Hu Hidle Hplay Hloaded Hpt Hfresh. cbv zeta.
  unfold event, MediaRecorder.togglePlayback.
  destruct s as [p c d b]; destruct p; destruct c; destruct b.
  cbn in Hel, Hu, Hidle, Hplay, Hloaded, Hpt, Hfresh |- *. subst. cbn.
  split; [repeat split|].
  split; [reflexivity|]. split; [reflexivity|].
  split; [apply timers_add_remove, Hfresh|]. split; reflexivity.
Qed.

Lemma MediaRecorder_play_pause_roundtrip_witness :
  let s := playerState audio in
  let playing :=
    fst (MediaRecorder_settle (Ok tt) s (event MediaRecorder.togglePlayback s)) in
  let stopped :=
    fst (MediaRecorder_settle (Ok tt) playing (event MediaRecorder.togglePlayback playing)) in
  size (timers (env playing)) = 1 /\ size (timers (env stopped)) = 0 /\
  option_map paused (mediaRef (pb stopped)) = Some true.
Proof.
  assert (Hfresh : nextTimer (env (playerState audio)) ∉ timers (env (playerState audio))).
  { intros H. apply (bool_decide_pack _) in H. vm_compute in H. exact H. }
  destruct (MediaRecorder_play_pause_roundtrip (playerState audio)
              (mkElement true 0 1 (Some 0) 0 0) 0 eq_refl eq_refl eq_refl eq_refl eq_refl
              eq_refl Hfresh) as ((_ & _ & P3 & _) & (_ & _ & S3 & _ & S5)).
  cbv zeta. rewrite P3, S3, S5. repeat split.
Defined.

(** ** What a finished recording reports *)

Lemma performTranscription_effect (e : TranscriptionEnv) (r : Render) (s : State) :
  let res := MediaRecorder.performTranscription e r s in
  pb (snd res) = pb s /\ cap (snd res) = cap s /\
  completed (env (snd res)) = completed (env s) /\
  objectUrls (env (snd res)) = objectUrls (env s) /\
  match fst res with
  | Ok text =>
      transcribedText (drv (snd res)) = Some text /\
      isTranscribing (drv (snd res)) = false /\
      transcriptionProgress (drv (snd res)) = 100%Q
  | Throw _ => False
  | Pending =>
      transcribedText (drv (snd res)) = Some "Transcribing your audio..." /\
      isTranscribing (drv (snd res)) = true
  end.
Proof.
  unfold MediaRecorder.performTranscription. cbn.
  destruct (isWhisperSupportedState (drv r)); cbn.
  - pose proof (transcribeAudioClient_never_throws (t_window e) (t_script e) (t_run e)
                  (whisper (env s))) as Hnt.
    destruct (transcribeAudioClient _ _ _ _) as [[t|msg|] m]; cbn;
      [auto 10 | exfalso; apply (Hnt msg); reflexivity | auto 10].
  - pose proof (transcribeAudioFallback_never_throws (t_speech e)) as Hnt.
    destruct (transcribeAudioFallback (t_speech e)) as [t|msg|]; cbn;
      [auto 10 | exfalso; apply (Hnt msg); reflexivity | auto 10].
Qed.

Lemma performTranscription_result (e : TranscriptionEnv) (r : Render) (s s2 : State) :
  whisper (env s2) = whisper (env s) ->
  fst (MediaRecorder.performTranscription e r s2) =
  fst (MediaRecorder.performTranscription e r s).
Proof.
  intros H. unfold MediaRecorder.performTranscription. cbn. rewrite H.
  destruct (isWhisperSupportedState (drv r)); cbn.
  - destruct (transcribeAudioClient _ _ _ _) as [[t|msg|] m]; cbn; try reflexivity.
    destruct (transcribeAudioFallback (t_speech e)); reflexivity.
  - destruct (transcribeAudioFallback (t_speech e)); reflexivity.
Qed.

(** X10.  What [MediaRecorder.onstop] reports for a buffer of non-empty
    chunks.  In video mode [onRecordingComplete] receives the blob at once,
    with no transcription, and no transcription is started.  In audio mode
    it receives the blob only when the transcription has settled, together
    with the text that is then displayed as [transcribedText]; as long as
    the transcription is pending the parent is not told about the
    recording, and the component shows that it is transcribing. *)
Theorem MediaRecorder_onstop_reports (mimeType : string) (e : TranscriptionEnv)
    (r : Render) (s : State) :
  chunksRef (cap s) <> [] ->
  Forall (fun b => 0 < blob_size b) (chunksRef (cap s)) ->
  let blob := new_Blob (chunksRef (cap s)) mimeType in
  let s' := MediaRecorder.onstop mimeType e r s in
  recordedBlob (cap s') = Some blob /\
  match mediaType (cap r) with
  | video =>
      completed (env s') = (completed (env s) ++ [mkCompletion blob (Some video) None])%list /\
      adapterCalls (env s') = adapterCalls (env s) /\
      drv s' = drv s
  | audio =>
      match fst (MediaRecorder.performTranscription e r s) with
      | Ok text =>
          completed (env s') =
            (completed (env s) ++ [mkCompletion blob (Some audio) (Some text)])%list /\
          transcribedText (drv s') = Some text /\
          isTranscribing (drv s') = false
      | Throw _ => False
      | Pending =>
          completed (env s') = completed (env s) /\
          transcribedText (drv s') = Some "Transcribing your audio..." /\
          isTranscribing (drv s') = true
      end
  end.
Proof.
  intros Hne Hpos. cbv zeta.
  pose proof (MediaRecorder_onstop_blob mimeType e r s Hpos) as Hblob. cbv zeta in Hblob.
  pose proof (new_Blob_positive _ mimeType Hne Hpos) as Hsz.
  destruct (chunksRef (cap s)) as [|b chunks] eqn:Hchunks; [congruence|].
  split; [exact Hblob|]. clear Hblob.
  unfold MediaRecorder.onstop. rewrite Hchunks.
  destruct (blob_size (new_Blob (b :: chunks) mimeType) =? 0)%nat eqn:E;
    [apply Nat.eqb_eq in E; lia|].
  cbv zeta.
  set (blob := new_Blob (b :: chunks) mimeType) in *.
  set (s1 := MediaRecorder.revokeMediaUrl r (setRecordedBlob (Some blob) s)).
  assert (H1 : drv s1 = drv s /\ completed (env s1) = completed (env s) /\
               adapterCalls (env s1) = adapterCalls (env s) /\
               whisper (env s1) = whisper (env s)).
  { subst s1. unfold MediaRecorder.revokeMediaUrl.
    destruct (mediaUrl (cap r)); cbn; auto. }
  destruct H1 as (D1 & C1 & A1 & W1). clearbody s1.
  destruct (createObjectURL s1) as [newMediaUrl s2] eqn:E2.
  assert (H2 : drv s2 = drv s /\ completed (env s2) = completed (env s) /\
               adapterCalls (env s2) = adapterCalls (env s) /\
               whisper (env s2) = whisper (env s)).
  { unfold createObjectURL in E2. injection E2 as _ <-. cbn. auto. }
  destruct H2 as (D2 & C2 & A2 & W2). clear E2. clearbody blob.
  set (s3 := withElement (el_set_src newMediaUrl) (setMediaUrl (Some newMediaUrl) s2)).
  assert (H3 : drv s3 = drv s /\ completed (env s3) = completed (env s) /\
               adapterCalls (env s3) = adapterCalls (env s) /\
               whisper (env s3) = whisper (env s)).
  { subst s3. cbn. auto. }
  destruct H3 as (D3 & C3 & A3 & W3). clearbody s3.
  destruct (mediaType (cap r)).
  - rewrite <- (performTranscription_result e r s s3 W3).
    pose proof (performTranscription_effect e r s3) as Heff. cbv zeta in Heff.
    destruct (MediaRecorder.performTranscription e r s3) as [[text|msg|] s4];
      cbn [fst snd] in *.
    + destruct Heff as (_ & _ & Hc & _ & Ht & Hi & _).
      cbn. rewrite Hc, C3. auto.
    + destruct Heff as (_ & _ & _ & _ & []).
    + destruct Heff as (_ & _ & Hc & _ & Ht & Hi). rewrite Hc, C3. auto.
  - cbn. rewrite C3, A3, D3. auto.
Qed.

Lemma MediaRecorder_onstop_reports_witness :
  let s := setChunksRef [mkBlob 1024 "audio/webm"] (initialState audio) in
  let blob := mkBlob 1024 "audio/webm;codecs=opus" in
  completed (env (MediaRecorder.onstop "audio/webm;codecs=opus" helloRun s s)) =
    [mkCompletion blob (Some audio) (Some "hello world")] /\
  completed (env (MediaRecorder.onstop "audio/webm;codecs=opus"
                    (mkTranscriptionEnv (t_window helloRun) None (t_run helloRun)
                       (t_speech helloRun)) s s)) = [].
Proof.
  pose (s := setChunksRef [mkBlob 1024 "audio/webm"] (initialState audio)).
  assert (Hpos : Forall (fun b => 0 < blob_size b) (chunksRef (cap s))).
  { constructor; [cbn; lia | constructor]. }
  split.
  - destruct (MediaRecorder_onstop_reports "audio/webm;codecs=opus" helloRun s s
                ltac:(discriminate) Hpos) as [_ H].
    apply H.
  - destruct (MediaRecorder_onstop_reports "audio/webm;codecs=opus"
                (mkTranscriptionEnv (t_window helloRun) None (t_run helloRun)
                   (t_speech helloRun)) s s ltac:(discriminate) Hpos) as [_ H].
    apply H.
Defined.

(** ** Mount and unmount *)

(** X11.  The unmount cleanup of [MediaRecorder] stops the tracks of the
    held stream and cancels the intervals held in [timerRef] and
    [playbackTimerRef], and clears the three refs.  It is the closure of
    the first render, in which [mediaUrl] is [null], so it revokes nothing:
    the object URL of a finished recording is still allocated after the
    component has gone. *)
Theorem MediaRecorder_unmount_keeps_url (defaultType : MediaType) (s : State) :
  let s' := MediaRecorder.cleanup (initialState defaultType) s in
  (streamRef (cap s') = None /\ timerRef (cap s') = None /\
   playbackTimerRef (pb s') = None) /\
  (forall i, streamRef (cap s) = Some i -> i ∉ liveStreams (env s')) /\
  (forall t, timerRef (cap s) = Some t \/ playbackTimerRef (pb s) = Some t ->
             t ∉ timers (env s')) /\
  objectUrls (env s') = objectUrls (env s) /\
  mediaUrl (cap s') = mediaUrl (cap s).
Proof.
  cbv zeta. unfold MediaRecorder.cleanup, MediaRecorder.revokeMediaUrl. cbn [initialState cap mediaUrl].
  destruct (MediaRecorder_stopMediaTracks_views s) as (T1 & U1 & _ & R1 & L1).
  set (s1 := MediaRecorder.stopMediaTracks s) in *. clearbody s1.
  destruct (MediaRecorder_clearTimers_views s1) as (S2 & U2 & _ & R2 & P2 & T2).
  set (s2 := MediaRecorder.clearTimers s1) in *. clearbody s2.
  unfold timerView, streamView, urlView in *.
  injection T1 as T1a T1b T1c. injection U1 as U1a U1b.
  injection S2 as S2a S2b S2c. injection U2 as U2a U2b.
  split; [split; [congruence | split; assumption]|].
  split; [intros i Hi; rewrite S2b; apply L1, Hi|].
  split; [intros t Ht; apply T2; rewrite T1a, T1b; tauto|].
  split; congruence.
Qed.

(** X12.  [MediaRecorder] asks for the device twice when it mounts: the
    reset that the media-type effect runs ends with [startMediaStream()],
    and the mount effect calls [startMediaStream()] again.  When both
    requests are granted, [streamRef] holds the second stream and nothing
    refers to the first: its tracks are live, and they stay live when
    [stopMediaTracks] or the unmount cleanup runs. *)
Theorem MediaRecorder_mount_leaves_stream (h : Host) (rnd : Q) (r s : State) :
  acquire h = Granted ->
  let first := nextStream (env s) in
  let s1 := MediaRecorder.resetRecording h r s in
  let s2 := MediaRecorder.startMediaStream Granted rnd r s1 in
  streamRef (cap s1) = Some first /\
  streamRef (cap s2) = Some (S first) /\
  first ∈ liveStreams (env s2) /\ S first ∈ liveStreams (env s2) /\
  first ∈ liveStreams (env (MediaRecorder.stopMediaTracks s2)) /\
  first ∈ liveStreams (env (MediaRecorder.cleanup r s2)).
Proof.
  intros Hg. cbv zeta.
  assert (H1 : streamRef (cap (MediaRecorder.resetRecording h r s)) = Some (nextStream (env s)) /\
               nextStream (env (MediaRecorder.resetRecording h r s)) = S (nextStream (env s)) /\
               nextStream (env s) ∈ liveStreams (env (MediaRecorder.resetRecording h r s))).
  { unfold MediaRecorder.resetRecording. rewrite Hg. cbv zeta.
    set (s0 := if isRecording (cap r) && _ then MediaRecorder.stopRecording r s else s).
    assert (H0 : nextStream (env s0) = nextStream (env s)).
    { subst s0. destruct (isRecording (cap r) && _); [|reflexivity].
      destruct (MediaRecorder_stopRecording_views r s) as (Hs & _).
      unfold streamView in Hs. congruence. }
    clearbody s0.
    set (s0' := match mediaRef (pb s0) with
                | Some el => if negb (paused el) then withElement el_pause s0 else s0
                | None => s0
                end).
    assert (H0' : nextStream (env s0') = nextStream (env s)).
    { subst s0'. destruct (mediaRef (pb s0)) as [el|]; [destruct (paused el)|]; cbn; exact H0. }
    clearbody s0'.
    destruct (MediaRecorder_stopMediaTracks_views s0') as (_ & _ & N1 & _ & _).
    set (s1 := MediaRecorder.stopMediaTracks s0') in *. clearbody s1.
    destruct (MediaRecorder_clearTimers_views s1) as (S2 & _).
    set (s2 := MediaRecorder.clearTimers s1) in *. clearbody s2.
    assert (N2 : nextStream (env s2) = nextStream (env s)).
    { unfold streamView in S2. congruence. }
    set (s3 := MediaRecorder.revokeMediaUrl r s2).
    assert (N3 : nextStream (env s3) = nextStream (env s)).
    { subst s3. unfold MediaRecorder.revokeMediaUrl. destruct (mediaUrl (cap r)); cbn; exact N2. }
    clearbody s3.
    unfold MediaRecorder.startMediaStream, MediaRecorder.startAnalysisSimulation,
      MediaRecorder.updateAnalysis.
    destruct (isRecording (cap r)); cbn; rewrite N3;
      (split; [reflexivity|]); (split; [reflexivity|]);
      apply elem_of_union; left; apply elem_of_singleton; reflexivity. }
  destruct H1 as (R1 & N1 & L1).
  set (s1 := MediaRecorder.resetRecording h r s) in *. clearbody s1.
  assert (H2 : streamRef (cap (MediaRecorder.startMediaStream Granted rnd r s1)) =
                 Some (S (nextStream (env s))) /\
               liveStreams (env (MediaRecorder.startMediaStream Granted rnd r s1)) =
                 {[S (nextStream (env s))]} ∪ liveStreams (env s1)).
  { unfold MediaRecorder.startMediaStream, MediaRecorder.startAnalysisSimulation,
      MediaRecorder.updateAnalysis.
    destruct (isRecording (cap r)); cbn; rewrite N1; auto. }
  destruct H2 as (R2 & L2).
  set (s2 := MediaRecorder.startMediaStream Granted rnd r s1) in *. clearbody s2.
  assert (Hin : nextStream (env s) ∈ liveStreams (env s2)).
  { rewrite L2. apply elem_of_union. right. exact L1. }
  assert (Hstop : nextStream (env s) ∈ liveStreams (env (MediaRecorder.stopMediaTracks s2))).
  { unfold MediaRecorder.stopMediaTracks. rewrite R2. cbn.
    apply elem_of_difference. split; [exact Hin|].
    rewrite elem_of_singleton. lia. }
  split; [exact R1|]. split; [exact R2|]. split; [exact Hin|].
  split; [rewrite L2; apply elem_of_union; left; apply elem_of_singleton; reflexivity|].
  split; [exact Hstop|].
  unfold MediaRecorder.cleanup.
  set (s3 := MediaRecorder.stopMediaTracks s2) in *. clearbody s3.
  destruct (MediaRecorder_clearTimers_views s3) as (S4 & _).
  set (s4 := MediaRecorder.clearTimers s3) in *.
  assert (L4 : liveStreams (env s4) = liveStreams (env s3)).
  { unfold streamView in S4. congruence. }
  clearbody s4. unfold MediaRecorder.revokeMediaUrl.
  destruct (mediaUrl (cap r)); cbn; rewrite L4; exact Hstop.
Qed.

Lemma MediaRecorder_mount_leaves_stream_witness :
  let s := MediaRecorder_mounted audio in
  streamRef (cap s) = Some 1 /\
  size (liveStreams (env s)) = 2 /\
  size (liveStreams (env (MediaRecorder.cleanup (initialState audio) s))) = 1.
Proof.
  pose (s0 := fst (MediaRecorder.checkCapabilities (Page Undefined) constructorURL
                     "function" (initialState audio))).
  destruct (MediaRecorder_mount_leaves_stream grantedHost 0 (initialState audio) s0
              eq_refl) as (_ & H2 & _).
  split; [exact H2|]. split; reflexivity.
Defined.

(** ** Stop and reset in [AudioRecorder] and [WebcamRecorder] *)

(** X13.  Stopping a running recording in [AudioRecorder] and in
    [WebcamRecorder] makes the recorder inactive, cancels the interval of
    the recording clock and stops the tracks of the held stream, and
    [streamRef] is cleared.  A second stop from the next render does
    nothing.  A second stop from the same render finds the recorder
    inactive: [AudioRecorder] catches the exception and shows an error,
    [WebcamRecorder] lets it escape. *)
Theorem stopRecording_releases (s : State) (rec : PlatformRecorder) (t i : nat) :
  mediaRecorderRef (cap s) = Some rec -> rec_state rec = recording ->
  isRecording (cap s) = true ->
  timerRef (cap s) = Some t -> streamRef (cap s) = Some i ->
  let a := event AudioRecorder.stopRecording s in
  event WebcamRecorder.stopRecording s = Ok a /\
  (isRecording (cap a) = false /\
   mediaRecorderRef (cap a) = Some (mkRecorder inactive (rec_mimeType rec)) /\
   streamRef (cap a) = None /\
   (t ∉ timers (env a)) /\ (i ∉ liveStreams (env a))) /\
  (event AudioRecorder.stopRecording a = a /\
   event WebcamRecorder.stopRecording a = Ok a) /\
  (AudioRecorder.stopRecording s a =
     setError (Some "Failed to stop recording. Please refresh the page and try again.") a /\
   WebcamRecorder.stopRecording s a = Throw "InvalidStateError").
Proof.
  intros Hrec Hst Hr Ht Hi. cbv zeta.
  unfold event, AudioRecorder.stopRecording, WebcamRecorder.stopRecording.
  rewrite Hrec, Hr, Hst.
  destruct s as [p c d b]; destruct c; destruct b.
  cbn in Hrec, Hr, Ht, Hi |- *. subst. cbn.
  split; [reflexivity|]. split; [|split; split; reflexivity].
  do 3 (split; [reflexivity|]).
  split; auto with resources.
Qed.

Lemma stopRecording_releases_witness :
  let a := event AudioRecorder.stopRecording audioRecording in
  size (timers (env audioRecording)) = 1 /\ size (liveStreams (env audioRecording)) = 1 /\
  size (timers (env a)) = 0 /\ size (liveStreams (env a)) = 0 /\
  event WebcamRecorder.stopRecording audioRecording = Ok a.
Proof.
  destruct (stopRecording_releases audioRecording (mkRecorder recording "audio/webm;codecs=opus")
              0 0 eq_refl eq_refl eq_refl eq_refl eq_refl) as (H1 & _).
  do 4 (split; [reflexivity|]). exact H1.
Defined.

Lemma AudioRecorder_startMicrophone_outcome (h : Host) (s0 s : State) :
  streamRef (cap s) = streamRef (cap s0) ->
  liveStreams (env s) = liveStreams (env s0) ->
  nextStream (env s) = nextStream (env s0) ->
  let s' := AudioRecorder.startMicrophone (acquire h) s in
  pb s' = pb s /\ drv s' = drv s /\ objectUrls (env s') = objectUrls (env s) /\
  recordedBlob (cap s') = recordedBlob (cap s) /\ mediaUrl (cap s') = mediaUrl (cap s) /\
  recordingTime (cap s') = recordingTime (cap s) /\
  match acquire h with
  | Granted =>
      streamRef (cap s') = Some (nextStream (env s0)) /\
      nextStream (env s0) ∈ liveStreams (env s') /\
      error (cap s') = None
  | Denied _ _ =>
      streamRef (cap s') = streamRef (cap s0) /\
      liveStreams (env s') = liveStreams (env s0) /\
      is_Some (error (cap s'))
  end.
Proof.
  intros H1 H2 H3. cbv zeta. unfold AudioRecorder.startMicrophone.
  destruct (acquire h); cbn; rewrite ?H1, ?H2, ?H3; do 6 (split; [reflexivity|]).
  - split; [reflexivity|]. split; [|reflexivity].
    apply elem_of_union. left. apply elem_of_singleton. reflexivity.
  - split; [reflexivity|]. split; [reflexivity|]. eauto.
Qed.

Lemma WebcamRecorder_startCamera_outcome (h : Host) (s0 s : State) :
  streamRef (cap s) = streamRef (cap s0) ->
  liveStreams (env s) = liveStreams (env s0) ->
  nextStream (env s) = nextStream (env s0) ->
  let s' := WebcamRecorder.startCamera (acquire h) s in
  pb s' = pb s /\ drv s' = drv s /\ objectUrls (env s') = objectUrls (env s) /\
  recordedBlob (cap s') = recordedBlob (cap s) /\ mediaUrl (cap s') = mediaUrl (cap s) /\
  recordingTime (cap s') = recordingTime (cap s) /\
  match acquire h with
  | Granted =>
      streamRef (cap s') = Some (nextStream (env s0)) /\
      nextStream (env s0) ∈ liveStreams (env s') /\
      error (cap s') = None
  | Denied _ _ =>
      streamRef (cap s') = streamRef (cap s0) /\
      liveStreams (env s') = liveStreams (env s0) /\
      is_Some (error (cap s'))
  end.
Proof.
  intros H1 H2 H3. cbv zeta. unfold WebcamRecorder.startCamera.
  destruct (acquire h); cbn; rewrite ?H1, ?H2, ?H3; do 6 (split; [reflexivity|]).
  - split; [reflexivity|]. split; [|reflexivity].
    apply elem_of_union. left. apply elem_of_singleton. reflexivity.
  - split; [reflexivity|]. split; [reflexivity|]. eauto.
Qed.

Lemma reset_body_outcome (s : State) :
  let s1 := match mediaRef (pb s) with
            | Some el => if negb (paused el) then withElement el_pause s else s
            | None => s
            end in
  let s2 := match mediaUrl (cap s) with
            | Some u => setMediaUrl None (revokeObjectURL u s1)
            | None => s1
            end in
  let s3 :=
    setAnalysisMetrics zeroSample
      (setIsPlaying false
         (setDuration 0
            (setCurrentTime 0 (setRecordingTime 0 (setRecordedBlob None s2))))) in
  (streamRef (cap s3) = streamRef (cap s) /\ liveStreams (env s3) = liveStreams (env s) /\
   nextStream (env s3) = nextStream (env s)) /\
  recordedBlob (cap s3) = None /\ mediaUrl (cap s3) = None /\
  (forall u, mediaUrl (cap s) = Some u -> u ∉ objectUrls (env s3)) /\
  recordingTime (cap s3) = 0 /\
  currentTime (pb s3) = 0%Q /\ duration (pb s3) = 0%Q /\
  isPlaying (pb s3) = false /\
  analysisMetrics (drv s3) = zeroSample /\
  (forall el, mediaRef (pb s) = Some el ->
              option_map paused (mediaRef (pb s3)) = Some true).
Proof.
  cbv zeta.
  destruct s as [p c d b]; destruct p as [? ? ? ? ? ? ? ? el ?];
    destruct c as [? ? ? ? ? url ? ? ? ? ? ?]; destruct b.
  destruct el as [[[] ? ? ? ? ?]|], url as [u|]; cbn;
    (split; [auto|]); do 2 (split; [reflexivity|]);
    (split; [intros v Hv; simplify_eq; auto with resources|]);
    do 5 (split; [reflexivity|]); intros el Hel; simplify_eq; reflexivity.
Qed.

(** X14.  The handler [resetRecording] of [AudioRecorder] and of
    [WebcamRecorder], called in a render that is not recording (the
    recording has been stopped), discards the recording: the blob and the
    playback URL are cleared and the URL is revoked, the clock, the
    position and the duration are 0, the player is paused and not playing,
    the analysis is zero.  A granted request then leaves a fresh live
    stream in [streamRef] and no error; a denied one leaves [streamRef] as
    the handler found it and sets the error. *)
Theorem resetRecording_discards_recording (h : Host) (s : State) :
  isRecording (cap s) = false ->
  resetOutcome h s (event (AudioRecorder.resetRecording h) s) /\
  resetOutcome h s (event (WebcamRecorder.resetRecording h) s).
Proof.
  intros _.
  pose proof (reset_body_outcome s) as Hbody. cbv zeta in Hbody.
  destruct Hbody as ((B1 & B2 & B3) & B4 & B5 & B6 & B7 & B8 & B9 & B10 & B11 & B12).
  split.
  - unfold event, AudioRecorder.resetRecording. cbv zeta.
    match goal with |- resetOutcome _ _ (AudioRecorder.startMicrophone _ ?x) =>
      set (s3 := x) in *;
      pose proof (AudioRecorder_startMicrophone_outcome h s s3 B1 B2 B3) as Hmic
    end.
    cbv zeta in Hmic. destruct Hmic as (P & D & U & R & M & T & Hacq).
    unfold resetOutcome. rewrite P, D, U, R, M, T.
    do 9 (split; [assumption|]). exact Hacq.
  - unfold event, WebcamRecorder.resetRecording. cbv zeta.
    match goal with |- resetOutcome _ _ (WebcamRecorder.startCamera _ ?x) =>
      set (s3 := x) in *;
      pose proof (WebcamRecorder_startCamera_outcome h s s3 B1 B2 B3) as Hcam
    end.
    cbv zeta in Hcam. destruct Hcam as (P & D & U & R & M & T & Hacq).
    unfold resetOutcome. rewrite P, D, U, R, M, T.
    do 9 (split; [assumption|]). exact Hacq.
Qed.

Lemma resetRecording_discards_recording_witness :
  is_Some (recordedBlob (cap audioRecorded)) /\
  recordedBlob (cap (event (AudioRecorder.resetRecording grantedHost) audioRecorded)) = None /\
  mediaUrl (cap (event (WebcamRecorder.resetRecording grantedHost) audioRecorded)) = None.
Proof.
  assert (Hr : isRecording (cap audioRecorded) = false) by (vm_compute; reflexivity).
  destruct (resetRecording_discards_recording grantedHost audioRecorded Hr)
    as [(Ha & _) (_ & Hw & _)].
  split; [eexists; vm_compute; reflexivity|]. split; [exact Ha | exact Hw].
Defined.

Lemma remove_subseteq (X : gset nat) (a : nat) : X ∖ {[a]} ⊆ X.
Proof. intros x Hx. apply elem_of_difference in Hx. tauto. Qed.

Lemma remove_subseteq_trans (X Y : gset nat) (a : nat) : X ⊆ Y -> X ∖ {[a]} ⊆ Y.
Proof. intros H x Hx. apply elem_of_difference in Hx. apply H. tauto. Qed.

Lemma not_elem_of_subseteq (X Y : gset nat) (a : nat) : a ∉ Y -> X ⊆ Y -> a ∉ X.
Proof. intros Ha H Hx. apply Ha, H, Hx. Qed.

Lemma AudioRecorder_cleanupUrlEffect_releases (r s : State) :
  let s' := AudioRecorder.cleanupUrlEffect r s in
  streamRef (cap s') = None /\
  (forall i, streamRef (cap s) = Some i -> i ∉ liveStreams (env s')) /\
  (forall t, timerRef (cap s) = Some t \/ playbackTimerRef (pb s) = Some t ->
             t ∉ timers (env s')) /\
  (forall u, mediaUrl (cap r) = Some u -> u ∉ objectUrls (env s')).
Proof.
  cbv zeta. unfold AudioRecorder.cleanupUrlEffect, AudioRecorder.stopMediaTracks.
  destruct (mediaUrl (cap r)) as [u|];
    destruct s as [p c d b]; destruct p as [? ? ? ? ? ? ? ? el ptimer];
    destruct c as [? ? ? ? ? ? ? ? ? stream timer ?]; destruct b;
    destruct el as [[[] ? ? ? ? ?]|], stream as [i|], timer as [t|], ptimer as [pt|];
    cbn; (split; [reflexivity|]);
    (split; [intros j Hj; inversion Hj; subst; auto with resources|]);
    (split; [intros j [Hj|Hj]; inversion Hj; subst; auto with resources|]);
    intros j Hj; inversion Hj; subst; auto with resources.
Qed.

Lemma AudioRecorder_cleanupMountEffect_shrinks (r s : State) :
  let s' := AudioRecorder.cleanupMountEffect r s in
  (streamRef (cap s) = None -> streamRef (cap s') = None) /\
  liveStreams (env s') ⊆ liveStreams (env s) /\
  timers (env s') ⊆ timers (env s) /\
  objectUrls (env s') ⊆ objectUrls (env s).
Proof.
  cbv zeta. unfold AudioRecorder.cleanupMountEffect, AudioRecorder.stopMediaTracks.
  destruct (mediaUrl (cap r)) as [u|];
    destruct s as [p c d b]; destruct p as [? ? ? ? ? ? ? ? ? ptimer];
    destruct c as [? ? ? ? ? ? ? ? ? stream timer ?]; destruct b;
    destruct stream as [i|], timer as [t|], ptimer as [pt|];
    cbn; (split; [auto; discriminate|]);
    repeat split;
    repeat (first [reflexivity | apply remove_subseteq | apply remove_subseteq_trans]).
Qed.

(** X15.  Unmounting [AudioRecorder] releases what it holds: the tracks of
    the held stream are stopped, the intervals held in [timerRef] and
    [playbackTimerRef] are cancelled and the playback URL is revoked, the
    last by the cleanup of the effect that is installed again whenever
    [audioUrl] changes. *)
Theorem AudioRecorder_unmount_releases (r r0 s : State) :
  mediaUrl (cap r) = mediaUrl (cap s) ->
  let s' := AudioRecorder.unmount r r0 s in
  streamRef (cap s') = None /\
  (forall i, streamRef (cap s) = Some i -> i ∉ liveStreams (env s')) /\
  (forall t, timerRef (cap s) = Some t \/ playbackTimerRef (pb s) = Some t ->
             t ∉ timers (env s')) /\
  (forall u, mediaUrl (cap s) = Some u -> u ∉ objectUrls (env s')).
Proof.
  intros Hr. cbv zeta. unfold AudioRecorder.unmount.
  set (s0 := setMediaRef None s).
  assert (H0 : streamRef (cap s0) = streamRef (cap s) /\
               timerRef (cap s0) = timerRef (cap s) /\
               playbackTimerRef (pb s0) = playbackTimerRef (pb s)) by auto.
  destruct H0 as (E1 & E2 & E3).
  destruct (AudioRecorder_cleanupUrlEffect_releases r s0) as (A1 & A2 & A3 & A4).
  cbv zeta in *.
  set (s1 := AudioRecorder.cleanupUrlEffect r s0) in *. clearbody s1.
  destruct (AudioRecorder_cleanupMountEffect_shrinks r0 s1) as (B1 & B2 & B3 & B4).
  cbv zeta in *.
  set (s2 := AudioRecorder.cleanupMountEffect r0 s1) in *. clearbody s2.
  split; [auto|]. split; [|split].
  - intros i Hi. eapply not_elem_of_subseteq; [|exact B2]. apply A2. congruence.
  - intros t Ht. eapply not_elem_of_subseteq; [|exact B3]. apply A3.
    rewrite E2, E3. exact Ht.
  - intros u Hu. eapply not_elem_of_subseteq; [|exact B4]. apply A4. congruence.
Qed.

Lemma AudioRecorder_unmount_releases_witness :
  let s := audioRecorded in
  let s' := AudioRecorder.unmount s (initialState audio) s in
  mediaUrl (cap s) = Some 0 /\ size (objectUrls (env s)) = 1 /\
  size (objectUrls (env s')) = 0 /\
  size (objectUrls (env (MediaRecorder.cleanup (initialState audio) s))) = 1.
Proof.
  pose proof (AudioRecorder_unmount_releases audioRecorded (initialState audio)
                audioRecorded eq_refl) as (_ & _ & _ & H).
  specialize (H 0 eq_refl).
  split; [reflexivity|]. split; [reflexivity|]. split; reflexivity.
Defined.

(** ** The voice analysis of [AudioRecorder] *)

Local Open Scope Q_scope.

Lemma byte_sum_bounds (dataArray : list Byte.byte) (acc : Q) :
  let sum := fold_left (fun sum b => sum + inject_Z (Z.of_N (Byte.to_N b))) dataArray acc in
  acc <= sum /\ sum <= acc + 255 * inject_Z (Z.of_nat (length dataArray)).
Proof.
  revert acc. induction dataArray as [|b l IH]; intros acc; cbn [fold_left length].
  - cbn. split; [lra|]. change (inject_Z (Z.of_nat 0)) with 0. lra.
  - destruct (IH (acc + inject_Z (Z.of_N (Byte.to_N b)))) as [L U]. cbv zeta in *.
    pose proof (Byte.to_N_bounded b) as Hb.
    assert (H0 : 0 <= inject_Z (Z.of_N (Byte.to_N b))).
    { change 0 with (inject_Z 0). rewrite <- Zle_Qle. lia. }
    assert (H1 : inject_Z (Z.of_N (Byte.to_N b)) <= 255).
    { change 255 with (inject_Z 255). rewrite <- Zle_Qle. lia. }
    assert (H2 : inject_Z (Z.of_nat (S (length l))) == inject_Z (Z.of_nat (length l)) + 1).
    { rewrite Nat2Z.inj_succ. unfold Z.succ. rewrite inject_Z_plus. reflexivity. }
    split; [lra|]. rewrite H2. lra.
Qed.

Lemma normalizedVolume_bounds (dataArray : list Byte.byte) :
  dataArray <> [] ->
  0 <= AudioRecorder.normalizedVolume dataArray <= 1.
Proof.
  intros Hne. unfold AudioRecorder.normalizedVolume. cbv zeta.
  destruct (byte_sum_bounds dataArray 0) as [L _]. cbv zeta in L.
  set (sum := fold_left _ dataArray 0) in *.
  assert (Hn : 0 < inject_Z (Z.of_nat (length dataArray))).
  { change 0 with (inject_Z 0). rewrite <- Zlt_Qlt.
    destruct dataArray; [congruence | cbn; lia]. }
  split; [|apply Q.le_min_r].
  apply Q.min_glb; [|lra].
  apply Qdiv_nonneg; [|lra]. apply Qdiv_nonneg; assumption.
Qed.

(** X16.  The voice analysis of [AudioRecorder].  For a non-empty frame of
    frequency data the normalized volume lies in [0, 1]; every field of the
    sample computed from a volume in that range is a percentage; and for a
    fixed volume no field decreases as the recording clock advances. *)
Theorem AudioRecorder_voice_analysis_in_range (dataArray : list Byte.byte)
    (t t' : nat) :
  dataArray <> [] ->
  let normalizedVolume := AudioRecorder.normalizedVolume dataArray in
  0 <= normalizedVolume <= 1 /\
  in_range (AudioRecorder.newAnalysis normalizedVolume t) /\
  ((t <= t')%nat ->
   sample_le (AudioRecorder.newAnalysis normalizedVolume t)
     (AudioRecorder.newAnalysis normalizedVolume t')).
Proof.
  intros Hne. cbv zeta.
  pose proof (normalizedVolume_bounds dataArray Hne) as Hv.
  set (v := AudioRecorder.normalizedVolume dataArray) in *. clearbody v.
  pose proof (seconds_nonneg t) as Ht.
  split; [exact Hv|]. split.
  - unfold in_range, AudioRecorder.newAnalysis, sample_fields. cbn.
    assert (H10 : 0 <= seconds t / 10) by (apply Qdiv_nonneg; lra).
    assert (H30 : 0 <= seconds t / 30) by (apply Qdiv_nonneg; lra).
    repeat (apply List.Forall_cons); try apply List.Forall_nil;
      try (apply Qmin_percentage; nra); unfold percentage; nra.
  - intros Hle. pose proof (seconds_mono t t' Hle) as Hmono.
    assert (H10 : seconds t / 10 <= seconds t' / 10) by (apply Qdiv_mono; lra).
    assert (H30 : seconds t / 30 <= seconds t' / 30) by (apply Qdiv_mono; lra).
    unfold sample_le, AudioRecorder.newAnalysis, sample_fields. cbn.
    repeat (apply List.Forall2_cons); try apply List.Forall2_nil;
      try (apply Qmin_cap_mono; lra); lra.
Qed.

Lemma AudioRecorder_voice_analysis_witness :
  let frame := [Byte.x40; Byte.x80; Byte.xff; Byte.x00] in
  in_range (AudioRecorder.newAnalysis (AudioRecorder.normalizedVolume frame) 12) /\
  a_pace (AudioRecorder.newAnalysis (AudioRecorder.normalizedVolume frame) 12) == 100.
Proof.
  destruct (AudioRecorder_voice_analysis_in_range
              [Byte.x40; Byte.x80; Byte.xff; Byte.x00] 12 12 ltac:(discriminate))
    as (_ & H & _).
  split; [exact H | reflexivity].
Defined.

(** ** The clock display *)

Lemma Qfloor_unique (q : Q) (k : Z) :
  inject_Z k <= q -> q < inject_Z (k + 1) -> Qfloor q = k.
Proof.
  intros L U. pose proof (Qfloor_le q) as FL. pose proof (Qlt_floor q) as FU.
  assert (H1 : (k < Qfloor q + 1)%Z) by (rewrite Zlt_Qlt; lra).
  assert (H2 : (Qfloor q < k + 1)%Z) by (rewrite Zlt_Qlt; lra).
  lia.
Qed.

Lemma formatTime_parts (x : Q) :
  0 <= x ->
  formatTime x =
  (padStart 2 "0" (toString (Qfloor x / 60)) +:+ ":" +:+
   padStart 2 "0" (toString (Qfloor x mod 60)))%string.
Proof.
  intros Hx.
  pose proof (Qfloor_le x) as FL. pose proof (Qlt_floor x) as FU.
  set (n := Qfloor x) in *.
  assert (Hn : (0 <= n)%Z).
  { assert (H : (0 < n + 1)%Z) by (rewrite Zlt_Qlt; change (inject_Z 0) with 0; lra).
    lia. }
  pose proof (Z.div_mod n 60 ltac:(lia)) as Hdm.
  pose proof (Z.mod_pos_bound n 60 ltac:(lia)) as Hmod.
  set (m := (n / 60)%Z) in *. set (k := (n mod 60)%Z) in *.
  assert (En : inject_Z n == 60 * inject_Z m + inject_Z k).
  { rewrite Hdm, inject_Z_plus, inject_Z_mult. reflexivity. }
  assert (Ek : 0 <= inject_Z k /\ inject_Z k + 1 <= 60).
  { split.
    - change 0 with (inject_Z 0). rewrite <- Zle_Qle. lia.
    - change 60 with (inject_Z 60). change 1 with (inject_Z 1).
      rewrite <- inject_Z_plus, <- Zle_Qle. lia. }
  assert (E1 : inject_Z (n + 1) == inject_Z n + 1).
  { rewrite inject_Z_plus. reflexivity. }
  assert (Hq : Qfloor (x / 60) = m).
  { apply Qfloor_unique.
    - apply Qle_shift_div_l; lra.
    - apply Qlt_shift_div_r; [lra|]. rewrite inject_Z_plus.
      change (inject_Z 1) with 1. lra. }
  assert (Hq0 : 0 <= x / 60) by (apply Qdiv_nonneg; lra).
  unfold formatTime, remainder, truncate. cbv zeta.
  assert (Hb : Qle_bool 0 (x / 60) = true) by (apply Qle_bool_iff; exact Hq0).
  rewrite Hb, Hq.
  assert (Hr : Qfloor (x - 60 * inject_Z m) = k).
  { apply Qfloor_unique.
    - lra.
    - rewrite inject_Z_plus. change (inject_Z 1) with 1. lra. }
  rewrite Hr. reflexivity.
Qed.

Local Close Scope Q_scope.

Lemma formatTime_table :
  forallb (fun n =>
             String.eqb
               (padStart 2 "0" (toString (Z.of_nat n / 60)) +:+ ":" +:+
                padStart 2 "0" (toString (Z.of_nat n mod 60)))
               (String (digit (n / 600)) (String (digit (n / 60 mod 10))
                  (":" +:+ String (digit (n mod 60 / 10))
                     (String (digit (n mod 10)) "")))))
    (seq 0 6000) = true.
Proof. vm_compute. reflexivity. Qed.

(** X17.  [formatTime] shows whole seconds: for a time that is not negative
    it shows what it shows for the time rounded down to a second.  Below
    100 minutes the display is two digits of minutes, a colon and two
    digits of seconds, each padded with a zero. *)
Theorem formatTime_minutes_seconds (x : Q) :
  (0 <= x)%Q ->
  let n := Z.to_nat (Qfloor x) in
  formatTime x = formatTime (seconds n) /\
  (n < 6000 ->
   formatTime x =
   String (digit (n / 600)) (String (digit (n / 60 mod 10))
     (":" +:+ String (digit (n mod 60 / 10)) (String (digit (n mod 10)) "")))).
Proof.
  intros Hx. cbv zeta.
  assert (Hn : (0 <= Qfloor x)%Z).
  { pose proof (Qlt_floor x) as FU.
    assert (H : (0 < Qfloor x + 1)%Z) by (rewrite Zlt_Qlt; change (inject_Z 0) with 0%Q; lra).
    lia. }
  assert (Hs : Qfloor (seconds (Z.to_nat (Qfloor x))) = Qfloor x).
  { unfold seconds. rewrite Z2Nat.id by exact Hn. apply Qfloor_Z. }
  rewrite (formatTime_parts x Hx).
  rewrite (formatTime_parts (seconds (Z.to_nat (Qfloor x))) (seconds_nonneg _)), Hs.
  split; [reflexivity|]. intros Hlt.
  pose proof formatTime_table as Htab.
  rewrite forallb_forall in Htab.
  specialize (Htab (Z.to_nat (Qfloor x))).
  rewrite Z2Nat.id in Htab by exact Hn.
  apply String.eqb_eq, Htab, in_seq. lia.
Qed.

Lemma formatTime_minutes_seconds_witness :
  formatTime (754 # 10) = "01:15" /\ formatTime 0 = "00:00" /\
  formatTime (seconds 5999) = "99:59" /\ formatTime (seconds 6000) = "100:00".
Proof.
  destruct (formatTime_minutes_seconds (754 # 10) ltac:(discriminate)) as [_ H].
  split; [apply H; vm_compute; lia|]. repeat split; reflexivity.
Defined.

(** ** The analytics overview *)

Import AnalyticsOverview.

Local Open Scope Q_scope.

Lemma addFeedback_scores (l : list Feedback) (acc : Q * nat) :
  fold_left addFeedback l acc =
  fold_left (fun acc score => if Qeq_bool score 0 then acc
                              else (fst acc + score * 100, S (snd acc)))
    (flat_map (fun fb => match confidence_score fb with
                         | Some score => [score]
                         | None => []
                         end) l) acc.
Proof.
  revert acc. induction l as [|fb l IH]; intros acc; [reflexivity|].
  cbn [fold_left flat_map]. rewrite fold_left_app, IH.
  unfold addFeedback. destruct acc as [total count].
  destruct (confidence_score fb) as [score|]; cbn; [|reflexivity].
  destruct (Qeq_bool score 0); reflexivity.
Qed.

Lemma fold_flat_map {A B C} (f : C -> B -> C) (g : A -> list B) (h : C -> A -> C)
    (l : list A) (acc : C) :
  (forall acc a, h acc a = fold_left f (g a) acc) ->
  fold_left h l acc = fold_left f (flat_map g l) acc.
Proof.
  intros H. revert acc. induction l as [|a l IH]; intros acc; [reflexivity|].
  cbn [fold_left flat_map]. rewrite fold_left_app, IH, H. reflexivity.
Qed.

Lemma scoreTotals_scores (interviews : list Interview) :
  scoreTotals interviews =
  fold_left (fun acc score => if Qeq_bool score 0 then acc
                              else (fst acc + score * 100, S (snd acc)))
    (confidenceScores interviews) (0, 0%nat).
Proof.
  unfold scoreTotals, confidenceScores.
  apply fold_flat_map. intros acc interview.
  unfold forEach at 1, rows at 3.
  destruct (questions interview) as [qs|]; [|reflexivity].
  apply fold_flat_map. intros acc' question.
  unfold forEach at 1, rows at 2.
  destruct (responses question) as [rs|]; [|reflexivity].
  apply fold_flat_map. intros acc'' response.
  unfold forEach, rows.
  destruct (feedback response) as [fs|]; [|reflexivity].
  apply addFeedback_scores.
Qed.

Lemma score_fold_bounds (scores : list Q) (acc : Q * nat) :
  Forall (fun score => 0 <= score <= 1) scores ->
  0 <= fst acc <= 100 * inject_Z (Z.of_nat (snd acc)) ->
  let r := fold_left (fun acc score => if Qeq_bool score 0 then acc
                                       else (fst acc + score * 100, S (snd acc)))
             scores acc in
  0 <= fst r <= 100 * inject_Z (Z.of_nat (snd r)) /\
  snd r = (snd acc + length (counted scores))%nat.
Proof.
  intros Hall. revert acc. induction Hall as [|score scores Hs Hall IH]; intros acc Hacc.
  - cbn. split; [exact Hacc | lia].
  - cbn [fold_left counted List.filter]. fold (counted scores).
    destruct (Qeq_bool score 0) eqn:E; cbn [negb].
    + apply IH, Hacc.
    + destruct (IH (fst acc + score * 100, S (snd acc))) as [B C].
      { cbn [fst snd]. rewrite Nat2Z.inj_succ. unfold Z.succ. rewrite inject_Z_plus.
        change (inject_Z 1) with 1. lra. }
      cbv zeta in *. split; [exact B|]. rewrite C. cbn. lia.
Qed.

(** X18.  The average score of the analytics overview.  A feedback row
    whose confidence score is 0 or [null] does not count.  When every
    score lies in [0, 1] the average is a percentage, and it is 0 when no
    score counts. *)
Theorem AnalyticsOverview_averageScore_percentage (interviews : list Interview) :
  Forall (fun score => 0 <= score <= 1) (confidenceScores interviews) ->
  match fetchAnalytics (Some interviews) with
  | Some analytics =>
      snd (scoreTotals interviews) = length (counted (confidenceScores interviews)) /\
      0 <= averageScore analytics <= 100 /\
      (counted (confidenceScores interviews) = [] -> averageScore analytics = 0)
  | None => False
  end.
Proof.
  intros Hall. unfold fetchAnalytics.
  pose proof (score_fold_bounds (confidenceScores interviews) (0, 0%nat) Hall) as H.
  rewrite <- scoreTotals_scores in H. cbn [fst snd] in H.
  destruct H as [[L U] C].
  { change (inject_Z (Z.of_nat 0)) with 0. lra. }
  destruct (scoreTotals interviews) as [totalScore scoreCount]. cbn [fst snd] in *.
  cbn [averageScore]. split; [exact C|].
  destruct (0 <? scoreCount)%nat eqn:E.
  - apply Nat.ltb_lt in E.
    assert (Hn : 0 < inject_Z (Z.of_nat scoreCount)).
    { change 0 with (inject_Z 0). rewrite <- Zlt_Qlt. lia. }
    split.
    + split.
      * apply Qdiv_nonneg; assumption.
      * apply Qle_shift_div_r; [exact Hn | lra].
    + intros Hnone. rewrite Hnone in C. cbn in C. lia.
  - split; [lra | reflexivity].
Qed.

Lemma AnalyticsOverview_averageScore_witness :
  match fetchAnalytics (Some sampleInterviews) with
  | Some analytics => averageScore analytics == 80 /\ 0 <= averageScore analytics <= 100
  | None => False
  end.
Proof.
  assert (Hall : Forall (fun score => 0 <= score <= 1) (confidenceScores sampleInterviews)).
  { repeat (apply List.Forall_cons; [split; discriminate|]). apply List.Forall_nil. }
  pose proof (AnalyticsOverview_averageScore_percentage sampleInterviews Hall) as H.
  destruct (fetchAnalytics (Some sampleInterviews)) as [analytics|] eqn:E; [|exact H].
  destruct H as (_ & Hb & _). split; [|exact Hb].
  injection E as <-. reflexivity.
Defined.

(** X19.  The completion figures of the analytics overview: the completed
    interviews are at most all interviews, the time practised is 25
    minutes for each of them, the completion rate is a percentage, 0 when
    there is no interview. *)
Theorem AnalyticsOverview_completion (interviews : list Interview) :
  match fetchAnalytics (Some interviews) with
  | Some analytics =>
      totalInterviews analytics = length interviews /\
      (completedInterviews analytics <= totalInterviews analytics)%nat /\
      totalTimeSpent analytics = (25 * completedInterviews analytics)%nat /\
      0 <= completionRate analytics <= 100 /\
      (interviews = [] -> completionRate analytics = 0)
  | None => False
  end.
Proof.
  unfold fetchAnalytics.
  destruct (scoreTotals interviews) as [totalScore scoreCount].
  unfold completionRate. cbn [totalInterviews completedInterviews totalTimeSpent].
  set (completed := length (List.filter _ interviews)).
  assert (Hle : (completed <= length interviews)%nat) by apply List.filter_length_le.
  split; [reflexivity|]. split; [exact Hle|]. split; [lia|].
  destruct (0 <? length interviews)%nat eqn:E.
  - apply Nat.ltb_lt in E.
    assert (Hn : 0 < inject_Z (Z.of_nat (length interviews))).
    { change 0 with (inject_Z 0). rewrite <- Zlt_Qlt. lia. }
    assert (Hc : 0 <= inject_Z (Z.of_nat completed)).
    { change 0 with (inject_Z 0). rewrite <- Zle_Qle. lia. }
    assert (Hcl : inject_Z (Z.of_nat completed) <= inject_Z (Z.of_nat (length interviews))).
    { rewrite <- Zle_Qle. lia. }
    split.
    + assert (H1 : 0 <= inject_Z (Z.of_nat completed) / inject_Z (Z.of_nat (length interviews)))
        by (apply Qdiv_nonneg; assumption).
      assert (H2 : inject_Z (Z.of_nat completed) / inject_Z (Z.of_nat (length interviews)) <= 1).
      { apply Qle_shift_div_r; [exact Hn | lra]. }
      split; nra.
    + intros ->. cbn in E. lia.
  - split; [lra | reflexivity].
Qed.

Local Close Scope Q_scope.

(** *** The most practised companies *)

Lemma increment_keys (key : string) (o : list (string * nat)) (k : string) :
  In k (map fst (increment key o)) <-> k = key \/ In k (map fst o).
Proof.
  induction o as [|[k0 v0] o IH]; cbn.
  - split; [intros [H|[]]; auto | intros [H|[]]; auto].
  - destruct (String.eqb k0 key) eqn:E; cbn.
    + apply String.eqb_eq in E. subst. intuition congruence.
    + rewrite IH. tauto.
Qed.

Lemma increment_NoDup (key : string) (o : list (string * nat)) :
  List.NoDup (map fst o) -> List.NoDup (map fst (increment key o)).
Proof.
  induction o as [|[k0 v0] o IH]; cbn; intros Hnd.
  - constructor; [intros [] | constructor].
  - inversion Hnd as [|? ? Hnotin Hnd']; subst.
    destruct (String.eqb k0 key) eqn:E; cbn.
    + constructor; assumption.
    + constructor; [|apply IH, Hnd'].
      rewrite increment_keys. intros [->|H]; [|contradiction].
      rewrite String.eqb_refl in E. discriminate.
Qed.

Lemma increment_In (key : string) (o : list (string * nat)) (k : string) (v : nat) :
  List.NoDup (map fst o) ->
  (In (k, v) (increment key o) <->
   (k <> key /\ In (k, v) o) \/
   (k = key /\ exists v0, In (key, v0) o /\ v = S v0) \/
   (k = key /\ ~ In key (map fst o) /\ v = 1)).
Proof.
  induction o as [|[k0 v0] o IH]; cbn; intros Hnd.
  - split.
    + intros [H|[]]. injection H as <- <-. right. right. tauto.
    + intros [[_ []]|[(_ & ? & [] & _)|(-> & _ & ->)]]. left. reflexivity.
  - inversion Hnd as [|? ? Hnotin Hnd']; subst.
    destruct (String.eqb k0 key) eqn:E; cbn.
    + apply String.eqb_eq in E. subst k0. split.
      * intros [H|H].
        -- injection H as <- <-. right. left. split; [reflexivity|]. exists v0. auto.
        -- left. split; [|auto]. intros ->. apply Hnotin.
           apply (in_map fst) in H. exact H.
      * intros [(Hne & [H|H])|[(-> & v1 & [H|H] & ->)|(-> & Hno & _)]].
        -- injection H as -> _. congruence.
        -- right. exact H.
        -- injection H as <-. left. reflexivity.
        -- exfalso. apply Hnotin. apply (in_map fst) in H. exact H.
        -- exfalso. apply Hno. left. reflexivity.
    + assert (Hne : k0 <> key) by (intros ->; rewrite String.eqb_refl in E; discriminate).
      rewrite (IH Hnd'). split.
      * intros [H|[(Hk & H)|[(-> & v1 & H & ->)|(-> & Hno & ->)]]].
        -- injection H as <- <-. left. auto.
        -- left. auto.
        -- right. left. split; [reflexivity|]. exists v1. auto.
        -- right. right. split; [reflexivity|]. split; [|reflexivity].
           intros [H|H]; [congruence | contradiction].
      * intros [(Hk & [H|H])|[(-> & v1 & [H|H] & ->)|(-> & Hno & ->)]].
        -- left. exact H.
        -- right. left. auto.
        -- injection H as -> _. congruence.
        -- right. right. left. split; [reflexivity|]. exists v1. auto.
        -- right. right. right. split; [reflexivity|]. split; [|reflexivity].
           intros H. apply Hno. right. exact H.
Qed.

Lemma count_occ_snoc (names : list string) (n k : string) :
  count_occ string_dec (names ++ [n]) k =
  (count_occ string_dec names k + if string_dec n k then 1 else 0)%nat.
Proof.
  rewrite count_occ_app. cbn. destruct (string_dec n k); lia.
Qed.

Lemma countCompanies_counts (interviews : list Interview) :
  let o := countCompanies interviews in
  List.NoDup (map fst o) /\
  forall k v, In (k, v) o <->
              v = count_occ string_dec (companyNames interviews) k /\ (0 < v)%nat.
Proof.
  cbv zeta. unfold countCompanies, companyNames.
  assert (Hgen : forall o names,
    (List.NoDup (map fst o) /\
     forall k v, In (k, v) o <-> v = count_occ string_dec names k /\ (0 < v)%nat) ->
    let o' := fold_left (fun companyCount interview =>
                           match companyName interview with
                           | Some n => increment n companyCount
                           | None => companyCount
                           end) interviews o in
    let names' := (names ++ flat_map (fun interview => match companyName interview with
                                                        | Some n => [n]
                                                        | None => []
                                                        end) interviews)%list in
    List.NoDup (map fst o') /\
    forall k v, In (k, v) o' <-> v = count_occ string_dec names' k /\ (0 < v)%nat).
  { induction interviews as [|i interviews IH]; intros o names [Hnd Hin]; cbn.
    - rewrite app_nil_r. auto.
    - destruct (companyName i) as [n|]; cbn.
      + replace (names ++ n :: flat_map _ interviews)%list
          with ((names ++ [n]) ++ flat_map (fun interview => match companyName interview with
                                                              | Some n => [n]
                                                              | None => []
                                                              end) interviews)%list
          by (rewrite <- app_assoc; reflexivity).
        apply IH. split; [apply increment_NoDup, Hnd|].
        intros k v. rewrite (increment_In n o k v Hnd), count_occ_snoc.
        split.
        * intros [(Hne & H)|[(-> & v0 & H & ->)|(-> & Hno & ->)]].
          -- apply Hin in H. destruct (string_dec n k); [congruence | lia].
          -- apply Hin in H. destruct (string_dec n n); [lia | congruence].
          -- destruct (string_dec n n); [|congruence].
             assert (Hz : count_occ string_dec names n = 0%nat).
             { destruct (count_occ string_dec names n) as [|c] eqn:Ec; [reflexivity|].
               exfalso. apply Hno.
               assert (H : In (n, S c) o) by (apply Hin; split; [congruence | lia]).
               apply (in_map fst) in H. exact H. }
             lia.
        * intros [Hv Hpos]. destruct (string_dec n k) as [->|Hne].
          -- destruct (count_occ string_dec names k) as [|c] eqn:Ec.
             ++ right. right. split; [reflexivity|]. split; [|lia].
                intros H. apply in_map_iff in H as ([k' v'] & Hk & H). cbn in Hk. subst k'.
                apply Hin in H. lia.
             ++ right. left. split; [reflexivity|]. exists (S c). split; [|lia].
                apply Hin. split; [congruence | lia].
          -- left. split; [congruence|]. apply Hin. split; lia.
      + apply IH. auto. }
  specialize (Hgen [] []). cbn in Hgen. apply Hgen.
  split; [constructor|]. intros k v. cbn. split; [intros [] | lia].
Qed.

Lemma insertByIndex_perm {A} (i : N) (e : A) (l : list (N * A)) :
  Permutation (insertByIndex i e l) ((i, e) :: l).
Proof.
  induction l as [|[j e'] l IH]; cbn; [reflexivity|].
  destruct (i <? j)%N; [reflexivity|].
  rewrite IH. apply perm_swap.
Qed.

Lemma filter_partition_perm {A} (f : A -> bool) (l : list A) :
  Permutation (List.filter f l ++ List.filter (fun x => negb (f x)) l) l.
Proof.
  induction l as [|x l IH]; cbn; [reflexivity|].
  destruct (f x); cbn.
  - constructor. exact IH.
  - rewrite <- Permutation_middle. constructor. exact IH.
Qed.

Lemma Object_entries_perm {A} (o : list (string * A)) : Permutation (Object_entries o) o.
Proof.
  unfold Object_entries.
  set (isIndex := fun entry : string * A => match arrayIndex (fst entry) with
                                             | Some _ => true
                                             | None => false
                                             end).
  assert (Hidx : forall sorted,
    Permutation
      (map snd (fold_left (fun sorted entry =>
                             match arrayIndex (fst entry) with
                             | Some i => insertByIndex i entry sorted
                             | None => sorted
                             end) o sorted))
      (map snd sorted ++ List.filter isIndex o)).
  { induction o as [|e o IH]; intros sorted; cbn.
    - rewrite app_nil_r. reflexivity.
    - rewrite IH. subst isIndex. cbn. destruct (arrayIndex (fst e)) as [i|]; cbn.
      + rewrite (Permutation_map snd (insertByIndex_perm i e sorted)). cbn.
        rewrite <- Permutation_middle. reflexivity.
      + reflexivity. }
  rewrite (Hidx []). cbn.
  rewrite <- (filter_partition_perm isIndex o) at 3.
  apply Permutation_app_head.
  assert (Heq : forall l : list (string * A),
            List.filter (fun entry => match arrayIndex (fst entry) with
                                      | Some _ => false
                                      | None => true
                                      end) l =
            List.filter (fun x => negb (isIndex x)) l).
  { intros l. apply List.filter_ext. intros e. subst isIndex. cbn.
    destruct (arrayIndex (fst e)); reflexivity. }
  rewrite Heq. reflexivity.
Qed.

Lemma insertByCount_perm (e : string * nat) (l : list (string * nat)) :
  Permutation (insertByCount e l) (e :: l).
Proof.
  induction l as [|e' l IH]; cbn; [reflexivity|].
  destruct (snd e <? snd e')%nat; [|reflexivity].
  rewrite IH. apply perm_swap.
Qed.

Lemma sortByCount_perm (l : list (string * nat)) : Permutation (sortByCount l) l.
Proof.
  induction l as [|e l IH]; cbn; [reflexivity|].
  rewrite insertByCount_perm. constructor. exact IH.
Qed.

Lemma insertByCount_sorted (e : string * nat) (l : list (string * nat)) :
  StronglySorted (fun a b => snd b <= snd a) l ->
  StronglySorted (fun a b => snd b <= snd a) (insertByCount e l).
Proof.
  induction l as [|e' l IH]; cbn; intros Hs.
  - constructor; constructor.
  - inversion Hs as [|? ? Hs' Hall]; subst.
    destruct (snd e <? snd e')%nat eqn:E.
    + apply Nat.ltb_lt in E. constructor; [apply IH, Hs'|].
      apply List.Forall_forall. intros x Hx.
      apply (Permutation_in _ (insertByCount_perm e l)) in Hx.
      destruct Hx as [<-|Hx]; [lia|].
      rewrite List.Forall_forall in Hall. apply Hall, Hx.
    + apply Nat.ltb_ge in E. constructor; [exact Hs|].
      constructor; [exact E|].
      apply List.Forall_forall. intros x Hx.
      rewrite List.Forall_forall in Hall. specialize (Hall x Hx). lia.
Qed.

Lemma sortByCount_sorted (l : list (string * nat)) :
  StronglySorted (fun a b => snd b <= snd a) (sortByCount l).
Proof.
  induction l as [|e l IH]; cbn; [constructor|]. apply insertByCount_sorted, IH.
Qed.

Lemma StronglySorted_split {A} (R : A -> A -> Prop) (l1 l2 : list A) :
  StronglySorted R (l1 ++ l2) ->
  StronglySorted R l1 /\ forall x y, In x l1 -> In y l2 -> R x y.
Proof.
  induction l1 as [|a l1 IH]; cbn; intros Hs.
  - split; [constructor | intros x y []].
  - inversion Hs as [|? ? Hs' Hall]; subst. destruct (IH Hs') as [H1 H2].
    rewrite List.Forall_forall in Hall.
    split.
    + constructor; [exact H1|]. apply List.Forall_forall. intros x Hx.
      apply Hall, in_or_app. left. exact Hx.
    + intros x y [<-|Hx] Hy; [|apply H2; assumption].
      apply Hall, in_or_app. right. exact Hy.
Qed.

(** X20.  The companies the analytics overview lists.  There are at most
    five, each once and with the number of interviews that name it, which
    is at least 1, in descending order of that number; a company of the
    query that is not listed is named by no more interviews than any listed
    one, and then five are listed. *)
Theorem AnalyticsOverview_topCompanies (interviews : list Interview) :
  ownKeys interviews = true ->
  match fetchAnalytics (Some interviews) with
  | Some analytics =>
      let top := topCompanies analytics in
      length top <= 5 /\
      List.NoDup (map fst top) /\
      StronglySorted (fun a b => snd b <= snd a) top /\
      (forall company count,
         In (company, count) top ->
         count = count_occ string_dec (companyNames interviews) company /\ 0 < count) /\
      (forall company,
         In company (companyNames interviews) -> ~ In company (map fst top) ->
         length top = 5 /\
         Forall (fun entry =>
                   count_occ string_dec (companyNames interviews) company <= snd entry) top)
  | None => False
  end.
Proof.
  intros _. unfold fetchAnalytics.
  destruct (scoreTotals interviews) as [totalScore scoreCount].
  cbn [topCompanies]. cbv zeta.
  destruct (countCompanies_counts interviews) as [Hnd Hin]. cbv zeta in Hnd, Hin.
  set (o := countCompanies interviews) in *.
  set (sorted := sortByCount (Object_entries o)).
  assert (Hperm : Permutation sorted o).
  { subst sorted. rewrite sortByCount_perm. apply Object_entries_perm. }
  assert (Hsorted : StronglySorted (fun a b => snd b <= snd a) sorted)
    by apply sortByCount_sorted.
  assert (Hsplit : sorted = (firstn 5 sorted ++ skipn 5 sorted)%list)
    by (symmetry; apply firstn_skipn).
  rewrite Hsplit in Hsorted.
  destruct (StronglySorted_split _ _ _ Hsorted) as [Htop Hcross].
  assert (Hsub : forall e, In e (firstn 5 sorted) -> In e o).
  { intros e He. apply (Permutation_in _ Hperm). rewrite Hsplit.
    apply in_or_app. left. exact He. }
  assert (Hnd' : List.NoDup (map fst sorted)).
  { apply (Permutation_NoDup (l := map fst o)); [|exact Hnd].
    apply Permutation_map. symmetry. exact Hperm. }
  split; [apply List.firstn_le_length|]. split; [|split; [exact Htop|split]].
  - rewrite Hsplit, map_app in Hnd'. apply NoDup_app_remove_r in Hnd'. exact Hnd'.
  - intros company count H. apply Hin, Hsub, H.
  - intros company Hc Hnot.
    assert (Hpos : 0 < count_occ string_dec (companyNames interviews) company).
    { apply count_occ_In. exact Hc. }
    assert (Ho : In (company, count_occ string_dec (companyNames interviews) company) o).
    { apply Hin. split; [reflexivity | exact Hpos]. }
    apply (Permutation_in _ (Permutation_sym Hperm)) in Ho.
    rewrite Hsplit in Ho. apply in_app_or in Ho as [Ho|Ho].
    { exfalso. apply Hnot. apply (in_map fst) in Ho. exact Ho. }
    split.
    + assert (Hlen : 5 < length sorted \/ length sorted <= 5) by lia.
      destruct Hlen as [Hlen|Hlen]; [apply List.firstn_length_le; lia|].
      rewrite skipn_all2 in Ho by exact Hlen. destruct Ho.
    + apply List.Forall_forall. intros entry He.
      apply (Hcross entry _ He Ho).
Qed.

Lemma AnalyticsOverview_topCompanies_witness :
  match fetchAnalytics (Some sampleInterviews) with
  | Some analytics => topCompanies analytics = [("Acme", 2); ("7", 1); ("Globex", 1)]
  | None => False
  end.
Proof.
  pose proof (AnalyticsOverview_topCompanies sampleInterviews eq_refl) as H.
  destruct (fetchAnalytics (Some sampleInterviews)) as [analytics|] eqn:E; [|exact H].
  injection E as <-. reflexivity.
Defined.

(** ** The interview session *)

Lemma trimStart_blank (p : string) :
  blank p = true -> InterviewSession.trimStart p = "".
Proof.
  induction p as [|c p IH]; cbn; [reflexivity|].
  intros H. apply andb_true_iff in H as [Hc Hp]. rewrite Hc. apply IH, Hp.
Qed.

Lemma trimStart_padding (p s : string) :
  blank p = true -> InterviewSession.trimStart (p +:+ s) = InterviewSession.trimStart s.
Proof.
  induction p as [|c p IH]; [reflexivity|].
  intros H. cbn in H. apply andb_true_iff in H as [Hc Hp].
  change (String c p +:+ s) with (String c (p +:+ s)). cbn [InterviewSession.trimStart].
  rewrite Hc. apply IH, Hp.
Qed.

Lemma trimEnd_blank (p : string) :
  blank p = true -> InterviewSession.trimEnd p = "".
Proof.
  induction p as [|c p IH]; cbn; [reflexivity|].
  intros H. apply andb_true_iff in H as [Hc Hp]. rewrite (IH Hp), Hc. reflexivity.
Qed.

Lemma trimEnd_padding (s p : string) :
  blank p = true -> InterviewSession.trimEnd (s +:+ p) = InterviewSession.trimEnd s.
Proof.
  intros Hp. induction s as [|c s IH]; [apply trimEnd_blank, Hp|].
  change (String c s +:+ p) with (String c (s +:+ p)). cbn [InterviewSession.trimEnd].
  rewrite IH. reflexivity.
Qed.

Lemma trim_padding (before text after : string) :
  blank before = true -> blank after = true ->
  InterviewSession.trim (before +:+ text +:+ after) = InterviewSession.trim text.
Proof.
  intros Hb Ha. unfold InterviewSession.trim. rewrite (trimStart_padding _ _ Hb).
  induction text as [|c text IH].
  - change ("" +:+ after) with after. rewrite (trimStart_blank _ Ha). reflexivity.
  - change (String c text +:+ after) with (String c (text +:+ after)).
    cbn [InterviewSession.trimStart]. destruct (InterviewSession.isWhitespace c); [exact IH|].
    change (String c (text +:+ after)) with (String c text +:+ after).
    apply trimEnd_padding, Ha.
Qed.

(** X21.  [validateResponse] on a typed answer looks at the trimmed text
    only: white space before and after the answer does not change the
    verdict, and the answer is accepted if and only if at least 20
    characters are left after trimming. *)
Theorem InterviewSession_validate_ignores_padding (before text after : string)
    (r s : InterviewSession.Session) :
  blank before = true -> blank after = true ->
  InterviewSession.responseType r = InterviewSession.Text ->
  let padded := InterviewSession.setTextResponse (before +:+ text +:+ after) r in
  let plain := InterviewSession.setTextResponse text r in
  fst (InterviewSession.validateResponse padded s) =
    fst (InterviewSession.validateResponse plain s) /\
  (fst (InterviewSession.validateResponse plain s) = true <->
   20 <= String.length (InterviewSession.trim text)).
Proof.
  intros Hb Ha Ht. cbv zeta. unfold InterviewSession.validateResponse.
  cbn [InterviewSession.responseType InterviewSession.textResponse
       InterviewSession.setTextResponse].
  rewrite Ht, (trim_padding before text after Hb Ha).
  split; [reflexivity|].
  destruct (InterviewSession.trim text) as [|c t] eqn:E.
  - cbn. split; [discriminate | lia].
  - change (String c t =? "")%string with false. cbv iota.
    destruct (String.length (String c t) <? 20)%nat eqn:E2; cbn [fst].
    + apply Nat.ltb_lt in E2. split; [discriminate | lia].
    + apply Nat.ltb_ge in E2. split; [intros _; exact E2 | reflexivity].
Qed.

Lemma InterviewSession_validate_witness :
  fst (InterviewSession.validateResponse typedAnswer typedAnswer) = true /\
  fst (InterviewSession.validateResponse
         (InterviewSession.setTextResponse "                         " typedAnswer)
         typedAnswer) = false.
Proof.
  destruct (InterviewSession_validate_ignores_padding "  "
              "I have led three projects, for example a billing system." "  "
              (InterviewSession.initialSession false) typedAnswer eq_refl eq_refl eq_refl)
    as [H1 H2].
  split; [|reflexivity].
  cbv zeta in H1, H2. etransitivity; [exact H1|]. apply H2. vm_compute. lia.
Defined.

Local Open Scope Q_scope.

(** X22.  The preview feedback of [handlePreviewResponse]: for every kind of
    answer it names at least one and at most three strengths and as many
    improvements, and its confidence score lies strictly between 0.5
    and 1. *)
Theorem InterviewSession_preview_confidence (r : InterviewSession.Session) :
  let preview := InterviewSession.buildPreview r in
  (1 <= length (InterviewSession.strengths preview) <= 3)%nat /\
  (1 <= length (InterviewSession.improvements preview) <= 3)%nat /\
  1 # 2 < InterviewSession.confidence_score preview /\
  InterviewSession.confidence_score preview < 1.
Proof.
  cbv zeta. unfold InterviewSession.buildPreview.
  match goal with |- context [match InterviewSession.responseType r with _ => _ end] =>
    set (lists := match InterviewSession.responseType r with
                  | InterviewSession.Text => _
                  | InterviewSession.Media _ => _
                  end)
  end.
  clearbody lists. cbv zeta.
  set (strengths := match fst lists with [] => ["Completed response"%string] | _ => fst lists end).
  set (improvements :=
         match snd lists with
         | [] => ["Practice more to improve delivery"%string]
         | _ => snd lists
         end).
  assert (Hs : (1 <= length strengths)%nat).
  { subst strengths. destruct (fst lists); cbn; lia. }
  assert (Hi : (1 <= length improvements)%nat).
  { subst improvements. destruct (snd lists); cbn; lia. }
  clearbody strengths improvements. cbn [InterviewSession.strengths
    InterviewSession.improvements InterviewSession.confidence_score].
  split; [|split].
  - rewrite List.firstn_length. lia.
  - rewrite List.firstn_length. lia.
  - set (a := inject_Z (Z.of_nat (length strengths))).
    set (t := inject_Z (Z.of_nat (length strengths + length improvements))).
    assert (Ha : 1 <= a).
    { subst a. change 1 with (inject_Z 1). rewrite <- Zle_Qle. lia. }
    assert (Hat : a + 1 <= t).
    { subst a t. change 1 with (inject_Z 1). rewrite <- inject_Z_plus, <- Zle_Qle. lia. }
    assert (Hq : 0 < a / t /\ a / t < 1).
    { split.
      - apply Qlt_shift_div_l; lra.
      - apply Qlt_shift_div_r; lra. }
    destruct Hq as [Hq0 Hq1].
    assert (Hlt : 0.5 + a / t * 0.5 < 1) by lra.
    assert (Hmin : Qmin (0.5 + a / t * 0.5) 1 == 0.5 + a / t * 0.5).
    { apply Q.min_l. lra. }
    rewrite Hmin. split; lra.
Qed.

Local Close Scope Q_scope.

(** *** Submitting an answer *)

Ltac save_cases b r :=
  unfold InterviewSession.saveResponse, InterviewSession.uploadMedia;
  destruct (InterviewSession.currentQuestion _ r) as [question|];
  [destruct (InterviewSession.responseType r) as [|[]];
   [|destruct (InterviewSession.audioBlob r) as [blob|]
    |destruct (InterviewSession.videoBlob r) as [blob|]];
   try match goal with
       | |- context [(blob_size ?x =? 0)%nat] =>
           destruct (blob_size x =? 0)%nat;
           [|destruct (InterviewSession.upload b x _) as [url|message|]]
       end;
   cbn [fst snd];
   try (destruct (InterviewSession.saveResponseWithFeedback b _)
          as [[[] error]|message'|]);
   cbn [fst snd]|].

(** What [saveResponse] leaves alone: the answer, the position in the
    interview and the two flags of the dialog. *)
Lemma saveResponse_frame (b : InterviewSession.Backend)
    (questions : list InterviewSession.Question) (r s : InterviewSession.Session) :
  let s' := snd (InterviewSession.saveResponse b questions r s) in
  answerView s' = answerView s /\
  InterviewSession.isSubmitting s' = InterviewSession.isSubmitting s /\
  InterviewSession.showConfirmDialog s' = InterviewSession.showConfirmDialog s.
Proof.
  cbv zeta. save_cases b r; repeat split.
Qed.

(** Whether [saveResponse] succeeds is decided by the render it reads and
    by the backend, not by the state it updates. *)
Lemma saveResponse_result (b : InterviewSession.Backend)
    (questions : list InterviewSession.Question) (r : InterviewSession.Session) :
  exists saved, forall s, fst (InterviewSession.saveResponse b questions r s) = saved.
Proof.
  save_cases b r; eexists; intros s; cbn [fst snd]; reflexivity.
Qed.

(** X23.  The Submit button of the confirmation dialog
    ([confirmSubmission]) closes the dialog, and what it does next follows
    the outcome of saving.  When saving succeeds and a later question
    exists, the session moves on by exactly one question with an empty
    answer; on the last question it stays there, and it is marked completed
    only if the [completeInterview] action reported success.  When saving
    fails, the position and the answer are kept, the submitting flag is
    cleared and the last toast is the error message; while a promise of the
    save is unsettled the submitting flag stays set. *)
Theorem InterviewSession_confirmSubmission_navigates (b : InterviewSession.Backend)
    (questions : list InterviewSession.Question) (s : InterviewSession.Session) :
  let saved := fst (InterviewSession.saveResponse b questions s s) in
  let s' := InterviewSession.confirmSubmission b questions s s in
  let index := InterviewSession.currentQuestionIndex in
  InterviewSession.showConfirmDialog s' = false /\
  match saved with
  | Ok _ =>
      if (S (index s) <? length questions)%nat then
        index s' = S (index s) /\
        InterviewSession.isSubmitting s' = false /\
        InterviewSession.isCompleted s' = InterviewSession.isCompleted s /\
        InterviewSession.textResponse s' = "" /\
        InterviewSession.audioBlob s' = None /\
        InterviewSession.videoBlob s' = None /\
        InterviewSession.transcribedText s' = None
      else
        index s' = index s /\
        (InterviewSession.isCompleted s' = InterviewSession.isCompleted s \/
         InterviewSession.isCompleted s' = true /\
         exists error, InterviewSession.completeInterview b = Ok (true, error))
  | Throw _ =>
      answerView s' = answerView s /\
      InterviewSession.isSubmitting s' = false /\
      exists earlier,
        InterviewSession.toasts s' =
          (earlier ++
           [InterviewSession.mkToast true "Error"
              "Failed to save your response. Please try again."])%list
  | Pending =>
      answerView s' = answerView s /\ InterviewSession.isSubmitting s' = true
  end.
Proof.
  cbv zeta. unfold InterviewSession.confirmSubmission.
  set (s0 := InterviewSession.setIsSubmitting true
               (InterviewSession.setShowConfirmDialog false s)).
  destruct (saveResponse_result b questions s) as [saved Hsaved].
  rewrite (Hsaved s).
  pose proof (Hsaved s0) as H0.
  destruct (saveResponse_frame b questions s s0) as (V & S0 & C). cbv zeta in *.
  destruct (InterviewSession.saveResponse b questions s s0) as [saved0 s1].
  cbn [fst snd] in *. subst saved0.
  change (answerView s0) with (answerView s) in V.
  change (InterviewSession.isSubmitting s0) with true in S0.
  change (InterviewSession.showConfirmDialog s0) with false in C.
  unfold answerView in V. injection V as I R T VB AB TT IC.
  destruct saved as [[]|message|].
  - replace (InterviewSession.currentQuestionIndex s + 1)%nat
      with (S (InterviewSession.currentQuestionIndex s)) by lia.
    destruct (S (InterviewSession.currentQuestionIndex s) <? length questions)%nat.
    + cbn. auto 10.
    + unfold InterviewSession.completeInterviewSession.
      destruct (InterviewSession.completeInterview b) as [[[] error]|message|]; cbn;
        (split; [exact C|]); (split; [exact I|]); eauto.
  - cbn. split; [exact C|]. split; [unfold answerView; cbn; congruence|].
    split; [reflexivity|]. eexists. reflexivity.
  - split; [exact C|]. split; [unfold answerView; congruence|]. exact S0.
Qed.

(** *** From the recorder to the saved response *)

(** The recordings [MediaRecorder.onstop] reports to its parent. *)
Lemma MediaRecorder_onstop_completed (mimeType : string) (e : TranscriptionEnv)
    (r : Render) (s : State) :
  chunksRef (cap s) <> [] ->
  Forall (fun b => 0 < blob_size b) (chunksRef (cap s)) ->
  let blob := new_Blob (chunksRef (cap s)) mimeType in
  completed (env (MediaRecorder.onstop mimeType e r s)) =
    (completed (env s) ++
     match mediaType (cap r), fst (MediaRecorder.performTranscription e r s) with
     | video, _ => [mkCompletion blob (Some video) None]
     | audio, Ok text => [mkCompletion blob (Some audio) (Some text)]
     | audio, _ => []
     end)%list.
Proof.
  intros Hne Hpos. cbv zeta.
  pose proof (new_Blob_positive _ mimeType Hne Hpos) as Hsz.
  destruct (chunksRef (cap s)) as [|b chunks] eqn:Hchunks; [congruence|].
  unfold MediaRecorder.onstop. rewrite Hchunks.
  destruct (blob_size (new_Blob (b :: chunks) mimeType) =? 0)%nat eqn:E;
    [apply Nat.eqb_eq in E; lia|].
  cbv zeta.
  set (blob := new_Blob (b :: chunks) mimeType) in *.
  set (s1 := MediaRecorder.revokeMediaUrl r (setRecordedBlob (Some blob) s)).
  assert (H1 : completed (env s1) = completed (env s) /\
               whisper (env s1) = whisper (env s)).
  { subst s1. unfold MediaRecorder.revokeMediaUrl.
    destruct (mediaUrl (cap r)); cbn; auto. }
  destruct H1 as (C1 & W1). clearbody s1.
  destruct (createObjectURL s1) as [newMediaUrl s2] eqn:E2.
  assert (H2 : completed (env s2) = completed (env s) /\
               whisper (env s2) = whisper (env s)).
  { unfold createObjectURL in E2. injection E2 as _ <-. cbn. auto. }
  destruct H2 as (C2 & W2). clear E2. clearbody blob.
  set (s3 := withElement (el_set_src newMediaUrl) (setMediaUrl (Some newMediaUrl) s2)).
  assert (H3 : completed (env s3) = completed (env s) /\
               whisper (env s3) = whisper (env s)).
  { subst s3. cbn. auto. }
  destruct H3 as (C3 & W3). clearbody s3.
  destruct (mediaType (cap r)).
  - rewrite <- (performTranscription_result e r s s3 W3).
    pose proof (performTranscription_effect e r s3) as Heff. cbv zeta in Heff.
    destruct (MediaRecorder.performTranscription e r s3) as [[text|msg|] s4];
      cbn [fst snd] in *.
    + destruct Heff as (_ & _ & Hc & _). cbn. rewrite Hc, C3. reflexivity.
    + destruct Heff as (_ & _ & _ & _ & []).
    + destruct Heff as (_ & _ & Hc & _). rewrite Hc, C3, app_nil_r. reflexivity.
  - cbn. rewrite C3. reflexivity.
Qed.

(** X24.  A recording made in [MediaRecorder] and the response
    [InterviewSession] saves for it.  When [onstop] finds non-empty chunks,
    the session it reports to takes the blob as the answer of its type;
    saving that answer on a backend whose storage accepts the blob uploads
    exactly this blob and stores one response for the current question with
    the returned URL.  Its text is the transcription of an audio recording
    (the placeholder if that is empty) and always the placeholder for a
    video.  While the transcription of an audio recording is unsettled the
    session is not changed at all. *)
Theorem MediaRecorder_recording_saved (mimeType : string) (e : TranscriptionEnv)
    (r : Render) (s : State) (b : InterviewSession.Backend)
    (questions : list InterviewSession.Question) (question : InterviewSession.Question)
    (url : string) (session : InterviewSession.Session) :
  chunksRef (cap s) <> [] ->
  Forall (fun b => 0 < blob_size b) (chunksRef (cap s)) ->
  InterviewSession.responseType session = InterviewSession.Media (mediaType (cap r)) ->
  InterviewSession.transcribedText session = None ->
  InterviewSession.currentQuestion questions session = Some question ->
  let blob := new_Blob (chunksRef (cap s)) mimeType in
  InterviewSession.upload b blob (mediaType (cap r)) = Ok url ->
  let session' := deliverNew s (MediaRecorder.onstop mimeType e r s) session in
  let saved := snd (InterviewSession.saveResponse b questions session' session') in
  let text :=
    match mediaType (cap r), fst (MediaRecorder.performTranscription e r s) with
    | video, _ => Some "Video response (transcription not available)"
    | audio, Ok text => Some (or_else text "Audio response (transcription not available)")
    | audio, _ => None
    end in
  match text with
  | Some text =>
      InterviewSession.uploads saved =
        (InterviewSession.uploads session ++ [(blob, mediaType (cap r))])%list /\
      InterviewSession.savedResponses saved =
        (InterviewSession.savedResponses session ++
         [InterviewSession.mkSavedResponse (InterviewSession.id question)
            (InterviewSession.Media (mediaType (cap r))) (Some text) (Some url)])%list
  | None => session' = session
  end.
Proof.
  intros Hne Hpos Htype Htext Hq blob Hupload. cbv zeta.
  pose proof (new_Blob_positive _ mimeType Hne Hpos) as Hsz. fold blob in Hsz.
  assert (Hsize : (blob_size blob =? 0)%nat = false) by (apply Nat.eqb_neq; lia).
  unfold deliverNew.
  rewrite (MediaRecorder_onstop_completed mimeType e r s Hne Hpos). fold blob.
  rewrite skipn_app, skipn_all, Nat.sub_diag. cbn [app skipn].
  destruct (mediaType (cap r)).
  - destruct (fst (MediaRecorder.performTranscription e r s)) as [text|msg|];
      [|reflexivity|reflexivity].
    cbn [fold_left app skipn]. unfold deliver. cbn [c_type c_blob c_transcription].
    unfold InterviewSession.handleMediaRecordingComplete, InterviewSession.saveResponse,
      InterviewSession.currentQuestion in *.
    destruct (String.eqb_spec text "") as [->|Hnonempty].
    + cbn [InterviewSession.currentQuestionIndex InterviewSession.setAudioBlob].
      rewrite Hq. cbn [InterviewSession.responseType InterviewSession.setAudioBlob].
      rewrite Htype.
      cbn [InterviewSession.audioBlob InterviewSession.setAudioBlob].
      unfold InterviewSession.uploadMedia. rewrite Hsize, Hupload.
      cbn [InterviewSession.transcribedText InterviewSession.setAudioBlob].
      rewrite Htext.
      destruct (InterviewSession.saveResponseWithFeedback b _) as [[[] error]|msg|];
        split; reflexivity.
    + cbn [InterviewSession.currentQuestionIndex InterviewSession.setAudioBlob
             InterviewSession.setTranscribedText].
      rewrite Hq.
      cbn [InterviewSession.responseType InterviewSession.setAudioBlob
             InterviewSession.setTranscribedText].
      rewrite Htype.
      cbn [InterviewSession.audioBlob InterviewSession.setAudioBlob
             InterviewSession.setTranscribedText].
      unfold InterviewSession.uploadMedia. rewrite Hsize, Hupload.
      cbn [InterviewSession.transcribedText InterviewSession.setAudioBlob
             InterviewSession.setTranscribedText].
      destruct (InterviewSession.saveResponseWithFeedback b _) as [[[] error]|msg|];
        split; reflexivity.
  - cbn [fold_left app skipn]. unfold deliver. cbn [c_type c_blob c_transcription].
    unfold InterviewSession.handleMediaRecordingComplete, InterviewSession.saveResponse,
      InterviewSession.currentQuestion in *.
    cbn [InterviewSession.currentQuestionIndex InterviewSession.setVideoBlob].
    rewrite Hq. cbn [InterviewSession.responseType InterviewSession.setVideoBlob].
    rewrite Htype.
    cbn [InterviewSession.videoBlob InterviewSession.setVideoBlob].
    unfold InterviewSession.uploadMedia. rewrite Hsize, Hupload.
    cbn [InterviewSession.transcribedText InterviewSession.setVideoBlob].
    rewrite Htext.
    destruct (InterviewSession.saveResponseWithFeedback b _) as [[[] error]|msg|];
      split; reflexivity.
Qed.

Lemma MediaRecorder_recording_saved_witness :
  let s := setChunksRef [mkBlob 1024 "audio/webm"] (initialState audio) in
  let session :=
    deliverNew s (MediaRecorder.onstop "audio/webm;codecs=opus" helloRun s s) audioAnswer in
  InterviewSession.savedResponses
    (snd (InterviewSession.saveResponse okBackend twoQuestions session session)) =
    [InterviewSession.mkSavedResponse "q1" (InterviewSession.Media audio)
       (Some "hello world") (Some "https://storage/responses/file.webm")].
Proof.
  pose (s := setChunksRef [mkBlob 1024 "audio/webm"] (initialState audio)).
  assert (Hpos : Forall (fun b => 0 < blob_size b) (chunksRef (cap s))).
  { constructor; [cbn; lia | constructor]. }
  destruct (MediaRecorder_recording_saved "audio/webm;codecs=opus" helloRun s s okBackend
              twoQuestions (InterviewSession.mkQuestion "q1" "Tell me about yourself.")
              "https://storage/responses/file.webm" audioAnswer
              ltac:(discriminate) Hpos eq_refl eq_refl eq_refl eq_refl) as [_ H].
  exact H.
Defined.

(** *** A recording session of [WebcamRecorder] *)

Lemma WebcamRecorder_data_events (data : list Blob) (s : State) :
  let s' := fold_left (fun s d => WebcamRecorder.ondataavailable d s) data s in
  pb s' = pb s /\ drv s' = drv s /\ env s' = env s /\
  cap s' =
    cap (setChunksRef
           (chunksRef (cap s) ++ List.filter (fun b => (0 <? blob_size b)%nat) data) s).
Proof.
  cbv zeta. revert s. induction data as [|d data IH]; intros s.
  - cbn. rewrite app_nil_r. destruct s as [p c d b]; destruct c; auto.
  - cbn [fold_left List.filter]. destruct (IH (WebcamRecorder.ondataavailable d s))
      as (Hp & Hd & He & Hc).
    rewrite Hp, Hd, He, Hc. unfold WebcamRecorder.ondataavailable.
    destruct (0 <? blob_size d)%nat; [|auto].
    destruct s as [p c dv b]; destruct c. cbn. rewrite <- app_assoc. auto.
Qed.

Lemma list_sum_positive_sizes (data : list Blob) :
  list_sum (map blob_size (List.filter (fun b => (0 <? blob_size b)%nat) data)) =
  list_sum (map blob_size data).
Proof.
  induction data as [|d data IH]; [reflexivity|].
  cbn [List.filter]. destruct (0 <? blob_size d)%nat eqn:E.
  - cbn [map list_sum fold_right]. fold (list_sum (map blob_size data)).
    rewrite <- IH. reflexivity.
  - apply Nat.ltb_ge in E. cbn [map list_sum fold_right].
    fold (list_sum (map blob_size data)). lia.
Qed.

(** X25.  [WebcamRecorder] finalizes without looking at what was
    recorded.  A session started on a held stream (start, data events,
    stop, the [onstop] callback) always stores a ["video/webm"] blob and
    reports exactly that blob to the parent, whose size is the sum of the
    sizes of the data events; no error is set on the way.  In particular a
    session whose events carried no data (none, or only empty ones) hands
    the parent a blob of size 0.  The stream is released and the recording
    clock is stopped. *)
Theorem WebcamRecorder_session_reports (h : Host) (rnd : Q) (data : list Blob)
    (r : Render) (i : nat) :
  streamRef (cap r) = Some i ->
  constructorError h = None ->
  exists s',
    WebcamRecorder_session h rnd data r = Ok s' /\
    let blob := mkBlob (list_sum (map blob_size data)) "video/webm" in
    recordedBlob (cap s') = Some blob /\
    completed (env s') = (completed (env r) ++ [mkCompletion blob None None])%list /\
    error (cap s') = error (cap r) /\
    isRecording (cap s') = false /\
    streamRef (cap s') = None /\
    i ∉ liveStreams (env s') /\
    nextTimer (env r) ∉ timers (env s').
Proof.
  intros Hs Hc. unfold WebcamRecorder_session, event.
  set (s1 := WebcamRecorder.startRecording h rnd rnd rnd rnd r r).
  destruct (WebcamRecorder_data_events data s1) as (Hp & Hd & He & Hcap).
  cbv zeta in *.
  set (s2 := fold_left _ data s1) in *.
  assert (H1 : chunksRef (cap s1) = [] /\
               mediaRecorderRef (cap s1) = Some (mkRecorder recording "video/webm") /\
               isRecording (cap s1) = true /\ timerRef (cap s1) = Some (nextTimer (env r)) /\
               streamRef (cap s1) = Some i /\ error (cap s1) = error (cap r) /\
               recordedBlob (cap s1) = recordedBlob (cap r) /\
               mediaUrl (cap s1) = mediaUrl (cap r) /\
               completed (env s1) = completed (env r) /\
               liveStreams (env s1) = liveStreams (env r)).
  { subst s1. unfold WebcamRecorder.startRecording, WebcamRecorder.analyzeVideo.
    rewrite Hs, Hc. destruct (isRecording (cap r)); cbn; auto 12. }
  destruct H1 as (Hch & Hrec & Hir & Htm & Hst & Her & Hrb & Hmu & Hcm & Hls).
  clearbody s1.
  destruct s2 as [p2 c2 d2 b2]. cbn in Hp, Hd, He, Hcap. subst p2 d2 b2.
  rewrite Hch in Hcap. cbn [app] in Hcap.
  destruct s1 as [p1 c1 d1 b1]; destruct c1; destruct b1. cbn in *. subst.
  unfold WebcamRecorder.stopRecording. cbn.
  eexists. split; [reflexivity|].
  unfold WebcamRecorder.onstop, new_Blob. cbn.
  rewrite list_sum_positive_sizes.
  destruct (mediaUrl (cap r)); cbn;
    repeat split; try reflexivity; set_solver.
Qed.

Lemma WebcamRecorder_session_reports_witness :
  exists s',
    WebcamRecorder_session grantedHost 0 [mkBlob 0 "video/webm"]
      (WebcamRecorder.startCamera Granted (initialState video)) = Ok s' /\
    completed (env s') = [mkCompletion (mkBlob 0 "video/webm") None None].
Proof.
  destruct (WebcamRecorder_session_reports grantedHost 0 [mkBlob 0 "video/webm"]
              (WebcamRecorder.startCamera Granted (initialState video)) _
              eq_refl eq_refl) as (s' & Hs & _ & Hc & _).
  exists s'. split; [exact Hs | exact Hc].
Defined.

(** *** Runs of the guarded handlers of [MediaRecorder] *)

Lemma MediaRecorder_acquire_retry_bounded_witness :
  let s := initialState audio in
  fst (reinvocations (MediaRecorder.startTimeout s) [grantedHost; grantedHost; grantedHost]
         (event (MediaRecorder.startRecording grantedHost) s)) <= 1.
Proof.
  exact (proj1 (MediaRecorder_acquire_retry_bounded grantedHost
                  [grantedHost; grantedHost; grantedHost] (initialState audio)
                  eq_refl eq_refl)).
Defined.

Lemma MediaRecorder_togglePlayback_serialized_witness :
  let first := event MediaRecorder.togglePlayback (playerState video) in
  snd first = Some AwaitPlay /\
  event MediaRecorder.togglePlayback (fst first) = (fst first, None).
Proof.
  split; [reflexivity|].
  exact (proj1 (MediaRecorder_togglePlayback_serialized (playerState video)
                  (fst (event MediaRecorder.togglePlayback (playerState video)))
                  AwaitPlay eq_refl)).
Defined.

(** ** The transcription a mounted recorder performs *)

(** C2, as stated, fails.  In a mounted [MediaRecorder] (Whisper is not
    marked as supported) and a browser without speech recognition API the
    final text is not the failure text but the text that says so. *)
Lemma performTranscription_unsupported_text :
  let r := MediaRecorder_mounted audio in
  isWhisperSupportedState (drv r) = false /\
  fst (event (MediaRecorder.performTranscription noSpeechRecognition) r) =
    Ok "Your browser does not support speech recognition. Please type your response manually." /\
  fst (event (MediaRecorder.performTranscription noSpeechRecognition) r) <> Ok failureText.
Proof.
  split; [reflexivity|].
  destruct (performTranscription_unsupported noSpeechRecognition (MediaRecorder_mounted audio)
              (MediaRecorder_mounted audio) eq_refl) as (H & _).
  unfold event. rewrite H. split; [reflexivity | discriminate].
Qed.

(** C2, amended.  [performTranscription] does not throw, in any render.
    In a render that does not have Whisper marked as supported it calls
    [transcribeAudioFallback] and nothing else and shows the text it
    returns.  Where the browser has no speech recognition API that text
    says so.  Otherwise it is the failure text whenever the speech path
    fails (its set-up throws, the recogniser reports an error, [play()] of
    the recording is rejected, or the recogniser ends without a final
    result), the final results when it ends with some, and the promise
    stays pending as long as none of these has happened. *)
Theorem performTranscription_degrades (e : TranscriptionEnv) (r : Render) (s : State) :
  isWhisperSupportedState (drv r) = false ->
  let result := MediaRecorder.performTranscription e r s in
  let api := t_speech e in
  (forall (r' : Render) (s' : State) (message : string),
     fst (MediaRecorder.performTranscription e r' s') <> Throw message) /\
  adapterCalls (env (snd result)) = (adapterCalls (env s) ++ [SpeechRecognition])%list /\
  (forall text,
     fst result = Ok text ->
     transcribedText (drv (snd result)) = Some text /\
     isTranscribing (drv (snd result)) = false) /\
  (hasSpeechRecognition api = false -> fst result = Ok unsupportedText) /\
  (hasSpeechRecognition api = true -> setupThrows api = true ->
   fst result = Ok failureText) /\
  (hasSpeechRecognition api = true -> setupThrows api = false ->
   forall evs rest,
     listening evs = true ->
     (forall err, speechEvents api = (evs ++ onerror err :: rest)%list ->
                  fst result = Ok failureText) /\
     (forall err, speechEvents api = (evs ++ play_rejected err :: rest)%list ->
                  fst result = Ok failureText) /\
     (speechEvents api = (evs ++ onend :: rest)%list ->
      fst result = Ok (or_else (finalTranscript (heard evs)) failureText)) /\
     (speechEvents api = evs -> fst result = Pending)).
Proof.
  intros Hw. cbv zeta.
  destruct (performTranscription_unsupported e r s Hw) as (Hres & Hcalls & _).
  pose proof (performTranscription_effect e r s) as Heff.
  cbv zeta in *.
  split; [intros r' s' message; apply performTranscription_never_throws|].
  split; [exact Hcalls|].
  split.
  { intros text Htext. rewrite Htext in Heff.
    destruct Heff as (_ & _ & _ & _ & Ht & Hi & _). auto. }
  rewrite Hres. unfold transcribeAudioFallback.
  destruct (t_speech e) as [has throws events]. cbn.
  split; [intros ->; reflexivity|].
  split; [intros -> ->; reflexivity|].
  intros -> -> evs rest Hl. cbn.
  repeat split.
  - intros err ->. rewrite fold_left_app. cbn. rewrite (speech_listening evs "" Hl). cbn.
    erewrite speech_resolved; reflexivity.
  - intros err ->. rewrite fold_left_app. cbn. rewrite (speech_listening evs "" Hl). cbn.
    erewrite speech_resolved; reflexivity.
  - intros ->. rewrite fold_left_app. cbn. rewrite (speech_listening evs "" Hl).
    rewrite finalTranscript_fold. cbn.
    erewrite speech_resolved; reflexivity.
  - intros ->. rewrite (speech_listening evs "" Hl). reflexivity.
Qed.

Lemma performTranscription_degrades_witness :
  let r := MediaRecorder_mounted audio in
  let result := event (MediaRecorder.performTranscription whisperFails) r in
  adapterCalls (env (snd result)) = [SpeechRecognition] /\
  fst result = Ok "hello world ".
Proof.
  destruct (performTranscription_degrades whisperFails (MediaRecorder_mounted audio)
              (MediaRecorder_mounted audio) eq_refl)
    as (_ & Hcalls & _ & _ & _ & Hevents).
  split; [exact Hcalls|].
  destruct (Hevents eq_refl eq_refl
              [onresult [(true, "hello world")]; audio_onended] [] eq_refl)
    as (_ & _ & Hend & _).
  exact (Hend eq_refl).
Defined.

(** ** Reset, from the click to the fresh stream *)









